(** * kobold: scripts/inspect-tiles.py, the PNG loader [load_png]

    A shallow embedding of [load_png] (lines 37-65 of
    scripts/inspect-tiles.py) and the properties of its chunk loop, its
    scanline loop and its nibble unpacking.

    Conventions of the embedding:
    - a Python [bytes] object is a [list byte]; a Python [int] is a [Z];
      a Python list of ints is a [list Z];
    - the dict [chunks] is a [gmap string (list (list byte))];
    - a Python exception is an outcome [Raise e]; the only unbounded loop,
      the [while] of line 41, runs on fuel and reports [OutOfFuel] when it
      is exhausted (it never is, see [chunk_loop_enough_fuel]);
    - [zlib.decompress] is a library call: it is a parameter of the
      embedding. *)

From Stdlib Require Import ZArith List Lia Strings.Byte.
From Stdlib Require Import DecimalString DecimalZ Sorted.
From stdpp Require Import base option list gmap strings.
Import ListNotations.

Local Open Scope Z_scope.

(** ** Outcomes *)

(** The exceptions [load_png] can run into are the first five.  The last
    three are the error kinds the specification names; [load_png] has no
    [raise] statement, so nothing in this file constructs them. *)
Inductive exn : Set :=
  | StructError          (* struct.error *)
  | UnicodeDecodeError
  | KeyError
  | ZlibError            (* zlib.error *)
  | IndexError
  | FormatError
  | TruncatedInputError
  | UnsupportedFeatureError.

Inductive outcome (A : Type) : Type :=
  | Ok (a : A)
  | Raise (e : exn)
  | OutOfFuel.
Arguments Ok {A} a.
Arguments Raise {A} e.
Arguments OutOfFuel {A}.

Definition bind {A B : Type} (m : outcome A) (k : A -> outcome B) : outcome B :=
  match m with
  | Ok a => k a
  | Raise e => Raise e
  | OutOfFuel => OutOfFuel
  end.

Notation "'do' x <- m ; k" := (bind m (fun x => k))
  (at level 10, x name, m at level 100, k at level 200).
Notation "'do' ' p <- m ; k" := (bind m (fun x => let 'p := x in k))
  (at level 10, p pattern, m at level 100, k at level 200).

(** [for x in xs: s = body(s, x)] *)
Fixpoint for_each {A S : Type} (xs : list A) (body : S -> A -> outcome S) (s : S)
  : outcome S :=
  match xs with
  | [] => Ok s
  | x :: xs' => do s' <- body s x; for_each xs' body s'
  end.

(** ** Python primitives *)

(** [int] value of one element of a [bytes] object. *)
Definition byte_val (b : byte) : Z := Z.of_N (Byte.to_N b).

(** [bytes([z0, z1, ...])], for writing inputs down. *)
Definition byte_of_Z (z : Z) : byte :=
  match Byte.of_N (Z.to_N z) with Some b => b | None => x00 end.
Definition bytes (zs : list Z) : list byte := map byte_of_Z zs.

(** [s[i:j]] for [0 <= i] and [0 <= j]: the slice is cut at the end of [s]
    and is empty when [j <= i]; it never raises. *)
Definition slice {A : Type} (s : list A) (i j : Z) : list A :=
  take (Z.to_nat (j - i)) (drop (Z.to_nat i) s).

(** [s[i]] for [0 <= i]. *)
Definition index {A : Type} (s : list A) (i : Z) : outcome A :=
  match s !! Z.to_nat i with
  | Some a => Ok a
  | None => Raise IndexError
  end.

(** [len(s)] *)
Definition len {A : Type} (s : list A) : Z := Z.of_nat (length s).

(** [range(a, b)] for [0 <= a]. *)
Definition range (a b : Z) : list nat := seq (Z.to_nat a) (Z.to_nat (b - a)).

(** Big-endian unsigned value of a byte string. *)
Definition be_uint (bs : list byte) : Z :=
  fold_left (fun acc b => acc * 256 + byte_val b) bs 0.

(** [struct.unpack('>I', bs)[0]]: exactly four bytes, or struct.error. *)
Definition unpack_I (bs : list byte) : outcome Z :=
  if Nat.eqb (length bs) 4 then Ok (be_uint bs) else Raise StructError.

(** [struct.unpack('>II', bs)]: exactly eight bytes, or struct.error. *)
Definition unpack_II (bs : list byte) : outcome (Z * Z) :=
  if Nat.eqb (length bs) 8
  then Ok (be_uint (take 4 bs), be_uint (drop 4 bs))
  else Raise StructError.

(** [bs.decode('ascii')]: every byte below 128, or UnicodeDecodeError. *)
Definition decode_ascii (bs : list byte) : outcome string :=
  if forallb (fun b => byte_val b <? 128) bs
  then Ok (String.string_of_list_byte bs)
  else Raise UnicodeDecodeError.

(** [d[k]] on a dict. *)
Definition dict_get {V : Type} (d : gmap string V) (k : string) : outcome V :=
  match d !! k with
  | Some v => Ok v
  | None => Raise KeyError
  end.

(** ** The chunk loop (lines 39-46) *)

(** One pass through the body of the [while], lines 42-46. *)
Definition chunk_body (data : list byte) (i : Z)
    (chunks : gmap string (list (list byte)))
  : outcome (Z * gmap string (list (list byte))) :=
  do l <- unpack_I (slice data i (i + 4));
  do ct <- decode_ascii (slice data (i + 4) (i + 8));
  let chunks1 :=
    match chunks !! ct with
    | None => <[ct := []]> chunks
    | Some _ => chunks
    end in
  let chunks2 := alter (fun ps => ps ++ [slice data (i + 8) (i + 8 + l)]) ct chunks1 in
  Ok (i + 12 + l, chunks2).

(** [while i < len(data): ...] *)
Fixpoint chunk_loop (fuel : nat) (data : list byte) (i : Z)
    (chunks : gmap string (list (list byte)))
  : outcome (gmap string (list (list byte))) :=
  if i <? len data then
    match fuel with
    | O => OutOfFuel
    | S fuel' =>
        do '(i', chunks') <- chunk_body data i chunks;
        chunk_loop fuel' data i' chunks'
    end
  else Ok chunks.

(** Lines 39-46: [chunks = {}; i = 8; while ...]. *)
Definition parse_chunks (data : list byte) : outcome (gmap string (list (list byte))) :=
  chunk_loop (length data) data 8 ∅.

(** ** The scanline loop (lines 49-64) *)

(** The variables the [for y] loop updates. *)
Record row_state : Type := RowState {
  pixels : list (list Z);
  prev : list Z;
  idx : Z
}.

(** Line 57, [row[x] = (row[x]+row[x-1])%256]. *)
Definition sub_body (row : list Z) (x : nat) : outcome (list Z) :=
  do a <- index row (Z.of_nat x);
  do b <- index row (Z.of_nat x - 1);
  Ok (<[x := (a + b) mod 256]> row).

(** Line 59, [row[x] = (row[x]+prev[x])%256]. *)
Definition up_body (prev : list Z) (row : list Z) (x : nat) : outcome (list Z) :=
  do a <- index row (Z.of_nat x);
  do b <- index prev (Z.of_nat x);
  Ok (<[x := (a + b) mod 256]> row).

(** Lines 56-59: the [if ft == 1 / elif ft == 2] statement. *)
Definition defilter (ft rb : Z) (prev row : list Z) : outcome (list Z) :=
  if ft =? 1 then for_each (range 1 rb) sub_body row
  else if ft =? 2 then for_each (range 0 rb) (up_body prev) row
  else Ok row.

(** Lines 60-62: two 4-bit indices per byte, high nibble first. *)
Definition unpack_row (row : list Z) : list Z :=
  flat_map (fun b => [Z.land (Z.shiftr b 4) 15; Z.land b 15]) row.

(** One pass through the body of [for y in range(H)], lines 54-64. *)
Definition scanline (raw : list byte) (W rb : Z) (st : row_state) (y : nat)
  : outcome row_state :=
  do ft <- index raw (idx st);
  let idx1 := idx st + 1 in
  let row := map byte_val (slice raw idx1 (idx1 + rb)) in
  let idx2 := idx1 + rb in
  do row' <- defilter (byte_val ft) rb (prev st) row;
  let px := unpack_row row' in
  Ok {| pixels := pixels st ++ [take (Z.to_nat W) px]; prev := row'; idx := idx2 |}.

(** Line 49. *)
Definition row_bytes (W : Z) : Z := (W * 4 + 7) / 8.

(** Lines 50-52: the state before the first row. *)
Definition rows_init (rb : Z) : row_state :=
  {| pixels := []; prev := replicate (Z.to_nat rb) 0; idx := 0 |}.

(** The state after the first [n] rows. *)
Definition rows_after (n : nat) (raw : list byte) (W : Z) : outcome row_state :=
  for_each (seq 0 n) (scanline raw W (row_bytes W)) (rows_init (row_bytes W)).

(** Lines 49-64: from the raw stream and the header's [W], [H] to [pixels]. *)
Definition decode_rows (raw : list byte) (W H : Z) : outcome (list (list Z)) :=
  do st <- for_each (range 0 H) (scanline raw W (row_bytes W)) (rows_init (row_bytes W));
  Ok (pixels st).

(** ** [load_png] (lines 37-65), on the bytes read from the file *)

Section LoadPng.

(** [zlib.decompress]; [None] is zlib.error. *)
Variable decompress : list byte -> option (list byte).

Definition zlib_decompress (bs : list byte) : outcome (list byte) :=
  match decompress bs with
  | Some raw => Ok raw
  | None => Raise ZlibError
  end.

(** Lines 47-48, on the dict the chunk loop built. *)
Definition header_and_raw (chunks : gmap string (list (list byte)))
  : outcome (list byte * Z * Z) :=
  do ihdr <- dict_get chunks "IHDR";
  do ihdr0 <- index ihdr 0;
  do '(W, H) <- unpack_II (slice ihdr0 0 8);
  do idat <- dict_get chunks "IDAT";
  do raw <- zlib_decompress (concat idat);
  Ok (raw, W, H).

(** Lines 38-48: the raw stream and the header's [W] and [H]. *)
Definition read_stream (data : list byte) : outcome (list byte * Z * Z) :=
  do chunks <- parse_chunks data;
  header_and_raw chunks.

Definition load_png (data : list byte) : outcome (list (list Z) * Z * Z) :=
  do '(raw, W, H) <- read_stream data;
  do px <- decode_rows raw W H;
  Ok (px, W, H).

End LoadPng.

(** ** [analyze] (lines 27-28 and 67-77) *)

Definition COLS : Z := 49.
Definition ROWS : Z := 22.
Definition BG_IDX : Z := 7.

(** [s[i]] for any int [i]: a negative index counts from the end. *)
Definition index_py {A : Type} (s : list A) (i : Z) : outcome A :=
  if 0 <=? i then index s i
  else if 0 <=? len s + i then index s (len s + i)
  else Raise IndexError.

(** [range(a, b)] for any ints. *)
Definition range_Z (a b : Z) : list Z :=
  map (fun k => a + Z.of_nat k) (seq 0 (Z.to_nat (b - a))).

(** The dict [counts], from int to int, as Python keeps it: the items in
    the order their keys were first set. *)
Fixpoint od_get (d : list (Z * Z)) (k : Z) : option Z :=
  match d with
  | [] => None
  | (k', v) :: d' => if k' =? k then Some v else od_get d' k
  end.

(** [d[k] = v]: an old key keeps its place, a new key goes last. *)
Fixpoint od_set (d : list (Z * Z)) (k v : Z) : list (Z * Z) :=
  match d with
  | [] => [(k, v)]
  | (k', v') :: d' => if k' =? k then (k, v) :: d' else (k', v') :: od_set d' k v
  end.

(** Lines 75-76. *)
Definition count_pixel (counts : list (Z * Z)) (pi : Z) : list (Z * Z) :=
  if pi =? BG_IDX then counts
  else od_set counts pi (default 0 (od_get counts pi) + 1).

Definition analyze (pixels : list (list Z)) (W H frame : Z)
  : outcome (list (Z * Z)) :=
  let tw := W / COLS in
  let th := H / ROWS in
  let c := frame mod COLS in
  let r := frame / COLS in
  let x0 := c * tw in
  let y0 := r * th in
  for_each (range_Z y0 (y0 + th))
    (fun counts y =>
       for_each (range_Z x0 (x0 + tw))
         (fun counts x =>
            do row <- index_py pixels y;
            do pi <- index_py row x;
            Ok (count_pixel counts pi))
         counts)
    [].

(** [sum(counts.values())], line 83. *)
Definition sum_values (counts : list (Z * Z)) : Z :=
  fold_left (fun acc kv => acc + snd kv) counts 0.

(** ** [fmt] (lines 30-35 and 79-86)

    A Python [str] is a [string] holding its UTF-8 bytes. *)

Definition COLOR_NAMES : gmap Z string :=
  list_to_map [(0, "YELLOW"); (1, "GREEN"); (2, "BROWNDARK"); (3, "BLUE");
               (4, "RED"); (5, "TAN"); (6, "GRAY"); (7, "BG")]%string.

Definition PALETTE_RGB : list (Z * Z * Z) :=
  [(244, 180, 27); (56, 217, 115); (122, 68, 74); (60, 172, 215);
   (230, 72, 46); (191, 121, 88); (207, 198, 184); (71, 45, 60)].

(** [str(z)] *)
Definition str_int (z : Z) : string := NilZero.string_of_int (Z.to_int z).

Fixpoint spaces (n : nat) : string :=
  match n with
  | O => ""
  | S n' => " " +:+ spaces n'
  end.

(** [format(z, 'wd')]: right-aligned in at least [w] characters. *)
Definition fmt_d (w : nat) (z : Z) : string :=
  spaces (w - String.length (str_int z)) +:+ str_int z.

(** [format(v, '02X')] for [0 <= v < 256], which holds of every entry of
    [PALETTE_RGB]. *)
Definition hex_digit (d : Z) : string :=
  String.substring (Z.to_nat d) 1 "0123456789ABCDEF".
Definition fmt_02X (v : Z) : string := hex_digit (v / 16) +:+ hex_digit (v mod 16).

(** [sep.join(parts)] *)
Fixpoint join (sep : string) (parts : list string) : string :=
  match parts with
  | [] => ""
  | [p] => p
  | p :: ps => p +:+ sep +:+ join sep ps
  end.

(** [sorted(items, key=lambda x: -x[1])]: by falling count, items of equal
    count in the order they had. *)
Fixpoint insert_by_count (kv : Z * Z) (l : list (Z * Z)) : list (Z * Z) :=
  match l with
  | [] => [kv]
  | kv' :: l' =>
      if snd kv' <=? snd kv then kv :: l else kv' :: insert_by_count kv l'
  end.
Definition sorted_by_count (items : list (Z * Z)) : list (Z * Z) :=
  fold_right insert_by_count [] items.

(** [max(k0 :: ks, key=key)]: the first of the greatest. *)
Definition max_by (key : Z -> Z) (k0 : Z) (ks : list Z) : Z :=
  fold_left (fun best k => if key best <? key k then k else best) ks k0.

Definition fmt (frame : Z) (counts : list (Z * Z)) : outcome string :=
  match map fst counts with
  | [] =>
      Ok ("Frame " +:+ fmt_d 4 frame +:+ " (r" +:+ fmt_d 2 (frame / COLS)
          +:+ "c" +:+ fmt_d 2 (frame mod COLS) +:+ "): EMPTY")
  | k0 :: ks =>
      do parts <-
        for_each (sorted_by_count counts)
          (fun acc kv =>
             match COLOR_NAMES !! fst kv with
             | Some name => Ok (acc ++ [name +:+ "=" +:+ str_int (snd kv)])
             | None => Raise KeyError
             end) [];
      let parts := join ", " parts in
      let total := sum_values counts in
      let dominant := max_by (fun k => default 0 (od_get counts k)) k0 ks in
      do '(r, g, b) <- index_py PALETTE_RGB dominant;
      Ok ("Frame " +:+ fmt_d 4 frame +:+ " (r" +:+ fmt_d 2 (frame / COLS)
          +:+ "c" +:+ fmt_d 2 (frame mod COLS) +:+ "): " +:+ fmt_d 3 total
          +:+ "px | " +:+ parts +:+ "  → #"
          +:+ fmt_02X r +:+ fmt_02X g +:+ fmt_02X b)
  end.

(** ** [main] (lines 88-123)

    [main] is embedded from line 99 on: [args] is what [p.parse_args()]
    returned, [data] the bytes of the tile sheet.  Its result is the lines
    it printed, in order, and how it ended; a line printed before an
    exception stays printed. *)

Record cli_args : Type := CliArgs {
  a_green : bool;
  a_gray : bool;
  a_yellow : bool;
  a_tan : bool;
  a_brown : bool;
  a_frame : option (list Z);   (* None, or the ints behind --frame *)
  a_top : Z
}.

(** [for x in xs: <guard> print(<line>)]: [line x] is [Ok None] when the
    guard of the [if] fails. *)
Fixpoint print_each {A : Type} (xs : list A) (line : A -> outcome (option string))
    (out : list string) : list string * outcome unit :=
  match xs with
  | [] => (out, Ok tt)
  | x :: xs' =>
      match line x with
      | Ok (Some l) => print_each xs' line (out ++ [l])
      | Ok None => print_each xs' line out
      | Raise e => (out, Raise e)
      | OutOfFuel => (out, OutOfFuel)
      end
  end.

(** [list(enumerate(xs))] *)
Definition enumerate {A : Type} (xs : list A) : list (Z * A) :=
  imap (fun i x => (Z.of_nat i, x)) xs.

(** [s[:n]] for any int [n]. *)
Definition slice_to {A : Type} (s : list A) (n : Z) : list A :=
  if 0 <=? n then take (Z.to_nat n) s else take (Z.to_nat (len s + n)) s.

(** [sorted(pairs, reverse=True)] on pairs of ints: greatest first, in the
    order of tuples. *)
Definition pair_le (x y : Z * Z) : bool :=
  (fst x <? fst y) || ((fst x =? fst y) && (snd x <=? snd y)).
Fixpoint insert_desc (x : Z * Z) (l : list (Z * Z)) : list (Z * Z) :=
  match l with
  | [] => [x]
  | y :: l' => if pair_le y x then x :: l else y :: insert_desc x l'
  end.
Definition sorted_desc (l : list (Z * Z)) : list (Z * Z) :=
  fold_right insert_desc [] l.

(** Lines 107-113. *)
Definition chosen_color (args : cli_args) : option (Z * string) :=
  if a_green args then Some (1, "GREEN")
  else if a_gray args then Some (6, "GRAY")
  else if a_yellow args then Some (0, "YELLOW")
  else if a_tan args then Some (5, "TAN")
  else if a_brown args then Some (2, "BROWNDARK")
  else None.

Section Main.

Variable decompress : list byte -> option (list byte).

(** Line 100: [[analyze(pixels, W, H, f) for f in range(COLS*ROWS)]]. *)
Definition all_frames (pixels : list (list Z)) (W H : Z)
  : outcome (list (list (Z * Z))) :=
  for_each (range_Z 0 (COLS * ROWS))
    (fun acc f => do c <- analyze pixels W H f; Ok (acc ++ [c])) [].

Definition main (data : list byte) (args : cli_args) : list string * outcome unit :=
  match (do '(pixels, W, H) <- load_png decompress data; all_frames pixels W H) with
  | Raise e => ([], Raise e)
  | OutOfFuel => ([], OutOfFuel)
  | Ok all_counts =>
      match a_frame args with
      | Some (f0 :: fs) =>
          print_each (f0 :: fs)
            (fun f =>
               do cc <- index_py all_counts f;
               do l <- fmt f cc;
               Ok (Some l)) []
      | _ =>
          match chosen_color args with
          | Some (color_idx, label) =>
              let ranked :=
                sorted_desc
                  (map (fun ic => (default 0 (od_get (snd ic) color_idx), fst ic))
                     (enumerate all_counts)) in
              print_each (slice_to ranked (a_top args))
                (fun nf =>
                   if 0 <? fst nf then
                     do cc <- index_py all_counts (snd nf);
                     do l <- fmt (snd nf) cc;
                     Ok (Some ("  " +:+ l))
                   else Ok None)
                ["Top " +:+ str_int (a_top args) +:+ " frames by " +:+ label
                 +:+ " pixel count:"]
          | None =>
              print_each (enumerate all_counts)
                (fun fc =>
                   match snd fc with
                   | [] => Ok None
                   | _ :: _ => do l <- fmt (fst fc) (snd fc); Ok (Some ("  " +:+ l))
                   end)
                ["All non-empty frames in colored_packed.png ("
                 +:+ str_int COLS +:+ "×" +:+ str_int ROWS +:+ ", "
                 +:+ str_int (COLS * ROWS) +:+ " total):"]
          end
      end
  end.

End Main.

(** ** A decompressor to run whole files on

    [inflate] reads the zlib streams that are made of stored DEFLATE blocks
    only (RFC 1950; RFC 1951, 3.2.4): header [CMF FLG], then blocks
    [header byte, LEN, NLEN, LEN bytes], then the Adler-32 of the data.  On
    such a stream it gives the bytes [zlib.decompress] gives.  It answers
    [None] on every other stream, the compressed ones included, so it stands
    for [zlib.decompress] on the example files below and nowhere else:
    every theorem is stated for an arbitrary [decompress]. *)
Module ZlibStored.

Definition adler32 (bs : list byte) : Z :=
  let '(a, b) :=
    fold_left (fun '(a, b) x =>
                 let a' := (a + byte_val x) mod 65521 in
                 (a', (b + a') mod 65521)) bs (1, 0) in
  b * 65536 + a.

Fixpoint blocks (fuel : nat) (bs acc : list byte) : option (list byte * list byte) :=
  match fuel, bs with
  | S fuel', h :: l0 :: l1 :: n0 :: n1 :: rest =>
      let n := byte_val l0 + 256 * byte_val l1 in
      let c := byte_val n0 + 256 * byte_val n1 in
      if (Z.land (byte_val h) 6 =? 0) && (n + c =? 65535) && (n <=? len rest) then
        let acc' := acc ++ take (Z.to_nat n) rest in
        let rest' := drop (Z.to_nat n) rest in
        if Z.testbit (byte_val h) 0 then Some (acc', rest')
        else blocks fuel' rest' acc'
      else None
  | _, _ => None
  end.

Definition inflate (bs : list byte) : option (list byte) :=
  match bs with
  | cmf :: flg :: body =>
      if (Z.land (byte_val cmf) 15 =? 8) && (Z.shiftr (byte_val cmf) 4 <=? 7)
         && ((byte_val cmf * 256 + byte_val flg) mod 31 =? 0)
         && negb (Z.testbit (byte_val flg) 5) then
        match blocks (length body) body [] with
        | Some (out, trailer) =>
            if Nat.eqb (length trailer) 4 && (be_uint trailer =? adler32 out)
            then Some out else None
        | None => None
        end
      else None
  | _ => None
  end.

End ZlibStored.

(** ** Example files

    Each is an 8-byte signature followed by chunks
    [length, type, payload, crc]; the IDAT payload is a stored zlib stream
    of the raw bytes given in the comment. *)

(** 4x3, bit depth 4, palette; raw [0 161 178 | 1 5 5 | 2 1 1]. *)
Definition png_4x3 : list byte := bytes
  [137; 80; 78; 71; 13; 10; 26; 10;
   0; 0; 0; 13; 73; 72; 68; 82; 0; 0; 0; 4; 0; 0; 0; 3; 4; 3; 0; 0; 0; 70; 218; 179; 245;
   0; 0; 0; 20; 73; 68; 65; 84; 120; 1; 1; 9; 0; 246; 255;
     0; 161; 178; 1; 5; 5; 2; 1; 1; 10; 43; 1; 99; 3; 40; 88; 142;
   0; 0; 0; 0; 73; 69; 78; 68; 174; 66; 96; 130].

(** 2x1, bit depth 4, palette; raw [5 171]: filter tag 5. *)
Definition png_tag5 : list byte := bytes
  [137; 80; 78; 71; 13; 10; 26; 10;
   0; 0; 0; 13; 73; 72; 68; 82; 0; 0; 0; 2; 0; 0; 0; 1; 4; 3; 0; 0; 0; 6; 12; 98; 185;
   0; 0; 0; 13; 73; 68; 65; 84; 120; 1; 1; 2; 0; 253; 255; 5; 171; 0; 183; 0; 177;
     33; 203; 189; 145;
   0; 0; 0; 0; 73; 69; 78; 68; 174; 66; 96; 130].

(** 2x1, bit depth 1, palette; raw [0 192]: both pixels have index 1. *)
Definition png_depth1 : list byte := bytes
  [137; 80; 78; 71; 13; 10; 26; 10;
   0; 0; 0; 13; 73; 72; 68; 82; 0; 0; 0; 2; 0; 0; 0; 1; 1; 3; 0; 0; 0; 206; 236; 237; 201;
   0; 0; 0; 13; 73; 68; 65; 84; 120; 1; 1; 2; 0; 253; 255; 0; 192; 0; 194; 0; 193;
     157; 219; 177; 249;
   0; 0; 0; 0; 73; 69; 78; 68; 174; 66; 96; 130].

(** 2x1, bit depth 4, palette; the IDAT chunk declares 100 payload bytes
    and the file ends after 13 of them. *)
Definition png_truncated : list byte := bytes
  [137; 80; 78; 71; 13; 10; 26; 10;
   0; 0; 0; 13; 73; 72; 68; 82; 0; 0; 0; 2; 0; 0; 0; 1; 4; 3; 0; 0; 0; 6; 12; 98; 185;
   0; 0; 0; 100; 73; 68; 65; 84; 120; 1; 1; 2; 0; 253; 255; 0; 171; 0; 173; 0; 172].

(** 2x1, bit depth 4, palette; raw [0 171]; the signature is eight zero
    bytes. *)
Definition png_bad_magic : list byte := bytes
  [0; 0; 0; 0; 0; 0; 0; 0;
   0; 0; 0; 13; 73; 72; 68; 82; 0; 0; 0; 2; 0; 0; 0; 1; 4; 3; 0; 0; 0; 6; 12; 98; 185;
   0; 0; 0; 13; 73; 68; 65; 84; 120; 1; 1; 2; 0; 253; 255; 0; 171; 0; 173; 0; 172;
     3; 177; 102; 93;
   0; 0; 0; 0; 73; 69; 78; 68; 174; 66; 96; 130].

(** 2x1, bit depth 16, color type 2 (RGB), interlace method 1;
    raw [0 171 0 0 0 0 0 0 0 0 0 0 0]. *)
Definition png_rgb16_interlaced : list byte := bytes
  [137; 80; 78; 71; 13; 10; 26; 10;
   0; 0; 0; 13; 73; 72; 68; 82; 0; 0; 0; 2; 0; 0; 0; 1; 16; 2; 0; 0; 1; 92; 215; 4; 8;
   0; 0; 0; 24; 73; 68; 65; 84; 120; 1; 1; 13; 0; 242; 255;
     0; 171; 0; 0; 0; 0; 0; 0; 0; 0; 0; 0; 0; 8; 17; 0; 172; 89; 111; 143; 182;
   0; 0; 0; 0; 73; 69; 78; 68; 174; 66; 96; 130].

(** 4x1, bit depth 4, palette; raw [0 171]: one byte short of the
    [1 + 2] bytes of the row. *)
Definition png_short_raw : list byte := bytes
  [137; 80; 78; 71; 13; 10; 26; 10;
   0; 0; 0; 13; 73; 72; 68; 82; 0; 0; 0; 4; 0; 0; 0; 1; 4; 3; 0; 0; 0; 11; 18; 18; 254;
   0; 0; 0; 13; 73; 68; 65; 84; 120; 1; 1; 2; 0; 253; 255; 0; 171; 0; 173; 0; 172;
     3; 177; 102; 93;
   0; 0; 0; 0; 73; 69; 78; 68; 174; 66; 96; 130].

(** ** Reference functions for the statements *)

(** The number of passes the loop has left at offset [i]: every pass moves
    [i] forward by at least 12. *)
Definition passes_left (data : list byte) (i : Z) : nat :=
  Z.to_nat ((len data - i + 11) / 12).

(** The Sub recurrence written as a function: each output byte is the
    input byte plus the output byte on its left, modulo 256; [left] is the
    byte on the left of the first one. *)
Fixpoint sub_from (left : Z) (row : list Z) : list Z :=
  match row with
  | [] => []
  | a :: row' => let o := (a + left) mod 256 in o :: sub_from o row'
  end.


(** The Up rule written as a function. *)
Definition up_with (prev row : list Z) : list Z :=
  zip_with (fun a b => (a + b) mod 256) row prev.

(** A palette index of the 4-bit format. *)
Definition nibble (v : Z) : Prop := 0 <= v < 16.

(** The encoder of the round-trip law: two 4-bit indices per byte, high
    nibble first, the low nibble of a last odd byte left at 0. *)
Fixpoint pack_row (px : list Z) : list Z :=
  match px with
  | [] => []
  | [a] => [a * 16]
  | a :: b :: px' => (a * 16 + b) :: pack_row px'
  end.

(** Every row behind filter tag 0 (None). *)
Definition encode_none (grid : list (list Z)) : list byte :=
  flat_map (fun r => x00 :: map byte_of_Z (pack_row r)) grid.

(** What holds of the loop variables after [y] rows: the read offset, the
    number of rows, their shape, and that only the last row can be short,
    which needs the raw stream to have ended inside it. *)
Definition rows_inv (raw : list byte) (W : Z) (y : nat) (st : row_state) : Prop :=
  idx st = Z.of_nat y * (1 + row_bytes W)
  /\ length (pixels st) = y
  /\ Forall (fun r => (length r <= Z.to_nat W)%nat /\ Forall nibble r) (pixels st)
  /\ (forall k r, pixels st !! k = Some r -> (S k < y)%nat -> length r = Z.to_nat W)
  /\ (idx st <= len raw ->
      length (prev st) = Z.to_nat (row_bytes W)
      /\ Forall (fun r => length r = Z.to_nat W) (pixels st)).

(** The exceptions of the Python run time and of the two libraries. *)
Definition python_exn (e : exn) : bool :=
  match e with
  | StructError | UnicodeDecodeError | KeyError | ZlibError | IndexError => true
  | FormatError | TruncatedInputError | UnsupportedFeatureError => false
  end.

(** ** Reference functions for the container and the filters

    Writers for the two formats [load_png] reads, to state what it reads
    back; the source has no writer. *)

(** A chunk as it lies in the file: type, payload and the four CRC bytes. *)
Record chunk : Type := Chunk {
  c_type : list byte;
  c_payload : list byte;
  c_crc : list byte
}.

(** [struct.pack('>I', n)] for [0 <= n < 2^32]. *)
Definition be32 (n : Z) : list byte :=
  map byte_of_Z [n / 16777216 mod 256; n / 65536 mod 256; n / 256 mod 256; n mod 256].

Definition encode_chunk (c : chunk) : list byte :=
  be32 (len (c_payload c)) ++ c_type c ++ c_payload c ++ c_crc c.

(** A chunk the format allows: a type of four ASCII bytes, four CRC bytes of
    any value, a payload length that fits 32 bits. *)
Definition chunk_ok (c : chunk) : Prop :=
  length (c_type c) = 4%nat
  /\ Forall (fun b => byte_val b < 128) (c_type c)
  /\ length (c_crc c) = 4%nat
  /\ len (c_payload c) < 4294967296.

Definition type_name (c : chunk) : string := String.string_of_list_byte (c_type c).

(** The payloads of the chunks of type [ty], in file order. *)
Fixpoint payloads_of (ty : string) (cs : list chunk) : list (list byte) :=
  match cs with
  | [] => []
  | c :: cs' =>
      if decide (type_name c = ty) then c_payload c :: payloads_of ty cs'
      else payloads_of ty cs'
  end.

(** The Sub filter as a writer applies it: each byte minus the byte on its
    left, modulo 256. *)
Fixpoint sub_enc (left : Z) (row : list Z) : list Z :=
  match row with
  | [] => []
  | a :: row' => (a - left) mod 256 :: sub_enc a row'
  end.

(** The Up filter as a writer applies it. *)
Definition up_enc (prev row : list Z) : list Z :=
  zip_with (fun a b => (a - b) mod 256) row prev.

Definition filter_enc (ft : Z) (prev row : list Z) : list Z :=
  if ft =? 1 then sub_enc 0 row
  else if ft =? 2 then up_enc prev row
  else row.

(** Rows of 4-bit indices, each behind the filter tag chosen for it;
    [prev] is the packed row above. *)
Fixpoint encode_rows (prev : list Z) (rows : list (Z * list Z)) : list byte :=
  match rows with
  | [] => []
  | (ft, px) :: rows' =>
      byte_of_Z ft :: map byte_of_Z (filter_enc ft prev (pack_row px))
      ++ encode_rows (pack_row px) rows'
  end.

(** ** Reference functions for the tiles *)

(** The pixels of tile [frame], row by row, for a frame of the sheet. *)
Definition tile (pixels : list (list Z)) (W H frame : Z) : list Z :=
  let tw := W / COLS in
  let th := H / ROWS in
  let x0 := frame mod COLS * tw in
  let y0 := frame / COLS * th in
  flat_map (fun row => slice row x0 (x0 + tw)) (slice pixels y0 (y0 + th)).

(** How often [k] occurs in [vs]. *)
Definition occurrences (k : Z) (vs : list Z) : Z :=
  Z.of_nat (count_occ Z.eq_dec vs k).

(** What every pass of lines 75-76 keeps true of [counts]. *)
Definition counts_inv (c : list (Z * Z)) : Prop :=
  od_get c BG_IDX = None
  /\ List.NoDup (map fst c)
  /\ Forall (fun kv => 1 <= snd kv) c.

(** ** Reference functions for the report line *)

(** The first item of the greatest count, [x] being in front of [l]. *)
Fixpoint first_max (x : Z * Z) (l : list (Z * Z)) : Z * Z :=
  match l with
  | [] => x
  | y :: l' => let h := first_max y l' in if snd h <=? snd x then x else h
  end.

(** One [NAME=count] part of the line. *)
Definition part_of (kv : Z * Z) : string :=
  default "" (COLOR_NAMES !! fst kv) +:+ "=" +:+ str_int (snd kv).

(** An index the palette names. *)
Definition named (k : Z) : Prop := 0 <= k <= 7.

(** ** Reference functions for the report *)

(** The counts of frame [f], empty where [analyze] raises. *)
Definition frame_counts (pixels : list (list Z)) (W H f : Z) : list (Z * Z) :=
  match analyze pixels W H f with
  | Ok c => c
  | _ => []
  end.

(** The indented line of a frame whose counts are not empty. *)
Definition report_line (pixels : list (list Z)) (W H f : Z) : option string :=
  match frame_counts pixels W H f with
  | [] => None
  | c :: cs =>
      match fmt f (c :: cs) with
      | Ok l => Some ("  " +:+ l)
      | _ => None
      end
  end.

(** A sheet as the report expects it: [H] rows of [W] pixels, every pixel
    one of the eight named indices. *)
Definition sheet_ok (pixels : list (list Z)) (W H : Z) : Prop :=
  len pixels = H /\ Forall (fun r => len r = W /\ Forall named r) pixels.

(** ** Example containers and sheets *)

Definition png_sig : list byte := bytes [137; 80; 78; 71; 13; 10; 26; 10].

(** The chunks of [png_bad_magic]: a 2x1 header, the stored stream of the
    raw bytes [0 171], the end marker. *)
Definition ihdr_2x1 : chunk :=
  Chunk (bytes [73; 72; 68; 82]) (bytes [0; 0; 0; 2; 0; 0; 0; 1; 4; 3; 0; 0; 0])
    (bytes [6; 12; 98; 185]).
Definition idat_2x1 : chunk :=
  Chunk (bytes [73; 68; 65; 84])
    (bytes [120; 1; 1; 2; 0; 253; 255; 0; 171; 0; 173; 0; 172])
    (bytes [3; 177; 102; 93]).
Definition iend : chunk := Chunk (bytes [73; 69; 78; 68]) [] (bytes [174; 66; 96; 130]).

(** The same stream cut into two IDAT chunks, with a tEXt chunk between
    them; the CRC bytes are left at zero. *)
Definition idat_2x1_a : chunk :=
  Chunk (bytes [73; 68; 65; 84]) (bytes [120; 1; 1; 2; 0]) (bytes [0; 0; 0; 0]).
Definition text_chunk : chunk :=
  Chunk (bytes [116; 69; 88; 116]) (bytes [65; 0; 66]) (bytes [0; 0; 0; 0]).
Definition idat_2x1_b : chunk :=
  Chunk (bytes [73; 68; 65; 84]) (bytes [253; 255; 0; 171; 0; 173; 0; 172])
    (bytes [0; 0; 0; 0]).

(** A header chunk with three payload bytes, and a data chunk that is no
    zlib stream. *)
Definition ihdr_short : chunk :=
  Chunk (bytes [73; 72; 68; 82]) (bytes [0; 0; 0]) (bytes [0; 0; 0; 0]).
Definition idat_garbage : chunk :=
  Chunk (bytes [73; 68; 65; 84]) (bytes [1; 2; 3]) (bytes [0; 0; 0; 0]).

(** A stored zlib stream of [raw], for fewer than 65536 bytes: the writer
    [ZlibStored.inflate] reads back. *)
Definition stored_stream (raw : list byte) : list byte :=
  bytes [120; 1; 1; len raw mod 256; len raw / 256;
         (65535 - len raw) mod 256; (65535 - len raw) / 256]
  ++ raw ++ be32 (ZlibStored.adler32 raw).

(** A sheet of 98 x 44 pixels, so of 2 x 2 tiles: tile 0 is green (1),
    tile 54 half gray (6) and half brown (2), tile 1077 red (4), the rest
    background (7). *)
Definition sheet_pixel (x y : Z) : Z :=
  let t := y / 2 * 49 + x / 2 in
  if t =? 0 then 1
  else if t =? 54 then (if x mod 2 =? 0 then 6 else 2)
  else if t =? 1077 then 4
  else 7.
Definition sheet_98x44 : list (list Z) :=
  map (fun y => map (fun x => sheet_pixel (Z.of_nat x) (Z.of_nat y)) (seq 0 98))
    (seq 0 44).
Definition png_sheet : list byte :=
  png_sig
  ++ flat_map encode_chunk
       [Chunk (bytes [73; 72; 68; 82]) (be32 98 ++ be32 44 ++ bytes [4; 3; 0; 0; 0])
          (bytes [0; 0; 0; 0]);
        Chunk (bytes [73; 68; 65; 84]) (stored_stream (encode_none sheet_98x44))
          (bytes [0; 0; 0; 0]);
        iend].

(** A sheet of 49 x 22 pixels of index 9, which has no name. *)
Definition sheet_unnamed : list (list Z) := replicate 22 (replicate 49 9).

(** * Properties *)

(** ** The loader on a whole file *)

Example load_png_4x3 :
  load_png ZlibStored.inflate png_4x3
  = Ok ([[10; 1; 11; 2]; [0; 5; 0; 10]; [0; 6; 0; 11]], 4, 3).
Proof. vm_compute. reflexivity. Qed.

Example decode_rows_4x3 :
  decode_rows (bytes [0; 161; 178; 1; 5; 5; 2; 1; 1]) 4 3
  = Ok [[10; 1; 11; 2]; [0; 5; 0; 10]; [0; 6; 0; 11]].
Proof. reflexivity. Qed.

(** ** Outcomes and loops *)

Lemma bind_Ok {A B : Type} (m : outcome A) (k : A -> outcome B) (b : B) :
  bind m k = Ok b -> exists a, m = Ok a /\ k a = Ok b.
Proof. destruct m as [a| |]; simpl; [eauto | discriminate | discriminate]. Qed.

Lemma for_each_app {A S : Type} (xs ys : list A) (body : S -> A -> outcome S) (s : S) :
  for_each (xs ++ ys) body s = (do s' <- for_each xs body s; for_each ys body s').
Proof.
  revert s. induction xs as [|x xs IH]; intros s; simpl; [reflexivity |].
  destruct (body s x); simpl; auto.
Qed.

(** ** Bytes *)

Lemma byte_val_range (b : byte) : 0 <= byte_val b < 256.
Proof.
  unfold byte_val. pose proof (Byte.to_N_bounded b). lia.
Qed.

Lemma byte_val_of_Z (z : Z) : 0 <= z < 256 -> byte_val (byte_of_Z z) = z.
Proof.
  intros Hz. unfold byte_val, byte_of_Z.
  destruct (Byte.of_N (Z.to_N z)) as [b|] eqn:E.
  - apply Byte.to_of_N in E. lia.
  - apply Byte.of_N_None_iff in E. lia.
Qed.

Lemma be_uint_from (bs : list byte) (acc : Z) :
  0 <= acc -> 0 <= fold_left (fun acc b => acc * 256 + byte_val b) bs acc.
Proof.
  revert acc. induction bs as [|b bs IH]; intros acc Hacc; simpl; [assumption |].
  apply IH. pose proof (byte_val_range b). lia.
Qed.

Lemma be_uint_nonneg (bs : list byte) : 0 <= be_uint bs.
Proof. apply be_uint_from. lia. Qed.

Lemma unpack_I_nonneg (bs : list byte) (l : Z) : unpack_I bs = Ok l -> 0 <= l.
Proof.
  unfold unpack_I. destruct (Nat.eqb _ _); [|discriminate].
  intros [= <-]. apply be_uint_nonneg.
Qed.

(** ** The chunk loop ends *)

Lemma chunk_body_advances (data : list byte) (i : Z)
    (chunks : gmap string (list (list byte))) :
  match chunk_body data i chunks with
  | Ok (i', _) => i + 12 <= i'
  | _ => True
  end.
Proof.
  unfold chunk_body.
  destruct (unpack_I _) as [l| |] eqn:El; simpl; trivial.
  destruct (decode_ascii _) as [ct| |]; simpl; trivial.
  apply unpack_I_nonneg in El. lia.
Qed.

Lemma chunk_body_fuel (data : list byte) (i : Z)
    (chunks : gmap string (list (list byte))) :
  chunk_body data i chunks <> OutOfFuel.
Proof.
  unfold chunk_body, unpack_I, decode_ascii.
  destruct (Nat.eqb _ _); simpl; [|discriminate].
  destruct (forallb _ _); simpl; discriminate.
Qed.

Lemma passes_left_step (data : list byte) (i i' : Z) :
  i < len data -> i + 12 <= i' ->
  (S (passes_left data i') <= passes_left data i)%nat.
Proof.
  intros Hi Hi'. unfold passes_left.
  assert (H1 : (len data - i' + 11) / 12 <= (len data - i + 11) / 12 - 1).
  { replace ((len data - i + 11) / 12 - 1) with ((len data - i + 11 - 12) / 12).
    - apply Z.div_le_mono; lia.
    - replace (len data - i + 11 - 12) with (len data - i + 11 + (-1) * 12) by lia.
      rewrite Z.div_add by lia. lia. }
  assert (H2 : 1 <= (len data - i + 11) / 12).
  { apply Z.div_le_lower_bound; lia. }
  lia.
Qed.

Lemma chunk_loop_enough_fuel (fuel : nat) (data : list byte) (i : Z)
    (chunks : gmap string (list (list byte))) :
  (passes_left data i <= fuel)%nat ->
  chunk_loop fuel data i chunks <> OutOfFuel.
Proof.
  revert i chunks. induction fuel as [|fuel IH]; intros i chunks Hfuel; simpl.
  - destruct (i <? len data) eqn:Ei; [|discriminate].
    apply Z.ltb_lt in Ei. exfalso.
    pose proof (passes_left_step data i (i + 12) Ei ltac:(lia)). lia.
  - destruct (i <? len data) eqn:Ei; [|discriminate].
    apply Z.ltb_lt in Ei.
    pose proof (chunk_body_advances data i chunks) as Hadv.
    pose proof (chunk_body_fuel data i chunks) as Hbody.
    destruct (chunk_body data i chunks) as [[i' chunks']| |]; simpl;
      [|discriminate|congruence].
    apply IH. pose proof (passes_left_step data i i' Ei Hadv). lia.
Qed.

Lemma chunk_loop_more_fuel (fuel k : nat) (data : list byte) (i : Z)
    (chunks : gmap string (list (list byte))) :
  chunk_loop fuel data i chunks <> OutOfFuel ->
  chunk_loop (fuel + k) data i chunks = chunk_loop fuel data i chunks.
Proof.
  revert i chunks. induction fuel as [|fuel IH]; intros i chunks Hne; simpl in *.
  - destruct (i <? len data) eqn:E; [congruence|].
    destruct k; simpl; rewrite E; reflexivity.
  - destruct (i <? len data); [|reflexivity].
    destruct (chunk_body data i chunks) as [[i' chunks']| |]; simpl in *; auto.
Qed.

Lemma passes_left_le_length (data : list byte) (i : Z) :
  8 <= i -> (passes_left data i <= length data)%nat.
Proof.
  intros Hi. unfold passes_left, len.
  assert (H : (Z.of_nat (length data) - i + 11) / 12 <= Z.of_nat (length data)).
  { apply Z.lt_succ_r. apply Z.div_lt_upper_bound; lia. }
  lia.
Qed.

Lemma parse_chunks_fuel (data : list byte) : parse_chunks data <> OutOfFuel.
Proof.
  unfold parse_chunks. apply chunk_loop_enough_fuel.
  apply passes_left_le_length. lia.
Qed.

(** ** Slices and lookups *)

Lemma index_Ok {A : Type} (s : list A) (i : Z) (a : A) :
  index s i = Ok a <-> s !! Z.to_nat i = Some a.
Proof.
  unfold index. destruct (s !! Z.to_nat i); split; intros H; congruence.
Qed.

Lemma index_Ok_lt {A : Type} (s : list A) (i : Z) (a : A) :
  0 <= i -> index s i = Ok a -> i < len s.
Proof.
  intros Hi H. apply index_Ok in H. apply lookup_lt_Some in H.
  unfold len. lia.
Qed.

Lemma slice_length {A : Type} (s : list A) (i j : Z) :
  0 <= i -> i <= j -> j <= len s -> length (slice s i j) = Z.to_nat (j - i).
Proof.
  intros Hi Hij Hj. unfold slice, len in *.
  rewrite length_take, length_drop. lia.
Qed.

Lemma slice_length_le {A : Type} (s : list A) (i j : Z) :
  (length (slice s i j) <= Z.to_nat (j - i))%nat.
Proof. unfold slice. rewrite length_take. lia. Qed.


Lemma slice_to_end {A : Type} (s : list A) (i j : Z) :
  len s <= j -> slice s i j = drop (Z.to_nat i) s.
Proof.
  intros Hj. unfold slice, len in *.
  apply take_ge. rewrite length_drop. lia.
Qed.

(** ** The row filters in closed form *)

Lemma sub_body_at (pre : list Z) (p a : Z) (rest : list Z) :
  sub_body (pre ++ p :: a :: rest) (S (length pre))
  = Ok ((pre ++ [p]) ++ (a + p) mod 256 :: rest).
Proof.
  unfold sub_body, index.
  rewrite Nat2Z.id.
  replace (Z.to_nat (Z.of_nat (S (length pre)) - 1)) with (length pre) by lia.
  replace (pre ++ p :: a :: rest) with ((pre ++ [p]) ++ a :: rest)
    by (rewrite <- app_assoc; reflexivity).
  assert (Hlen : length (pre ++ [p]) = S (length pre))
    by (rewrite length_app; simpl; lia).
  rewrite <- Hlen at 1. rewrite list_lookup_middle by reflexivity. simpl.
  rewrite lookup_app_l by lia.
  rewrite lookup_app_r by lia. rewrite Nat.sub_diag. simpl.
  rewrite <- Hlen. rewrite insert_app_r_alt by lia.
  rewrite Nat.sub_diag. reflexivity.
Qed.

Lemma sub_loop_from (rest pre : list Z) (p : Z) :
  for_each (seq (S (length pre)) (length rest)) sub_body (pre ++ p :: rest)
  = Ok (pre ++ p :: sub_from p rest).
Proof.
  revert pre p. induction rest as [|a rest IH]; intros pre p; simpl.
  - reflexivity.
  - rewrite sub_body_at. simpl.
    specialize (IH (pre ++ [p]) ((a + p) mod 256)).
    rewrite length_app in IH. simpl in IH.
    rewrite Nat.add_1_r in IH. rewrite IH.
    rewrite <- app_assoc. reflexivity.
Qed.

Lemma defilter_sub (rb : Z) (prev row : list Z) :
  Forall (fun v => 0 <= v < 256) row ->
  length row = Z.to_nat rb ->
  defilter 1 rb prev row = Ok (sub_from 0 row).
Proof.
  intros Hrow Hlen. unfold defilter, range. simpl.
  destruct row as [|p rest].
  - simpl in Hlen. replace (Z.to_nat (rb - 1)) with 0%nat by lia. reflexivity.
  - simpl in Hlen. replace (Z.to_nat (rb - 1)) with (length rest) by lia.
    change (Z.to_nat 1) with (S (length (@nil Z))).
    change (p :: rest) with ([] ++ p :: rest) at 1.
    rewrite sub_loop_from. simpl.
    apply Forall_cons in Hrow as [Hp _].
    rewrite Z.add_0_r, Z.mod_small by assumption. reflexivity.
Qed.



Lemma up_body_at (prev pre : list Z) (a b : Z) (rest : list Z) :
  prev !! length pre = Some b ->
  up_body prev (pre ++ a :: rest) (length pre)
  = Ok ((pre ++ [(a + b) mod 256]) ++ rest).
Proof.
  intros Hb. unfold up_body, index. rewrite Nat2Z.id.
  rewrite list_lookup_middle by reflexivity. simpl.
  rewrite Hb. simpl.
  rewrite insert_app_r_alt by lia. rewrite Nat.sub_diag. simpl.
  rewrite <- app_assoc. reflexivity.
Qed.

Lemma up_loop_from (prev rest pre : list Z) :
  (length pre + length rest <= length prev)%nat ->
  for_each (seq (length pre) (length rest)) (up_body prev) (pre ++ rest)
  = Ok (pre ++ up_with (drop (length pre) prev) rest).
Proof.
  revert pre. induction rest as [|a rest IH]; intros pre Hlen; simpl in *.
  - unfold up_with. simpl. reflexivity.
  - destruct (lookup_lt_is_Some_2 prev (length pre)) as [b Hb]; [lia|].
    rewrite (up_body_at _ _ _ _ _ Hb). simpl.
    specialize (IH (pre ++ [(a + b) mod 256])).
    rewrite length_app in IH. simpl in IH. rewrite Nat.add_1_r in IH.
    rewrite IH by lia.
    rewrite (drop_S _ _ _ Hb). unfold up_with. simpl.
    rewrite <- app_assoc. reflexivity.
Qed.

Lemma defilter_up (rb : Z) (prev row : list Z) :
  length row = Z.to_nat rb ->
  length prev = Z.to_nat rb ->
  defilter 2 rb prev row = Ok (up_with prev row).
Proof.
  intros Hrow Hprev. unfold defilter, range. simpl.
  rewrite Z.sub_0_r, <- Hrow.
  change (for_each (seq (length (@nil Z)) (length row)) (up_body prev) ([] ++ row)
          = Ok ([] ++ up_with (drop (length (@nil Z)) prev) row)).
  apply up_loop_from. simpl. lia.
Qed.



(** ** One row *)

Lemma bind_ret {A : Type} (m : outcome A) : (do a <- m; Ok a) = m.
Proof. destruct m; reflexivity. Qed.

Lemma for_each_inv {A S : Type} (P : S -> Prop) (xs : list A)
    (body : S -> A -> outcome S) (s s' : S) :
  (forall s x s', P s -> body s x = Ok s' -> P s') ->
  P s -> for_each xs body s = Ok s' -> P s'.
Proof.
  intros Hstep. revert s. induction xs as [|x xs IH]; intros s Hs H; simpl in H.
  - congruence.
  - apply bind_Ok in H as (s1 & H1 & H2). eauto.
Qed.

Lemma for_each_fuel {A S : Type} (xs : list A) (body : S -> A -> outcome S) (s : S) :
  (forall s x, body s x <> OutOfFuel) -> for_each xs body s <> OutOfFuel.
Proof.
  intros Hbody. revert s. induction xs as [|x xs IH]; intros s; simpl; [discriminate|].
  specialize (Hbody s x). destruct (body s x); simpl; [apply IH|discriminate|congruence].
Qed.

Lemma index_fuel {A : Type} (s : list A) (i : Z) : index s i <> OutOfFuel.
Proof. unfold index. destruct (s !! Z.to_nat i); discriminate. Qed.

Lemma sub_body_length (row : list Z) (x : nat) (row' : list Z) :
  sub_body row x = Ok row' -> length row' = length row.
Proof.
  unfold sub_body. intros H.
  apply bind_Ok in H as (a & _ & H). apply bind_Ok in H as (b & _ & H).
  injection H as <-. apply length_insert.
Qed.

Lemma up_body_length (prev row : list Z) (x : nat) (row' : list Z) :
  up_body prev row x = Ok row' -> length row' = length row.
Proof.
  unfold up_body. intros H.
  apply bind_Ok in H as (a & _ & H). apply bind_Ok in H as (b & _ & H).
  injection H as <-. apply length_insert.
Qed.

Lemma defilter_length (ft rb : Z) (prev row row' : list Z) :
  defilter ft rb prev row = Ok row' -> length row' = length row.
Proof.
  unfold defilter. destruct (ft =? 1); [|destruct (ft =? 2)]; intros H.
  - revert H. apply (for_each_inv (fun r => length r = length row)); [|reflexivity].
    intros s x s' Hs Hb. apply sub_body_length in Hb. congruence.
  - revert H. apply (for_each_inv (fun r => length r = length row)); [|reflexivity].
    intros s x s' Hs Hb. apply up_body_length in Hb. congruence.
  - congruence.
Qed.

Lemma defilter_fuel (ft rb : Z) (prev row : list Z) :
  defilter ft rb prev row <> OutOfFuel.
Proof.
  unfold defilter. destruct (ft =? 1); [|destruct (ft =? 2)]; [| |discriminate].
  - apply for_each_fuel. intros s x. unfold sub_body, index.
    destruct (s !! _); simpl; [|discriminate]. destruct (s !! _); simpl; discriminate.
  - apply for_each_fuel. intros s x. unfold up_body, index.
    destruct (s !! _); simpl; [|discriminate]. destruct (prev !! _); simpl; discriminate.
Qed.

(** A tag other than 1 and 2 leaves the row as it is. *)
Lemma defilter_other (ft rb : Z) (prev row : list Z) :
  ft <> 1 -> ft <> 2 -> defilter ft rb prev row = Ok row.
Proof.
  intros H1 H2. unfold defilter.
  destruct (Z.eqb_spec ft 1); [contradiction|].
  destruct (Z.eqb_spec ft 2); [contradiction|]. reflexivity.
Qed.

Lemma unpack_row_length (row : list Z) :
  length (unpack_row row) = (2 * length row)%nat.
Proof.
  unfold unpack_row. induction row as [|b row IH]; simpl; [reflexivity|].
  rewrite IH. lia.
Qed.

Lemma land_15_nibble (v : Z) : nibble (Z.land v 15).
Proof.
  unfold nibble. change 15 with (Z.ones 4).
  rewrite Z.land_ones by lia. apply Z.mod_pos_bound. lia.
Qed.

Lemma unpack_row_nibble (row : list Z) : Forall nibble (unpack_row row).
Proof.
  unfold unpack_row. induction row as [|b row IH]; simpl.
  - constructor.
  - constructor; [apply land_15_nibble|].
    constructor; [apply land_15_nibble|]. exact IH.
Qed.

Lemma row_bytes_nonneg (W : Z) : 0 <= W -> 0 <= row_bytes W.
Proof. intros HW. unfold row_bytes. apply Z.div_pos; lia. Qed.

Lemma row_bytes_covers (W : Z) : W <= 2 * row_bytes W <= W + 1.
Proof.
  unfold row_bytes.
  pose proof (Z.div_mod (W * 4 + 7) 8 ltac:(lia)).
  pose proof (Z.mod_pos_bound (W * 4 + 7) 8 ltac:(lia)). lia.
Qed.

Lemma raw_row_bytes (raw : list byte) (i j : Z) :
  Forall (fun v => 0 <= v < 256) (map byte_val (slice raw i j)).
Proof.
  induction (slice raw i j) as [|b bs IH]; simpl; constructor;
    [apply byte_val_range | exact IH].
Qed.

Lemma scanline_Ok (raw : list byte) (W rb : Z) (st : row_state) (y : nat)
    (st' : row_state) :
  scanline raw W rb st y = Ok st' ->
  exists ft row',
    index raw (idx st) = Ok ft
    /\ defilter (byte_val ft) rb (prev st)
         (map byte_val (slice raw (idx st + 1) (idx st + 1 + rb))) = Ok row'
    /\ st' = {| pixels := pixels st ++ [take (Z.to_nat W) (unpack_row row')];
                prev := row'; idx := idx st + 1 + rb |}.
Proof.
  unfold scanline. intros H.
  apply bind_Ok in H as (ft & Hft & H). apply bind_Ok in H as (row' & Hrow & H).
  exists ft, row'. split; [assumption|]. split; [assumption|]. congruence.
Qed.

Lemma scanline_fuel (raw : list byte) (W rb : Z) (st : row_state) (y : nat) :
  scanline raw W rb st y <> OutOfFuel.
Proof.
  unfold scanline. pose proof (index_fuel raw (idx st)) as Hi.
  destruct (index raw (idx st)) as [ft| |]; simpl; [|discriminate|congruence].
  match goal with |- context [defilter ?a ?b ?c ?d] =>
    pose proof (defilter_fuel a b c d) as Hd; destruct (defilter a b c d) end;
    simpl; [discriminate|discriminate|congruence].
Qed.

(** A row that lies inside the raw stream is always reconstructed. *)
Lemma defilter_full (raw : list byte) (ft rb i : Z) (prev : list Z) :
  0 <= i -> 0 <= rb -> i + rb <= len raw ->
  length prev = Z.to_nat rb ->
  exists row', defilter ft rb prev (map byte_val (slice raw i (i + rb))) = Ok row'.
Proof.
  intros Hi Hrb Hlen Hprev.
  assert (Hrow : length (map byte_val (slice raw i (i + rb))) = Z.to_nat rb).
  { rewrite length_map, slice_length by lia. f_equal. lia. }
  destruct (Z.eq_dec ft 1) as [->|H1]; [|destruct (Z.eq_dec ft 2) as [->|H2]].
  - eexists. apply defilter_sub; [apply raw_row_bytes|assumption].
  - eexists. apply defilter_up; assumption.
  - eexists. apply defilter_other; assumption.
Qed.

Lemma scanline_full (raw : list byte) (W rb : Z) (st : row_state) (y : nat) :
  0 <= idx st -> 0 <= rb -> idx st + 1 + rb <= len raw ->
  length (prev st) = Z.to_nat rb ->
  exists st', scanline raw W rb st y = Ok st'.
Proof.
  intros Hi Hrb Hlen Hprev. unfold scanline.
  destruct (lookup_lt_is_Some_2 raw (Z.to_nat (idx st))) as [ft Hft].
  { unfold len in Hlen. lia. }
  apply index_Ok in Hft. rewrite Hft. simpl.
  destruct (defilter_full raw (byte_val ft) rb (idx st + 1) (prev st))
    as [row' Hrow']; try lia.
  rewrite Hrow'. simpl. eauto.
Qed.

(** ** The rows loop *)

Lemma rows_after_S (y : nat) (raw : list byte) (W : Z) :
  rows_after (S y) raw W
  = (do st <- rows_after y raw W; scanline raw W (row_bytes W) st y).
Proof.
  unfold rows_after. rewrite seq_S, for_each_app. simpl.
  destruct (for_each (seq 0 y) _ _); simpl; [apply bind_ret|reflexivity|reflexivity].
Qed.

Lemma decode_rows_rows_after (raw : list byte) (W H : Z) :
  decode_rows raw W H = (do st <- rows_after (Z.to_nat H) raw W; Ok (pixels st)).
Proof. unfold decode_rows, rows_after, range. rewrite Z.sub_0_r. reflexivity. Qed.

Lemma rows_inv_init (raw : list byte) (W : Z) :
  0 <= W -> rows_inv raw W 0 (rows_init (row_bytes W)).
Proof.
  intros HW. unfold rows_inv, rows_init. simpl.
  repeat split; try constructor.
  - intros k r Hk. destruct k; discriminate.
  - apply length_replicate.
Qed.

Lemma rows_inv_step (raw : list byte) (W : Z) (y : nat) (st st' : row_state) :
  0 <= W ->
  rows_inv raw W y st ->
  scanline raw W (row_bytes W) st y = Ok st' ->
  rows_inv raw W (S y) st'.
Proof.
  intros HW (Hidx & Hpx & Hall & Hbut & Hfull) Hs.
  pose proof (row_bytes_nonneg W HW) as Hrb.
  pose proof (row_bytes_covers W) as Hcov.
  apply scanline_Ok in Hs as (ft & row' & Hft & Hrow' & ->).
  assert (Hidx0 : 0 <= idx st) by (rewrite Hidx; nia).
  pose proof (index_Ok_lt _ _ _ Hidx0 Hft) as Hlt.
  destruct (Hfull ltac:(lia)) as [Hprev Hfullrows].
  apply defilter_length in Hrow'. rewrite length_map in Hrow'.
  unfold rows_inv. simpl. repeat split.
  - rewrite Hidx. lia.
  - rewrite length_app. simpl. lia.
  - apply Forall_app. split; [assumption|].
    constructor; [|constructor]. split.
    + rewrite length_take. lia.
    + apply Forall_take. apply unpack_row_nibble.
  - intros k r Hk Hky.
    rewrite lookup_app_l in Hk by lia.
    rewrite Forall_forall in Hfullrows. apply Hfullrows.
    eapply list_elem_of_lookup_2. eassumption.
  - rewrite Hrow'. rewrite slice_length by lia. f_equal. lia.
  - apply Forall_app. split; [assumption|].
    constructor; [|constructor].
    rewrite length_take, unpack_row_length, Hrow'.
    rewrite slice_length by lia. lia.
Qed.

Lemma rows_after_inv (y : nat) (raw : list byte) (W : Z) (st : row_state) :
  0 <= W -> rows_after y raw W = Ok st -> rows_inv raw W y st.
Proof.
  intros HW. revert st. induction y as [|y IH]; intros st H.
  - injection H as <-. apply rows_inv_init. assumption.
  - rewrite rows_after_S in H. apply bind_Ok in H as (st0 & H0 & Hs).
    eapply rows_inv_step; eauto.
Qed.

Lemma rows_after_full (y : nat) (raw : list byte) (W : Z) :
  0 <= W -> Z.of_nat y * (1 + row_bytes W) <= len raw ->
  exists st, rows_after y raw W = Ok st.
Proof.
  intros HW. pose proof (row_bytes_nonneg W HW) as Hrb.
  induction y as [|y IH]; intros Hlen.
  - eexists. reflexivity.
  - destruct IH as [st Hst]; [nia|].
    pose proof (rows_after_inv _ _ _ _ HW Hst) as (Hidx & _ & _ & _ & Hfull).
    destruct (Hfull ltac:(nia)) as [Hprev _].
    destruct (scanline_full raw W (row_bytes W) st y) as [st' Hst'];
      try assumption; try nia.
    exists st'. rewrite rows_after_S, Hst. exact Hst'.
Qed.

(** ** Which exceptions can come out *)

Lemma bind_Raise {A B : Type} (m : outcome A) (k : A -> outcome B) (e : exn) :
  bind m k = Raise e -> m = Raise e \/ exists a, m = Ok a /\ k a = Raise e.
Proof.
  destruct m as [a| |]; simpl; intros H; [right; eauto | left; congruence | discriminate].
Qed.

Lemma for_each_raises {A S : Type} (xs : list A) (body : S -> A -> outcome S)
    (s : S) (e : exn) :
  (forall s x e, body s x = Raise e -> python_exn e = true) ->
  for_each xs body s = Raise e -> python_exn e = true.
Proof.
  intros Hbody. revert s. induction xs as [|x xs IH]; intros s H; simpl in H.
  - discriminate.
  - apply bind_Raise in H as [H|(s1 & _ & H)]; eauto.
Qed.

Lemma index_raises {A : Type} (s : list A) (i : Z) (e : exn) :
  index s i = Raise e -> e = IndexError.
Proof. unfold index. destruct (s !! Z.to_nat i); congruence. Qed.

Lemma chunk_body_raises (data : list byte) (i : Z)
    (chunks : gmap string (list (list byte))) (e : exn) :
  chunk_body data i chunks = Raise e -> python_exn e = true.
Proof.
  unfold chunk_body, unpack_I, decode_ascii.
  destruct (Nat.eqb _ _); simpl; [|intros [= <-]; reflexivity].
  destruct (forallb _ _); simpl; [discriminate|intros [= <-]; reflexivity].
Qed.

Lemma chunk_loop_raises (fuel : nat) (data : list byte) (i : Z)
    (chunks : gmap string (list (list byte))) (e : exn) :
  chunk_loop fuel data i chunks = Raise e -> python_exn e = true.
Proof.
  revert i chunks. induction fuel as [|fuel IH]; intros i chunks; simpl;
    destruct (i <? len data); try discriminate.
  intros H. apply bind_Raise in H as [H|([i' chunks'] & _ & H)].
  - eapply chunk_body_raises; eassumption.
  - eapply IH; eassumption.
Qed.

Lemma defilter_raises (ft rb : Z) (prev row : list Z) (e : exn) :
  defilter ft rb prev row = Raise e -> python_exn e = true.
Proof.
  unfold defilter. destruct (ft =? 1); [|destruct (ft =? 2)]; [| |discriminate].
  - apply for_each_raises. intros s x e0 H. unfold sub_body in H.
    apply bind_Raise in H as [H|(a & _ & H)];
      [apply index_raises in H; subst; reflexivity|].
    apply bind_Raise in H as [H|(b & _ & H)];
      [apply index_raises in H; subst; reflexivity|discriminate].
  - apply for_each_raises. intros s x e0 H. unfold up_body in H.
    apply bind_Raise in H as [H|(a & _ & H)];
      [apply index_raises in H; subst; reflexivity|].
    apply bind_Raise in H as [H|(b & _ & H)];
      [apply index_raises in H; subst; reflexivity|discriminate].
Qed.

Lemma scanline_raises (raw : list byte) (W rb : Z) (st : row_state) (y : nat)
    (e : exn) :
  scanline raw W rb st y = Raise e -> python_exn e = true.
Proof.
  unfold scanline. intros H.
  apply bind_Raise in H as [H|(ft & _ & H)];
    [apply index_raises in H; subst; reflexivity|].
  apply bind_Raise in H as [H|(row' & _ & H)];
    [eapply defilter_raises; eassumption|discriminate].
Qed.

Lemma decode_rows_raises (raw : list byte) (W H : Z) (e : exn) :
  decode_rows raw W H = Raise e -> python_exn e = true.
Proof.
  unfold decode_rows. intros He.
  apply bind_Raise in He as [He|(st & _ & He)]; [|discriminate].
  revert He. apply for_each_raises. intros s x e0. apply scanline_raises.
Qed.

Lemma header_and_raw_raises (decompress : list byte -> option (list byte))
    (chunks : gmap string (list (list byte))) (e : exn) :
  header_and_raw decompress chunks = Raise e -> python_exn e = true.
Proof.
  unfold header_and_raw, dict_get, unpack_II, zlib_decompress.
  destruct (chunks !! "IHDR"); simpl; [|intros [= <-]; reflexivity].
  destruct (index l 0) eqn:Ei; simpl;
    [|intros [= <-]; apply index_raises in Ei; subst; reflexivity|discriminate].
  destruct (Nat.eqb _ _); simpl; [|intros [= <-]; reflexivity].
  destruct (chunks !! "IDAT"); simpl; [|intros [= <-]; reflexivity].
  destruct (decompress _); simpl; [discriminate|intros [= <-]; reflexivity].
Qed.

(** Whatever [load_png] raises is a Python exception: none of the error
    kinds of the specification. *)
Lemma load_png_raises (decompress : list byte -> option (list byte))
    (data : list byte) (e : exn) :
  load_png decompress data = Raise e -> python_exn e = true.
Proof.
  unfold load_png, read_stream, parse_chunks. intros H.
  apply bind_Raise in H as [H|([[raw W] Hh] & _ & H)].
  - apply bind_Raise in H as [H|(chunks & _ & H)].
    + eapply chunk_loop_raises; eassumption.
    + eapply header_and_raw_raises; eassumption.
  - apply bind_Raise in H as [H|(px & _ & H)]; [|discriminate].
    eapply decode_rows_raises; eassumption.
Qed.

Lemma load_png_fuel (decompress : list byte -> option (list byte))
    (data : list byte) :
  load_png decompress data <> OutOfFuel.
Proof.
  unfold load_png, read_stream.
  pose proof (parse_chunks_fuel data) as Hp.
  destruct (parse_chunks data) as [chunks| |]; simpl; [|discriminate|congruence].
  unfold header_and_raw, dict_get, unpack_II, zlib_decompress.
  destruct (chunks !! "IHDR"); simpl; [|discriminate].
  pose proof (index_fuel l 0) as Hi.
  destruct (index l 0); simpl; [|discriminate|congruence].
  destruct (Nat.eqb _ _); simpl; [|discriminate].
  destruct (chunks !! "IDAT"); simpl; [|discriminate].
  destruct (decompress _); simpl; [|discriminate].
  unfold decode_rows.
  match goal with |- context [for_each ?xs ?b ?s] =>
    pose proof (for_each_fuel xs b s (scanline_fuel _ _ _)) as Hf;
    destruct (for_each xs b s) end; simpl; [discriminate|discriminate|congruence].
Qed.

Lemma read_stream_nonneg (decompress : list byte -> option (list byte))
    (data raw : list byte) (W H : Z) :
  read_stream decompress data = Ok (raw, W, H) -> 0 <= W /\ 0 <= H.
Proof.
  unfold read_stream, header_and_raw. intros Hr.
  apply bind_Ok in Hr as (chunks & _ & Hr).
  apply bind_Ok in Hr as (ihdr & _ & Hr).
  apply bind_Ok in Hr as (ihdr0 & _ & Hr).
  apply bind_Ok in Hr as ([W0 H0] & Hu & Hr).
  apply bind_Ok in Hr as (idat & _ & Hr).
  apply bind_Ok in Hr as (raw0 & _ & Hr).
  injection Hr as <- <- <-.
  unfold unpack_II in Hu. destruct (Nat.eqb _ _); [|discriminate].
  injection Hu as <- <-. split; apply be_uint_nonneg.
Qed.


Lemma load_png_Ok (decompress : list byte -> option (list byte))
    (data : list byte) (px : list (list Z)) (W H : Z) :
  load_png decompress data = Ok (px, W, H) ->
  exists raw, read_stream decompress data = Ok (raw, W, H)
              /\ decode_rows raw W H = Ok px.
Proof.
  unfold load_png. intros Hl.
  apply bind_Ok in Hl as ([[raw W0] H0] & Hr & Hl).
  apply bind_Ok in Hl as (px0 & Hd & Hl).
  injection Hl as <- <- <-. eauto.
Qed.

Lemma decode_rows_Ok (raw : list byte) (W H : Z) (px : list (list Z)) :
  decode_rows raw W H = Ok px ->
  exists st, rows_after (Z.to_nat H) raw W = Ok st /\ px = pixels st.
Proof.
  rewrite decode_rows_rows_after. intros Hd.
  apply bind_Ok in Hd as (st & Hst & Hd). injection Hd as <-. eauto.
Qed.

(** ** The dict and the file tail *)

(** Lines 44-45 amount to one insertion. *)
Lemma dict_append (chunks : gmap string (list (list byte))) (ct : string)
    (payload : list byte) :
  alter (fun ps => ps ++ [payload]) ct
    (match chunks !! ct with
     | None => <[ct := []]> chunks
     | Some _ => chunks
     end)
  = <[ct := default [] (chunks !! ct) ++ [payload]]> chunks.
Proof.
  apply map_eq. intros k. destruct (decide (k = ct)) as [->|Hne].
  - rewrite lookup_alter_eq, lookup_insert_eq.
    destruct (chunks !! ct) as [ps|] eqn:E; simpl.
    + rewrite E. reflexivity.
    + rewrite lookup_insert_eq. reflexivity.
  - rewrite lookup_alter_ne, lookup_insert_ne by congruence.
    destruct (chunks !! ct); [reflexivity|].
    rewrite lookup_insert_ne by congruence. reflexivity.
Qed.

Lemma chunk_loop_done (fuel : nat) (data : list byte) (i : Z)
    (chunks : gmap string (list (list byte))) :
  len data <= i -> chunk_loop fuel data i chunks = Ok chunks.
Proof.
  intros Hi. destruct fuel; simpl;
    (destruct (Z.ltb_spec i (len data)); [lia|reflexivity]).
Qed.

Lemma chunk_loop_at_passes (fuel : nat) (data : list byte) (i : Z)
    (chunks : gmap string (list (list byte))) :
  (passes_left data i <= fuel)%nat ->
  chunk_loop fuel data i chunks = chunk_loop (passes_left data i) data i chunks.
Proof.
  intros Hfuel.
  replace fuel with (passes_left data i + (fuel - passes_left data i))%nat by lia.
  apply chunk_loop_more_fuel. apply chunk_loop_enough_fuel. lia.
Qed.

Lemma slice_tail_eq {A : Type} (s1 s2 : list A) (i j : Z) :
  8 <= i -> drop 8 s1 = drop 8 s2 -> slice s1 i j = slice s2 i j.
Proof.
  intros Hi Htail. unfold slice. f_equal.
  replace (Z.to_nat i) with (8 + (Z.to_nat i - 8))%nat by lia.
  rewrite <- !drop_drop. rewrite Htail. reflexivity.
Qed.

Lemma len_tail_eq {A : Type} (s1 s2 : list A) :
  drop 8 s1 = drop 8 s2 -> Z.max 8 (len s1) = Z.max 8 (len s2).
Proof.
  intros Htail. apply (f_equal length) in Htail.
  rewrite !length_drop in Htail. unfold len. lia.
Qed.

Lemma chunk_body_tail (data1 data2 : list byte) (i : Z)
    (chunks : gmap string (list (list byte))) :
  8 <= i -> drop 8 data1 = drop 8 data2 ->
  chunk_body data1 i chunks = chunk_body data2 i chunks.
Proof.
  intros Hi Htail. unfold chunk_body.
  rewrite (slice_tail_eq data1 data2 i) by assumption.
  destruct (unpack_I _) as [l| |]; simpl; try reflexivity.
  rewrite (slice_tail_eq data1 data2 (i + 4)) by (assumption || lia).
  destruct (decode_ascii _) as [ct| |]; simpl; try reflexivity.
  rewrite (slice_tail_eq data1 data2 (i + 8)) by (assumption || lia).
  reflexivity.
Qed.

Lemma chunk_loop_tail (fuel : nat) (data1 data2 : list byte) (i : Z)
    (chunks : gmap string (list (list byte))) :
  8 <= i -> drop 8 data1 = drop 8 data2 ->
  chunk_loop fuel data1 i chunks = chunk_loop fuel data2 i chunks.
Proof.
  intros Hi Htail. pose proof (len_tail_eq _ _ Htail) as Hlen.
  revert i chunks Hi. induction fuel as [|fuel IH]; intros i chunks Hi; simpl.
  - destruct (Z.ltb_spec i (len data1)), (Z.ltb_spec i (len data2));
      try reflexivity; lia.
  - destruct (Z.ltb_spec i (len data1)), (Z.ltb_spec i (len data2));
      try reflexivity; try lia.
    rewrite (chunk_body_tail data1 data2) by assumption.
    pose proof (chunk_body_advances data2 i chunks) as Hadv.
    destruct (chunk_body data2 i chunks) as [[i' chunks']| |]; simpl;
      try reflexivity.
    apply IH. lia.
Qed.

Lemma parse_chunks_tail (data1 data2 : list byte) :
  drop 8 data1 = drop 8 data2 -> parse_chunks data1 = parse_chunks data2.
Proof.
  intros Htail. unfold parse_chunks.
  rewrite (chunk_loop_at_passes (length data1))
    by (apply passes_left_le_length; lia).
  rewrite (chunk_loop_at_passes (length data2))
    by (apply passes_left_le_length; lia).
  assert (Hp : passes_left data1 8 = passes_left data2 8).
  { pose proof (len_tail_eq _ _ Htail) as Hlen. unfold passes_left.
    destruct (Z.le_gt_cases (len data1) 8), (Z.le_gt_cases (len data2) 8).
    - rewrite !Z.div_small; [reflexivity | unfold len in *; lia | unfold len in *; lia].
    - lia.
    - lia.
    - do 2 f_equal. lia. }
  rewrite Hp. apply chunk_loop_tail; [lia|assumption].
Qed.

(** ** Packing and unpacking 4-bit indices *)

Lemma pair_induction {A : Type} (P : list A -> Prop) :
  P [] -> (forall a, P [a]) -> (forall a b l, P l -> P (a :: b :: l)) ->
  forall l, P l.
Proof.
  intros H0 H1 H2 l.
  assert (H : P l /\ forall a, P (a :: l)).
  { induction l as [|b l [IHl IHbl]]; split; auto. }
  apply H.
Qed.

Lemma nibble_pair (a b : Z) :
  nibble a -> nibble b ->
  Z.land (Z.shiftr (a * 16 + b) 4) 15 = a /\ Z.land (a * 16 + b) 15 = b.
Proof.
  unfold nibble. intros Ha Hb.
  change 15 with (Z.ones 4). rewrite !Z.land_ones by lia.
  rewrite Z.shiftr_div_pow2 by lia. change (2 ^ 4) with 16.
  rewrite Z.div_add_l by lia. rewrite (Z.div_small b) by lia.
  rewrite Z.add_0_r. rewrite (Z.mod_small a) by lia.
  rewrite Z.add_comm, Z.mod_add by lia. rewrite Z.mod_small by lia.
  split; reflexivity.
Qed.

Lemma unpack_pack (px : list Z) :
  Forall nibble px -> take (length px) (unpack_row (pack_row px)) = px.
Proof.
  induction px as [|a|a b px IH] using pair_induction; intros Hpx.
  - reflexivity.
  - apply Forall_cons in Hpx as [Ha _].
    assert (H0 : nibble 0) by (unfold nibble; lia).
    destruct (nibble_pair a 0 Ha H0) as [Hhi _].
    rewrite Z.add_0_r in Hhi. simpl. rewrite Hhi. reflexivity.
  - apply Forall_cons in Hpx as [Ha Hpx]. apply Forall_cons in Hpx as [Hb Hpx].
    destruct (nibble_pair a b Ha Hb) as [Hhi Hlo].
    simpl. rewrite Hhi, Hlo. f_equal. f_equal. apply IH. assumption.
Qed.

Lemma pack_row_bytes (px : list Z) :
  Forall nibble px -> Forall (fun v => 0 <= v < 256) (pack_row px).
Proof.
  unfold nibble.
  induction px as [|a|a b px IH] using pair_induction; intros Hpx; simpl.
  - constructor.
  - apply Forall_cons in Hpx as [Ha _]. constructor; [lia|constructor].
  - apply Forall_cons in Hpx as [Ha Hpx]. apply Forall_cons in Hpx as [Hb Hpx].
    constructor; [lia|auto].
Qed.

Lemma pack_row_length (px : list Z) : len (pack_row px) = row_bytes (len px).
Proof.
  unfold len, row_bytes.
  induction px as [|a|a b px IH] using pair_induction; simpl length.
  - reflexivity.
  - reflexivity.
  - rewrite !Nat2Z.inj_succ, IH.
    replace (Z.succ (Z.succ (Z.of_nat (length px))) * 4 + 7)
      with (Z.of_nat (length px) * 4 + 7 + 1 * 8) by lia.
    rewrite Z.div_add by lia. lia.
Qed.

Lemma byte_val_of_Z_map (l : list Z) :
  Forall (fun v => 0 <= v < 256) l -> map byte_val (map byte_of_Z l) = l.
Proof.
  induction 1 as [|v l Hv _ IH]; simpl; [reflexivity|].
  rewrite byte_val_of_Z by assumption. rewrite IH. reflexivity.
Qed.

(** One pass over a packed row behind tag 0. *)
Lemma scanline_packed (pre rest : list byte) (r : list Z) (acc : list (list Z))
    (p : list Z) (y : nat) :
  Forall nibble r ->
  scanline (pre ++ x00 :: map byte_of_Z (pack_row r) ++ rest) (len r)
    (row_bytes (len r)) {| pixels := acc; prev := p; idx := len pre |} y
  = Ok {| pixels := acc ++ [r]; prev := pack_row r;
          idx := len (pre ++ x00 :: map byte_of_Z (pack_row r)) |}.
Proof.
  intros Hr. unfold scanline. simpl idx. simpl prev. simpl pixels.
  unfold index, len at 1. rewrite Nat2Z.id.
  rewrite list_lookup_middle by reflexivity. simpl.
  assert (Hslice : slice (pre ++ x00 :: map byte_of_Z (pack_row r) ++ rest)
                     (len pre + 1) (len pre + 1 + row_bytes (len r))
                   = map byte_of_Z (pack_row r)).
  { unfold slice.
    replace (pre ++ x00 :: map byte_of_Z (pack_row r) ++ rest)
      with ((pre ++ [x00]) ++ map byte_of_Z (pack_row r) ++ rest)
      by (rewrite <- app_assoc; reflexivity).
    rewrite drop_app_length'
      by (rewrite length_app; simpl; unfold len; lia).
    apply take_app_length'.
    rewrite length_map. pose proof (pack_row_length r) as Hl.
    unfold len in *. lia. }
  rewrite Hslice.
  rewrite byte_val_of_Z_map by (apply pack_row_bytes; assumption).
  unfold len at 1. rewrite Nat2Z.id. rewrite unpack_pack by assumption.
  f_equal. f_equal.
  unfold len. rewrite !length_app. simpl. rewrite length_map.
  pose proof (pack_row_length r) as Hl. unfold len in Hl. lia.
Qed.

Lemma encode_none_loop (grid : list (list Z)) (W : Z) :
  Forall (fun r => len r = W /\ Forall nibble r) grid ->
  forall (pre : list byte) (acc : list (list Z)) (p : list Z) (a : nat),
  exists p',
    for_each (seq a (length grid))
      (scanline (pre ++ encode_none grid) W (row_bytes W))
      {| pixels := acc; prev := p; idx := len pre |}
    = Ok {| pixels := acc ++ grid; prev := p';
            idx := len (pre ++ encode_none grid) |}.
Proof.
  induction 1 as [|r grid [Hlen Hr] _ IH]; intros pre acc p a; simpl.
  - exists p. rewrite !app_nil_r. reflexivity.
  - subst W. rewrite scanline_packed by assumption. simpl.
    destruct (IH (pre ++ x00 :: map byte_of_Z (pack_row r)) (acc ++ [r])
                (pack_row r) (S a)) as [p' Hp'].
    exists p'.
    replace (pre ++ x00 :: (map byte_of_Z (pack_row r) ++ encode_none grid))
      with ((pre ++ x00 :: map byte_of_Z (pack_row r)) ++ encode_none grid)
      by (rewrite <- app_assoc; reflexivity).
    rewrite Hp'. rewrite <- app_assoc. reflexivity.
Qed.

(** * The claims *)

(** ** Scanline reconstruction *)

(** C1 (as the code has it). A row whose filter tag is neither 1 nor 2, a
    tag outside 0-4 such as 5 included, is taken as it is, like a row with
    tag 0: the pass appends the unpacked pixels of the unchanged bytes and
    goes on; and no run of [load_png] ends in UnsupportedFeatureError. *)
Theorem C1_other_tags_leave_row (raw : list byte) (W rb : Z) (st : row_state)
    (y : nat) (ft : byte) :
  index raw (idx st) = Ok ft ->
  byte_val ft <> 1 -> byte_val ft <> 2 ->
  let row := map byte_val (slice raw (idx st + 1) (idx st + 1 + rb)) in
  scanline raw W rb st y
  = Ok {| pixels := pixels st ++ [take (Z.to_nat W) (unpack_row row)];
          prev := row; idx := idx st + 1 + rb |}
  /\ forall decompress data,
       load_png decompress data <> Raise UnsupportedFeatureError.
Proof.
  intros Hft H1 H2 row. split.
  - unfold scanline. rewrite Hft. simpl.
    rewrite defilter_other by assumption. reflexivity.
  - intros decompress data H. apply load_png_raises in H. discriminate.
Qed.

(** [png_tag5]: the only row has filter tag 5, and the file decodes; the
    row bytes come out as they are. *)
Lemma C1_counterexample :
  index (bytes [5; 171]) 0 = Ok (byte_of_Z 5)
  /\ decode_rows (bytes [5; 171]) 2 1 = Ok [[10; 11]]
  /\ read_stream ZlibStored.inflate png_tag5 = Ok (bytes [5; 171], 2, 1)
  /\ load_png ZlibStored.inflate png_tag5 = Ok ([[10; 11]], 2, 1)
  /\ load_png ZlibStored.inflate png_tag5 <> Raise UnsupportedFeatureError.
Proof. repeat apply conj; vm_compute; (reflexivity || discriminate). Qed.

(** The pass over that row. *)
Lemma C1_witness :
  index (bytes [5; 171]) (idx (rows_init 1)) = Ok (byte_of_Z 5)
  /\ byte_val (byte_of_Z 5) <> 1
  /\ byte_val (byte_of_Z 5) <> 2
  /\ scanline (bytes [5; 171]) 2 1 (rows_init 1) 0
     = Ok {| pixels := [[10; 11]]; prev := [171]; idx := 2 |}.
Proof.
  assert (H0 : index (bytes [5; 171]) (idx (rows_init 1)) = Ok (byte_of_Z 5))
    by reflexivity.
  assert (H1 : byte_val (byte_of_Z 5) <> 1) by (vm_compute; discriminate).
  assert (H2 : byte_val (byte_of_Z 5) <> 2) by (vm_compute; discriminate).
  refine (conj H0 (conj H1 (conj H2 _))).
  exact (proj1 (C1_other_tags_leave_row (bytes [5; 171]) 2 1 (rows_init 1) 0%nat
                  (byte_of_Z 5) H0 H1 H2)).
Defined.



(** A Sub row whose running sum passes 255: 200 + 100 = 300 = 256 + 44. *)
Example sub_wraps :
  rows_after 1 (bytes [1; 200; 100]) 4
  = Ok {| pixels := [[12; 8; 2; 12]]; prev := [200; 44]; idx := 3 |}.
Proof. reflexivity. Qed.



(** ** The pixel grid *)

(** C4 (as the code has it). [load_png] unpacks 4-bit indices whatever the
    header's bit depth.  When the raw stream holds [1 + row_bytes W] bytes
    for each of the [H] rows, the grid has [H] rows of [W] entries, each
    below 16. *)
Theorem C4_grid_shape_4bit (decompress : list byte -> option (list byte))
    (data raw : list byte) (W H : Z) :
  read_stream decompress data = Ok (raw, W, H) ->
  H * (1 + row_bytes W) <= len raw ->
  exists px,
    load_png decompress data = Ok (px, W, H)
    /\ len px = H
    /\ Forall (fun r => len r = W /\ Forall nibble r) px.
Proof.
  intros Hr Hlen.
  destruct (read_stream_nonneg _ _ _ _ _ Hr) as [HW HH].
  destruct (rows_after_full (Z.to_nat H) raw W HW) as [st Hst];
    [rewrite Z2Nat.id by assumption; assumption|].
  pose proof (rows_after_inv _ _ _ _ HW Hst) as (Hidx & Hpx & Hall & _ & Hfull).
  rewrite Z2Nat.id in Hidx by assumption.
  destruct (Hfull ltac:(lia)) as [_ Hrows].
  exists (pixels st). split; [|split].
  - unfold load_png. rewrite Hr. simpl.
    rewrite decode_rows_rows_after, Hst. reflexivity.
  - unfold len. lia.
  - rewrite Forall_forall in *. intros r Hin.
    specialize (Hall r Hin). specialize (Hrows r Hin).
    split; [unfold len; lia|tauto].
Qed.

(** [png_depth1]: the header says bit depth 1 (byte 24 of the file), the
    raw stream has the [1 + ceil(2 * 1 / 8)] bytes of its one row, and the
    grid holds the index 12. *)
Lemma C4_counterexample :
  index png_depth1 24 = Ok (byte_of_Z 1)
  /\ read_stream ZlibStored.inflate png_depth1 = Ok (bytes [0; 192], 2, 1)
  /\ len (bytes [0; 192]) = 1 * (1 + (2 * 1 + 7) / 8)
  /\ load_png ZlibStored.inflate png_depth1 = Ok ([[12; 0]], 2, 1)
  /\ ~ 12 < 2 ^ 1.
Proof. repeat apply conj; vm_compute; (reflexivity || discriminate). Qed.

(** [png_4x3], three rows of four 4-bit indices. *)
Lemma C4_witness :
  read_stream ZlibStored.inflate png_4x3
  = Ok (bytes [0; 161; 178; 1; 5; 5; 2; 1; 1], 4, 3)
  /\ 3 * (1 + row_bytes 4) <= len (bytes [0; 161; 178; 1; 5; 5; 2; 1; 1])
  /\ exists px,
       load_png ZlibStored.inflate png_4x3 = Ok (px, 4, 3)
       /\ len px = 3
       /\ Forall (fun r => len r = 4 /\ Forall nibble r) px.
Proof.
  assert (H0 : read_stream ZlibStored.inflate png_4x3
               = Ok (bytes [0; 161; 178; 1; 5; 5; 2; 1; 1], 4, 3))
    by (vm_compute; reflexivity).
  assert (H1 : 3 * (1 + row_bytes 4) <= len (bytes [0; 161; 178; 1; 5; 5; 2; 1; 1]))
    by (vm_compute; discriminate).
  refine (conj H0 (conj H1 _)).
  exact (C4_grid_shape_4bit ZlibStored.inflate png_4x3 _ 4 3 H0 H1).
Defined.

(** C5 (as the code has it). The round trip holds for grids of 4-bit
    indices: a grid whose rows have [W] entries below 16, packed two to a
    byte and with filter tag 0 in front of every row, decodes to itself;
    tag 0 leaves a row as it is. *)
Theorem C5_round_trip_tag0 (grid : list (list Z)) (W : Z) :
  Forall (fun r => len r = W /\ Forall nibble r) grid ->
  decode_rows (encode_none grid) W (len grid) = Ok grid
  /\ forall rb prev row, defilter 0 rb prev row = Ok row.
Proof.
  intros Hgrid. split; [|reflexivity].
  unfold decode_rows, range. rewrite Z.sub_0_r. unfold len. rewrite Nat2Z.id.
  destruct (encode_none_loop grid W Hgrid [] []
              (replicate (Z.to_nat (row_bytes W)) 0) 0%nat) as [p' Hp'].
  simpl in Hp'. unfold rows_init. change (Z.to_nat 0) with 0%nat.
  change (len (@nil byte)) with 0 in Hp'. rewrite Hp'. reflexivity.
Qed.

(** Every index of a decoded grid is a nibble, whatever the raw stream and
    the header say. *)
Lemma decode_rows_nibbles (raw : list byte) (W H : Z) (px : list (list Z)) :
  decode_rows raw W H = Ok px -> Forall (Forall nibble) px.
Proof.
  unfold decode_rows. intros Hd.
  apply bind_Ok in Hd as (st & Hst & Hpx). injection Hpx as <-.
  revert Hst. apply (for_each_inv (fun st => Forall (Forall nibble) (pixels st))).
  - intros s y s' Hs Hb. unfold scanline in Hb.
    apply bind_Ok in Hb as (ft & _ & Hb). apply bind_Ok in Hb as (row' & _ & Hb).
    injection Hb as <-. cbn [pixels].
    apply Forall_app. split; [exact Hs|].
    constructor; [|constructor]. apply Forall_take, unpack_row_nibble.
  - constructor.
Qed.

(** The grid [[200]] of one index of bit depth 8: behind tag 0, one byte
    to the index, it decodes to [[12]], the high nibble of 200; and no raw
    stream at all decodes to it. *)
Lemma C5_counterexample :
  decode_rows (bytes [0; 200]) 1 1 = Ok [[12]]
  /\ ~ nibble 200
  /\ (forall raw W H, decode_rows raw W H <> Ok [[200]]).
Proof.
  split; [vm_compute; reflexivity|]. split; [unfold nibble; lia|].
  intros raw W H Hd. apply decode_rows_nibbles in Hd.
  inversion Hd as [|r l Hr _]. inversion Hr as [|v l' Hv _].
  unfold nibble in Hv. lia.
Qed.

(** Two rows of three indices. *)
Lemma C5_witness :
  Forall (fun r => len r = 3 /\ Forall nibble r) [[10; 1; 11]; [0; 15; 7]]
  /\ encode_none [[10; 1; 11]; [0; 15; 7]] = bytes [0; 161; 176; 0; 15; 112]
  /\ decode_rows (bytes [0; 161; 176; 0; 15; 112]) 3 2
     = Ok [[10; 1; 11]; [0; 15; 7]].
Proof.
  assert (H0 : Forall (fun r => len r = 3 /\ Forall nibble r)
                 [[10; 1; 11]; [0; 15; 7]]).
  { repeat constructor; unfold nibble; lia. }
  refine (conj H0 (conj eq_refl _)).
  exact (proj1 (C5_round_trip_tag0 [[10; 1; 11]; [0; 15; 7]] 3 H0)).
Defined.

(** ** The container *)

(** C6 (as the code has it). When the length a chunk declares reaches past
    the end of the buffer, the pass does not fail: it files the bytes that
    are left as the chunk's payload and the loop ends there; and no run of
    [load_png] ends in TruncatedInputError. *)
Theorem C6_truncated_chunk_kept (data : list byte) (i l : Z) (ct : string)
    (chunks : gmap string (list (list byte))) (fuel : nat) :
  0 <= i < len data ->
  unpack_I (slice data i (i + 4)) = Ok l ->
  decode_ascii (slice data (i + 4) (i + 8)) = Ok ct ->
  len data < i + 8 + l ->
  chunk_loop (S fuel) data i chunks
  = Ok (<[ct := default [] (chunks !! ct) ++ [drop (Z.to_nat (i + 8)) data]]> chunks)
  /\ forall decompress,
       load_png decompress data <> Raise TruncatedInputError.
Proof.
  intros Hi Hl Hct Hpast. split.
  - simpl. destruct (Z.ltb_spec i (len data)); [|lia].
    unfold chunk_body. rewrite Hl. simpl. rewrite Hct. simpl.
    rewrite dict_append. rewrite chunk_loop_done by lia.
    rewrite slice_to_end by lia. reflexivity.
  - intros decompress H. apply load_png_raises in H. discriminate.
Qed.

(** [png_truncated]: the chunk at offset 33 declares 100 payload bytes,
    the file has 54 bytes, and it decodes. *)
Lemma C6_counterexample :
  unpack_I (slice png_truncated 33 37) = Ok 100
  /\ len png_truncated = 54
  /\ load_png ZlibStored.inflate png_truncated = Ok ([[10; 11]], 2, 1)
  /\ load_png ZlibStored.inflate png_truncated <> Raise TruncatedInputError.
Proof. repeat apply conj; vm_compute; (reflexivity || discriminate). Qed.

(** The pass over that chunk, from an empty dict. *)
Lemma C6_witness :
  0 <= 33 < len png_truncated
  /\ unpack_I (slice png_truncated 33 (33 + 4)) = Ok 100
  /\ decode_ascii (slice png_truncated (33 + 4) (33 + 8)) = Ok "IDAT"%string
  /\ len png_truncated < 33 + 8 + 100
  /\ chunk_loop 1 png_truncated 33 ∅
     = Ok {[ "IDAT"%string :=
               [bytes [120; 1; 1; 2; 0; 253; 255; 0; 171; 0; 173; 0; 172]] ]}.
Proof.
  assert (H0 : 0 <= 33 < len png_truncated) by (vm_compute; split; [discriminate | reflexivity]).
  assert (H1 : unpack_I (slice png_truncated 33 (33 + 4)) = Ok 100) by reflexivity.
  assert (H2 : decode_ascii (slice png_truncated (33 + 4) (33 + 8))
               = Ok "IDAT"%string) by reflexivity.
  assert (H3 : len png_truncated < 33 + 8 + 100) by reflexivity.
  refine (conj H0 (conj H1 (conj H2 (conj H3 _)))).
  exact (proj1 (C6_truncated_chunk_kept png_truncated 33 100 "IDAT" ∅ 0 H0 H1 H2 H3)).
Defined.

(** C7 (as the code has it). The first eight bytes of the buffer are
    skipped, not read: two buffers that agree from offset 8 on give the same
    result; and no run of [load_png] ends in FormatError. *)
Theorem C7_signature_skipped (decompress : list byte -> option (list byte))
    (data1 data2 : list byte) :
  drop 8 data1 = drop 8 data2 ->
  parse_chunks data1 = parse_chunks data2
  /\ load_png decompress data1 = load_png decompress data2
  /\ load_png decompress data1 <> Raise FormatError.
Proof.
  intros Htail. pose proof (parse_chunks_tail _ _ Htail) as Hp.
  split; [assumption|]. split.
  - unfold load_png, read_stream. rewrite Hp. reflexivity.
  - intros H. apply load_png_raises in H. discriminate.
Qed.

(** [png_bad_magic]: eight zero bytes in place of the signature; the three
    chunks are read and the file decodes. *)
Lemma C7_counterexample :
  take 8 png_bad_magic = bytes [0; 0; 0; 0; 0; 0; 0; 0]
  /\ parse_chunks png_bad_magic
     = Ok (<["IHDR"%string := [bytes [0; 0; 0; 2; 0; 0; 0; 1; 4; 3; 0; 0; 0]]]>
            (<["IDAT"%string :=
                 [bytes [120; 1; 1; 2; 0; 253; 255; 0; 171; 0; 173; 0; 172]]]>
               (<["IEND"%string := [[]]]> ∅)))
  /\ load_png ZlibStored.inflate png_bad_magic = Ok ([[10; 11]], 2, 1)
  /\ load_png ZlibStored.inflate png_bad_magic <> Raise FormatError.
Proof. repeat apply conj; vm_compute; (reflexivity || discriminate). Qed.

(** The same file with the PNG signature put back. *)
Lemma C7_witness :
  drop 8 png_bad_magic
  = drop 8 (bytes [137; 80; 78; 71; 13; 10; 26; 10] ++ drop 8 png_bad_magic)
  /\ load_png ZlibStored.inflate png_bad_magic
     = load_png ZlibStored.inflate
         (bytes [137; 80; 78; 71; 13; 10; 26; 10] ++ drop 8 png_bad_magic).
Proof.
  assert (H0 : drop 8 png_bad_magic
               = drop 8 (bytes [137; 80; 78; 71; 13; 10; 26; 10]
                         ++ drop 8 png_bad_magic)) by reflexivity.
  refine (conj H0 _).
  exact (proj1 (proj2 (C7_signature_skipped ZlibStored.inflate _ _ H0))).
Defined.

(** C8 (as the code has it). Of the header chunk only the first eight
    payload bytes, width and height, are read: replacing the bytes behind
    them (bit depth, color type, compression, filter and interlace methods)
    changes nothing; and no run of [load_png] ends in
    UnsupportedFeatureError. *)
Theorem C8_header_tail_unread (decompress : list byte -> option (list byte))
    (chunks : gmap string (list (list byte))) (hdr hdr' : list byte)
    (more : list (list byte)) :
  chunks !! "IHDR"%string = Some (hdr :: more) ->
  take 8 hdr' = take 8 hdr ->
  header_and_raw decompress (<["IHDR"%string := hdr' :: more]> chunks)
  = header_and_raw decompress chunks
  /\ forall data, load_png decompress data <> Raise UnsupportedFeatureError.
Proof.
  intros Hh Htake. split.
  - assert (Hs : forall h : list byte, slice h 0 8 = take 8 h) by reflexivity.
    unfold header_and_raw, dict_get. rewrite lookup_insert_eq, Hh.
    cbn [bind].
    change (index (hdr' :: more) 0) with (Ok hdr').
    change (index (hdr :: more) 0) with (Ok hdr).
    cbn [bind]. rewrite !Hs, Htake.
    destruct (unpack_II (take 8 hdr)) as [[W H]| |]; cbn [bind]; try reflexivity.
    rewrite lookup_insert_ne by discriminate. reflexivity.
  - intros data H. apply load_png_raises in H. discriminate.
Qed.

(** [png_rgb16_interlaced]: bit depth 16 (byte 24), color type 2 (byte 25),
    interlace method 1 (byte 28), and the file decodes as 4-bit indexed. *)
Lemma C8_counterexample :
  index png_rgb16_interlaced 24 = Ok (byte_of_Z 16)
  /\ index png_rgb16_interlaced 25 = Ok (byte_of_Z 2)
  /\ index png_rgb16_interlaced 28 = Ok (byte_of_Z 1)
  /\ load_png ZlibStored.inflate png_rgb16_interlaced = Ok ([[10; 11]], 2, 1)
  /\ load_png ZlibStored.inflate png_rgb16_interlaced
     <> Raise UnsupportedFeatureError.
Proof. repeat apply conj; vm_compute; (reflexivity || discriminate). Qed.

(** A 2x1 header of bit depth 4 against one with bit depth 16, color type 2
    and interlace method 1. *)
Lemma C8_witness :
  let idat := [bytes [120; 1; 1; 2; 0; 253; 255; 0; 171; 0; 173; 0; 172]] in
  let hdr := bytes [0; 0; 0; 2; 0; 0; 0; 1; 4; 3; 0; 0; 0] in
  let hdr' := bytes [0; 0; 0; 2; 0; 0; 0; 1; 16; 2; 0; 0; 1] in
  let chunks : gmap string (list (list byte)) :=
    <["IHDR"%string := [hdr]]> (<["IDAT"%string := idat]> ∅) in
  chunks !! "IHDR"%string = Some [hdr]
  /\ take 8 hdr' = take 8 hdr
  /\ header_and_raw ZlibStored.inflate (<["IHDR"%string := [hdr']]> chunks)
     = header_and_raw ZlibStored.inflate chunks.
Proof.
  intros idat hdr hdr' chunks.
  assert (H0 : chunks !! "IHDR"%string = Some [hdr]) by reflexivity.
  assert (H1 : take 8 hdr' = take 8 hdr) by reflexivity.
  refine (conj H0 (conj H1 _)).
  exact (proj1 (C8_header_tail_unread ZlibStored.inflate chunks hdr hdr' [] H0 H1)).
Defined.

(** ** The decode call as a whole *)

(** C9 (as the code has it). A run of [load_png] either raises, and then
    returns nothing, or returns [H] rows of at most [W] entries in which
    every row but the last has exactly [W]; the last row has [W] entries
    too when the raw stream holds [H * (1 + row_bytes W)] bytes. *)
Theorem C9_rows_complete_but_last (decompress : list byte -> option (list byte))
    (data : list byte) :
  match load_png decompress data with
  | Ok (px, W, H) =>
      len px = H
      /\ (forall k r, px !! k = Some r ->
            len r <= W /\ ((S k < length px)%nat -> len r = W))
      /\ exists raw,
           read_stream decompress data = Ok (raw, W, H)
           /\ (H * (1 + row_bytes W) <= len raw ->
               Forall (fun r => len r = W) px)
  | Raise e => python_exn e = true
  | OutOfFuel => False
  end.
Proof.
  destruct (load_png decompress data) as [[[px W] H]|e|] eqn:Hl.
  - apply load_png_Ok in Hl as (raw & Hr & Hd).
    destruct (read_stream_nonneg _ _ _ _ _ Hr) as [HW HH].
    apply decode_rows_Ok in Hd as (st & Hst & ->).
    pose proof (rows_after_inv _ _ _ _ HW Hst) as (Hidx & Hpx & Hall & Hbut & Hfull).
    rewrite Z2Nat.id in Hidx by assumption.
    split; [unfold len; lia|]. split.
    + intros k r Hk. split.
      * rewrite Forall_forall in Hall.
        destruct (Hall r) as [Hle _]; [eapply list_elem_of_lookup_2; eassumption|].
        unfold len. lia.
      * intros Hlast. rewrite Hpx in Hlast.
        pose proof (Hbut k r Hk Hlast). unfold len. lia.
    + exists raw. split; [assumption|]. intros Hlen.
      destruct (Hfull ltac:(lia)) as [_ Hrows].
      eapply Forall_impl; [exact Hrows|]. intros r Hr'. simpl in Hr'.
      unfold len. lia.
  - eapply load_png_raises; eassumption.
  - eapply load_png_fuel; eassumption.
Qed.

(** [png_short_raw]: width 4, and a raw stream one byte short of its one
    row; a row of two entries is returned. *)
Lemma C9_counterexample :
  read_stream ZlibStored.inflate png_short_raw = Ok (bytes [0; 171], 4, 1)
  /\ len (bytes [0; 171]) < 1 * (1 + row_bytes 4)
  /\ load_png ZlibStored.inflate png_short_raw = Ok ([[10; 11]], 4, 1)
  /\ len [10; 11] <> 4.
Proof. repeat apply conj; vm_compute; (reflexivity || discriminate). Qed.

(** The same file. *)
Lemma C9_witness :
  match load_png ZlibStored.inflate png_short_raw with
  | Ok (px, W, H) =>
      len px = H
      /\ (forall k r, px !! k = Some r ->
            len r <= W /\ ((S k < length px)%nat -> len r = W))
      /\ exists raw,
           read_stream ZlibStored.inflate png_short_raw = Ok (raw, W, H)
           /\ (H * (1 + row_bytes W) <= len raw ->
               Forall (fun r => len r = W) px)
  | Raise e => python_exn e = true
  | OutOfFuel => False
  end.
Proof. exact (C9_rows_complete_but_last ZlibStored.inflate png_short_raw). Defined.

(** C10. The [while] loop of lines 41-46 ends on every buffer: a pass that
    does not raise moves the offset forward by 12 plus the declared length,
    so by at least 12; [passes_left data i] passes of fuel are then enough
    from offset [i], more fuel changes nothing, and the fuel [parse_chunks]
    runs the loop on is never used up. *)
Theorem C10_chunk_loop_terminates (data : list byte) (i : Z)
    (chunks : gmap string (list (list byte))) (k : nat) :
  match chunk_body data i chunks with
  | Ok (i', _) =>
      exists l, unpack_I (slice data i (i + 4)) = Ok l /\ 0 <= l /\ i' = i + 12 + l
  | _ => True
  end
  /\ chunk_loop (passes_left data i + k) data i chunks <> OutOfFuel
  /\ chunk_loop (passes_left data i + k) data i chunks
     = chunk_loop (passes_left data i) data i chunks
  /\ parse_chunks data <> OutOfFuel.
Proof.
  split; [|split; [|split]].
  - unfold chunk_body.
    destruct (unpack_I _) as [l| |] eqn:El; simpl; trivial.
    destruct (decode_ascii _) as [ct| |]; simpl; trivial.
    exists l. split; [reflexivity|]. split; [|reflexivity].
    eapply unpack_I_nonneg; eassumption.
  - apply chunk_loop_enough_fuel. lia.
  - apply chunk_loop_more_fuel. apply chunk_loop_enough_fuel. lia.
  - apply parse_chunks_fuel.
Qed.

(** * Further properties of [load_png] *)

(** ** Reading back a written container *)

Lemma be_uint_be32 (n : Z) : 0 <= n < 4294967296 -> be_uint (be32 n) = n.
Proof.
  intros Hn. unfold be_uint, be32. simpl.
  rewrite !byte_val_of_Z by (apply Z.mod_pos_bound; lia).
  Z.div_mod_to_equations. lia.
Qed.

Lemma len_app {A : Type} (s t : list A) : len (s ++ t) = len s + len t.
Proof. unfold len. rewrite length_app. lia. Qed.

Lemma len_nonneg {A : Type} (s : list A) : 0 <= len s.
Proof. unfold len. lia. Qed.

Lemma slice_mid {A : Type} (pre a rest : list A) (i j : Z) :
  i = len pre -> j = i + len a -> slice (pre ++ a ++ rest) i j = a.
Proof.
  intros -> ->. unfold slice, len.
  rewrite drop_app_length' by lia. apply take_app_length'. lia.
Qed.

Lemma decode_ascii_type (c : chunk) :
  Forall (fun b => byte_val b < 128) (c_type c) ->
  decode_ascii (c_type c) = Ok (type_name c).
Proof.
  intros Hty. unfold decode_ascii, type_name.
  replace (forallb _ (c_type c)) with true; [reflexivity|].
  symmetry. induction Hty as [|b bs Hb _ IH]; simpl; [reflexivity|].
  rewrite IH. destruct (Z.ltb_spec (byte_val b) 128); [reflexivity|lia].
Qed.

Lemma encode_chunk_len (c : chunk) :
  chunk_ok c -> len (encode_chunk c) = 12 + len (c_payload c).
Proof.
  intros (Hty & _ & Hcrc & _). unfold encode_chunk.
  rewrite !len_app. unfold len, be32. simpl length. lia.
Qed.

(** One pass over a written chunk. *)
Lemma chunk_body_encoded (pre rest : list byte) (c : chunk)
    (m : gmap string (list (list byte))) :
  chunk_ok c ->
  chunk_body (pre ++ encode_chunk c ++ rest) (len pre) m
  = Ok (len pre + len (encode_chunk c),
        <[type_name c := default [] (m !! type_name c) ++ [c_payload c]]> m).
Proof.
  intros Hc. pose proof (encode_chunk_len c Hc) as Hlen.
  destruct Hc as (Hty & Hascii & Hcrc & Hsize).
  pose proof (len_nonneg (c_payload c)) as Hp.
  unfold chunk_body.
  assert (H1 : slice (pre ++ encode_chunk c ++ rest) (len pre) (len pre + 4)
               = be32 (len (c_payload c))).
  { unfold encode_chunk. rewrite <- !app_assoc.
    apply slice_mid; [reflexivity|]. unfold len, be32. simpl. lia. }
  assert (H2 : slice (pre ++ encode_chunk c ++ rest) (len pre + 4) (len pre + 8)
               = c_type c).
  { unfold encode_chunk. rewrite <- !app_assoc.
    rewrite (app_assoc pre). apply slice_mid.
    - rewrite len_app. unfold len, be32. simpl. lia.
    - unfold len. lia. }
  assert (H3 : slice (pre ++ encode_chunk c ++ rest) (len pre + 8)
                 (len pre + 8 + len (c_payload c)) = c_payload c).
  { unfold encode_chunk. rewrite <- !app_assoc.
    rewrite (app_assoc pre). rewrite (app_assoc (pre ++ _)). apply slice_mid.
    - rewrite !len_app. unfold len, be32. simpl. lia.
    - reflexivity. }
  rewrite H1. unfold unpack_I. change (length (be32 _)) with 4%nat. simpl Nat.eqb.
  cbn [bind]. rewrite be_uint_be32 by lia.
  rewrite H2, (decode_ascii_type c Hascii). cbn [bind].
  rewrite H3, dict_append. do 2 f_equal. lia.
Qed.

(** What the dict holds after the chunks [cs] went in. *)
Lemma collect_lookup (cs : list chunk) (m : gmap string (list (list byte)))
    (ty : string) :
  fold_left (fun m c =>
               <[type_name c := default [] (m !! type_name c) ++ [c_payload c]]> m)
    cs m !! ty
  = match payloads_of ty cs with
    | [] => m !! ty
    | ps => Some (default [] (m !! ty) ++ ps)
    end.
Proof.
  revert m. induction cs as [|c cs IH]; intros m; simpl; [reflexivity|].
  rewrite IH. destruct (decide (type_name c = ty)) as [->|Hne].
  - rewrite lookup_insert_eq. simpl.
    destruct (payloads_of ty cs); rewrite <- ?app_assoc; reflexivity.
  - rewrite lookup_insert_ne by assumption. reflexivity.
Qed.

Lemma flat_encode_length (cs : list chunk) :
  Forall chunk_ok cs -> (12 * length cs <= length (flat_map encode_chunk cs))%nat.
Proof.
  induction 1 as [|c cs Hc _ IH]; [simpl; lia|].
  change (flat_map encode_chunk (c :: cs))
    with (encode_chunk c ++ flat_map encode_chunk cs).
  rewrite length_app. pose proof (encode_chunk_len c Hc) as Hl.
  pose proof (len_nonneg (c_payload c)). unfold len in *.
  change (length (c :: cs)) with (S (length cs)). lia.
Qed.

(** The loop over written chunks, whatever follows them in the buffer. *)
Lemma chunk_loop_encoded (cs : list chunk) (pre rest : list byte)
    (m : gmap string (list (list byte))) (fuel : nat) :
  Forall chunk_ok cs ->
  chunk_loop (length cs + fuel) (pre ++ flat_map encode_chunk cs ++ rest) (len pre) m
  = chunk_loop fuel (pre ++ flat_map encode_chunk cs ++ rest)
      (len pre + len (flat_map encode_chunk cs))
      (fold_left (fun m c =>
                    <[type_name c := default [] (m !! type_name c) ++ [c_payload c]]> m)
         cs m).
Proof.
  intros Hcs. revert pre m. induction Hcs as [|c cs Hc Hcs IH]; intros pre m.
  - simpl. f_equal. unfold len. simpl. lia.
  - pose proof (encode_chunk_len c Hc) as Hl.
    pose proof (len_nonneg (c_payload c)) as Hp.
    simpl length. simpl Nat.add. cbn [chunk_loop flat_map].
    destruct (Z.ltb_spec (len pre)
                (len (pre ++ (encode_chunk c ++ flat_map encode_chunk cs) ++ rest)))
      as [_|Hge]; [|rewrite !len_app in Hge;
                    pose proof (len_nonneg (flat_map encode_chunk cs));
                    pose proof (len_nonneg rest); lia].
    rewrite <- (app_assoc (encode_chunk c)).
    rewrite chunk_body_encoded by assumption. cbn [bind].
    specialize (IH (pre ++ encode_chunk c)
                  (<[type_name c := default [] (m !! type_name c) ++ [c_payload c]]> m)).
    rewrite len_app in IH. rewrite <- app_assoc in IH. rewrite IH.
    simpl fold_left. f_equal. rewrite len_app. lia.
Qed.

Lemma parse_chunks_written (sig : list byte) (cs : list chunk) :
  length sig = 8%nat -> Forall chunk_ok cs ->
  parse_chunks (sig ++ flat_map encode_chunk cs)
  = Ok (fold_left (fun m c =>
                     <[type_name c := default [] (m !! type_name c) ++ [c_payload c]]> m)
          cs ∅).
Proof.
  intros Hsig Hcs. unfold parse_chunks.
  pose proof (flat_encode_length cs Hcs) as Hlen.
  replace (length (sig ++ flat_map encode_chunk cs))
    with (length cs + (length (sig ++ flat_map encode_chunk cs) - length cs))%nat
    by (rewrite length_app; lia).
  rewrite <- (app_nil_r (flat_map encode_chunk cs)).
  replace 8 with (len sig) by (unfold len; lia).
  rewrite chunk_loop_encoded by assumption.
  apply chunk_loop_done. rewrite !len_app. unfold len. simpl. lia.
Qed.

(** The chunks of a written container, with what lines 47-48 make of them. *)
Lemma read_stream_written (decompress : list byte -> option (list byte))
    (sig : list byte) (cs : list chunk) :
  length sig = 8%nat -> Forall chunk_ok cs ->
  read_stream decompress (sig ++ flat_map encode_chunk cs)
  = match payloads_of "IHDR" cs with
    | [] => Raise KeyError
    | h :: _ =>
        if (length h <? 8)%nat then Raise StructError
        else match payloads_of "IDAT" cs with
             | [] => Raise KeyError
             | ps =>
                 match decompress (concat ps) with
                 | None => Raise ZlibError
                 | Some raw =>
                     Ok (raw, be_uint (take 4 h), be_uint (take 4 (drop 4 h)))
                 end
             end
    end.
Proof.
  intros Hsig Hcs. unfold read_stream.
  rewrite parse_chunks_written by assumption. cbn [bind].
  unfold header_and_raw, dict_get. rewrite !collect_lookup, !lookup_empty.
  destruct (payloads_of "IHDR" cs) as [|h hs]; [reflexivity|].
  cbn [bind default app].
  change (index (h :: hs) 0) with (Ok h). cbn [bind].
  change (slice h 0 8) with (take 8 h). unfold unpack_II.
  rewrite length_take.
  destruct (Nat.ltb_spec (length h) 8) as [Hshort|Hlong].
  - destruct (Nat.eqb_spec (8 `min` length h) 8) as [Heq|_]; [lia|reflexivity].
  - destruct (Nat.eqb_spec (8 `min` length h) 8) as [_|Hne]; [|lia].
    cbn [bind]. rewrite take_take. change (4 `min` 8)%nat with 4%nat.
    replace (drop 4 (take 8 h)) with (take 4 (drop 4 h))
      by (rewrite take_drop_commute; reflexivity).
    destruct (payloads_of "IDAT" cs) as [|p ps]; [reflexivity|].
    cbn [bind default app]. unfold zlib_decompress.
    destruct (decompress (concat (p :: ps))); reflexivity.
Qed.

(** X1. A buffer made of any eight bytes followed by well-formed chunks is
    read back chunk by chunk: the dict maps each chunk type to the payloads
    of the chunks of that type, in file order; a type no chunk has is not a
    key.  The CRC bytes play no part. *)
Theorem parse_chunks_groups_payloads (sig : list byte) (cs : list chunk) :
  length sig = 8%nat -> Forall chunk_ok cs ->
  exists m,
    parse_chunks (sig ++ flat_map encode_chunk cs) = Ok m
    /\ forall ty, m !! ty = match payloads_of ty cs with
                            | [] => None
                            | ps => Some ps
                            end.
Proof.
  intros Hsig Hcs. eexists. split; [apply parse_chunks_written; assumption|].
  intros ty. rewrite collect_lookup, lookup_empty.
  destruct (payloads_of ty cs); reflexivity.
Qed.

(** X2. From a written container [load_png] takes the width and the height
    out of the first eight payload bytes of the first IHDR chunk, big-endian,
    and hands zlib the payloads of all IDAT chunks joined in file order,
    wherever the chunks lie among the others. *)
Theorem read_stream_first_ihdr_all_idat
    (decompress : list byte -> option (list byte)) (sig : list byte)
    (cs : list chunk) (h : list byte) (hs : list (list byte)) (raw : list byte) :
  length sig = 8%nat -> Forall chunk_ok cs ->
  payloads_of "IHDR" cs = h :: hs -> (8 <= length h)%nat ->
  payloads_of "IDAT" cs <> [] ->
  decompress (concat (payloads_of "IDAT" cs)) = Some raw ->
  read_stream decompress (sig ++ flat_map encode_chunk cs)
  = Ok (raw, be_uint (take 4 h), be_uint (take 4 (drop 4 h))).
Proof.
  intros Hsig Hcs Hh Hlen Hidat Hraw.
  rewrite read_stream_written by assumption. rewrite Hh.
  destruct (Nat.ltb_spec (length h) 8); [lia|].
  destruct (payloads_of "IDAT" cs) as [|p ps]; [congruence|].
  rewrite Hraw. reflexivity.
Qed.

(** X3. A written container without an IHDR chunk makes [load_png] raise
    KeyError. *)
Theorem load_png_missing_ihdr (decompress : list byte -> option (list byte))
    (sig : list byte) (cs : list chunk) :
  length sig = 8%nat -> Forall chunk_ok cs ->
  payloads_of "IHDR" cs = [] ->
  load_png decompress (sig ++ flat_map encode_chunk cs) = Raise KeyError.
Proof.
  intros Hsig Hcs Hh. unfold load_png.
  rewrite read_stream_written by assumption. rewrite Hh. reflexivity.
Qed.

(** X4. A written container with a header but without an IDAT chunk makes
    [load_png] raise KeyError. *)
Theorem load_png_missing_idat (decompress : list byte -> option (list byte))
    (sig : list byte) (cs : list chunk) (h : list byte) (hs : list (list byte)) :
  length sig = 8%nat -> Forall chunk_ok cs ->
  payloads_of "IHDR" cs = h :: hs -> (8 <= length h)%nat ->
  payloads_of "IDAT" cs = [] ->
  load_png decompress (sig ++ flat_map encode_chunk cs) = Raise KeyError.
Proof.
  intros Hsig Hcs Hh Hlen Hidat. unfold load_png.
  rewrite read_stream_written by assumption. rewrite Hh, Hidat.
  destruct (Nat.ltb_spec (length h) 8); [lia|reflexivity].
Qed.

(** X5. When the first IHDR chunk of a written container has fewer than
    eight payload bytes, [load_png] raises struct.error. *)
Theorem load_png_short_ihdr (decompress : list byte -> option (list byte))
    (sig : list byte) (cs : list chunk) (h : list byte) (hs : list (list byte)) :
  length sig = 8%nat -> Forall chunk_ok cs ->
  payloads_of "IHDR" cs = h :: hs -> (length h < 8)%nat ->
  load_png decompress (sig ++ flat_map encode_chunk cs) = Raise StructError.
Proof.
  intros Hsig Hcs Hh Hlen. unfold load_png.
  rewrite read_stream_written by assumption. rewrite Hh.
  destruct (Nat.ltb_spec (length h) 8); [reflexivity|lia].
Qed.

(** X6. When zlib rejects the joined IDAT payloads of a written container,
    [load_png] raises zlib.error and decodes no row. *)
Theorem load_png_zlib_error (decompress : list byte -> option (list byte))
    (sig : list byte) (cs : list chunk) (h : list byte) (hs : list (list byte)) :
  length sig = 8%nat -> Forall chunk_ok cs ->
  payloads_of "IHDR" cs = h :: hs -> (8 <= length h)%nat ->
  payloads_of "IDAT" cs <> [] ->
  decompress (concat (payloads_of "IDAT" cs)) = None ->
  load_png decompress (sig ++ flat_map encode_chunk cs) = Raise ZlibError.
Proof.
  intros Hsig Hcs Hh Hlen Hidat Hz. unfold load_png.
  rewrite read_stream_written by assumption. rewrite Hh.
  destruct (Nat.ltb_spec (length h) 8); [lia|].
  destruct (payloads_of "IDAT" cs) as [|p ps]; [congruence|].
  rewrite Hz. reflexivity.
Qed.

(** X7. On a buffer of at most eight bytes, the empty one included, the
    chunk loop does not run and [load_png] raises KeyError. *)
Theorem load_png_no_chunks (decompress : list byte -> option (list byte))
    (data : list byte) :
  len data <= 8 -> load_png decompress data = Raise KeyError.
Proof.
  intros Hlen. unfold load_png, read_stream, parse_chunks.
  rewrite chunk_loop_done by assumption. reflexivity.
Qed.

(** X8. One to three stray bytes behind the last chunk of a written
    container make [load_png] raise struct.error: the loop takes them for
    the start of a chunk and cannot unpack a length. *)
Theorem load_png_stray_bytes (decompress : list byte -> option (list byte))
    (sig : list byte) (cs : list chunk) (junk : list byte) :
  length sig = 8%nat -> Forall chunk_ok cs ->
  (0 < length junk < 4)%nat ->
  load_png decompress (sig ++ flat_map encode_chunk cs ++ junk) = Raise StructError.
Proof.
  intros Hsig Hcs Hjunk. unfold load_png, read_stream, parse_chunks.
  pose proof (flat_encode_length cs Hcs) as Hlen.
  replace (length (sig ++ flat_map encode_chunk cs ++ junk))
    with (length cs
          + S (length (sig ++ flat_map encode_chunk cs ++ junk) - length cs - 1))%nat
    by (rewrite !length_app; lia).
  replace 8 with (len sig) by (unfold len; lia).
  rewrite chunk_loop_encoded by assumption.
  cbn [chunk_loop].
  destruct (Z.ltb_spec (len sig + len (flat_map encode_chunk cs))
              (len (sig ++ flat_map encode_chunk cs ++ junk))) as [_|Hge];
    [|rewrite !len_app in Hge; unfold len in Hge; lia].
  unfold chunk_body, unpack_I.
  assert (Hs : length (slice (sig ++ flat_map encode_chunk cs ++ junk)
                         (len sig + len (flat_map encode_chunk cs))
                         (len sig + len (flat_map encode_chunk cs) + 4))
               = length junk).
  { unfold slice. rewrite length_take, length_drop, !length_app. unfold len. lia. }
  rewrite Hs. destruct (Nat.eqb_spec (length junk) 4); [lia|reflexivity].
Qed.

(** X9. A chunk whose four type bytes are not all ASCII makes [load_png]
    raise UnicodeDecodeError, whatever its payload and whatever follows. *)
Theorem load_png_non_ascii_type (decompress : list byte -> option (list byte))
    (sig : list byte) (cs : list chunk) (lenb ty rest : list byte) :
  length sig = 8%nat -> Forall chunk_ok cs ->
  length lenb = 4%nat -> length ty = 4%nat ->
  Exists (fun b => 128 <= byte_val b) ty ->
  load_png decompress (sig ++ flat_map encode_chunk cs ++ lenb ++ ty ++ rest)
  = Raise UnicodeDecodeError.
Proof.
  intros Hsig Hcs Hlenb Hty Hbad. unfold load_png, read_stream, parse_chunks.
  pose proof (flat_encode_length cs Hcs) as Hlen.
  set (data := sig ++ flat_map encode_chunk cs ++ lenb ++ ty ++ rest).
  replace (length data) with (length cs + S (length data - length cs - 1))%nat
    by (unfold data; rewrite !length_app; lia).
  replace 8 with (len sig) by (unfold len; lia).
  unfold data. rewrite chunk_loop_encoded by assumption. fold data.
  cbn [chunk_loop].
  destruct (Z.ltb_spec (len sig + len (flat_map encode_chunk cs)) (len data))
    as [_|Hge]; [|unfold data in Hge; rewrite !len_app in Hge; unfold len in Hge; lia].
  unfold chunk_body.
  assert (H1 : slice data (len sig + len (flat_map encode_chunk cs))
                 (len sig + len (flat_map encode_chunk cs) + 4) = lenb).
  { unfold data. rewrite (app_assoc sig). apply slice_mid.
    - rewrite len_app. reflexivity.
    - unfold len. lia. }
  assert (H2 : slice data (len sig + len (flat_map encode_chunk cs) + 4)
                 (len sig + len (flat_map encode_chunk cs) + 8) = ty).
  { unfold data. rewrite (app_assoc sig). rewrite (app_assoc (sig ++ _)).
    apply slice_mid.
    - rewrite !len_app. unfold len. lia.
    - unfold len. lia. }
  rewrite H1. unfold unpack_I. rewrite Hlenb. simpl Nat.eqb. cbn [bind].
  rewrite H2. unfold decode_ascii.
  replace (forallb (fun b => byte_val b <? 128) ty) with false; [reflexivity|].
  symmetry. clear -Hbad. induction Hbad as [b bs Hb|b bs _ IH]; simpl.
  - destruct (Z.ltb_spec (byte_val b) 128); [lia|reflexivity].
  - rewrite IH. apply andb_false_r.
Qed.

(** ** The rows loop: errors, surplus bytes, filters *)

Lemma for_each_raise_inv {A S : Type} (P : exn -> Prop) (xs : list A)
    (body : S -> A -> outcome S) (s : S) (e : exn) :
  (forall s x e, body s x = Raise e -> P e) ->
  for_each xs body s = Raise e -> P e.
Proof.
  intros Hbody. revert s. induction xs as [|x xs IH]; intros s H; simpl in H.
  - discriminate.
  - apply bind_Raise in H as [H|(s1 & _ & H)]; eauto.
Qed.

Lemma scanline_raises_index (raw : list byte) (W rb : Z) (st : row_state)
    (y : nat) (e : exn) :
  scanline raw W rb st y = Raise e -> e = IndexError.
Proof.
  unfold scanline. intros H.
  apply bind_Raise in H as [H|(ft & _ & H)]; [eapply index_raises; eassumption|].
  apply bind_Raise in H as [H|(row' & _ & H)]; [|discriminate].
  unfold defilter in H.
  destruct (byte_val ft =? 1); [|destruct (byte_val ft =? 2)]; [| |discriminate].
  - revert H. apply (for_each_raise_inv (fun e => e = IndexError)). intros s x e0 H. unfold sub_body in H.
    apply bind_Raise in H as [H|(a & _ & H)]; [eapply index_raises; eassumption|].
    apply bind_Raise in H as [H|(b & _ & H)];
      [eapply index_raises; eassumption|discriminate].
  - revert H. apply (for_each_raise_inv (fun e => e = IndexError)). intros s x e0 H. unfold up_body in H.
    apply bind_Raise in H as [H|(a & _ & H)]; [eapply index_raises; eassumption|].
    apply bind_Raise in H as [H|(b & _ & H)];
      [eapply index_raises; eassumption|discriminate].
Qed.

(** X10. When the raw stream ends at or before the filter tag of the last
    row, [decode_rows] raises IndexError and returns no row at all. *)
Theorem decode_rows_missing_row (raw : list byte) (W H : Z) :
  0 <= W -> 0 < H ->
  len raw <= (H - 1) * (1 + row_bytes W) ->
  decode_rows raw W H = Raise IndexError.
Proof.
  intros HW HH Hshort.
  destruct (decode_rows raw W H) as [px|e|] eqn:Hd.
  - exfalso. apply decode_rows_Ok in Hd as (st & Hst & _).
    replace (Z.to_nat H) with (S (Z.to_nat (H - 1))) in Hst by lia.
    rewrite rows_after_S in Hst. apply bind_Ok in Hst as (st0 & Hst0 & Hs).
    pose proof (rows_after_inv _ _ _ _ HW Hst0) as (Hidx & _).
    rewrite Z2Nat.id in Hidx by lia.
    apply scanline_Ok in Hs as (ft & _ & Hft & _).
    pose proof (row_bytes_nonneg W HW).
    apply index_Ok_lt in Hft; [lia|]. rewrite Hidx. nia.
  - f_equal. unfold decode_rows in Hd.
    apply bind_Raise in Hd as [Hd|(st & _ & Hd)]; [|discriminate].
    revert Hd. apply (for_each_raise_inv (fun e => e = IndexError)).
    intros s x e0. apply scanline_raises_index.
  - exfalso. unfold decode_rows in Hd.
    match type of Hd with context [for_each ?xs ?b ?s] =>
      pose proof (for_each_fuel xs b s (scanline_fuel _ _ _)) as Hf;
      destruct (for_each xs b s) end; simpl in Hd; congruence.
Qed.

Lemma scanline_ignores_tail (raw extra : list byte) (W rb : Z) (st : row_state)
    (y : nat) :
  0 <= idx st -> 0 <= rb -> idx st + 1 + rb <= len raw ->
  scanline (raw ++ extra) W rb st y = scanline raw W rb st y.
Proof.
  intros Hi Hrb Hlen. unfold len in Hlen. unfold scanline.
  assert (H1 : index (raw ++ extra) (idx st) = index raw (idx st)).
  { unfold index. rewrite lookup_app_l by lia. reflexivity. }
  assert (H2 : slice (raw ++ extra) (idx st + 1) (idx st + 1 + rb)
               = slice raw (idx st + 1) (idx st + 1 + rb)).
  { unfold slice. rewrite drop_app_le by lia.
    apply take_app_le. rewrite length_drop. lia. }
  rewrite H1. destruct (index raw (idx st)); cbn [bind]; [|reflexivity|reflexivity].
  rewrite H2. reflexivity.
Qed.

Lemma rows_after_ignores_tail (y : nat) (raw extra : list byte) (W : Z) :
  0 <= W -> Z.of_nat y * (1 + row_bytes W) <= len raw ->
  rows_after y (raw ++ extra) W = rows_after y raw W.
Proof.
  intros HW. pose proof (row_bytes_nonneg W HW) as Hrb.
  induction y as [|y IH]; intros Hlen; [reflexivity|].
  rewrite !rows_after_S, IH by nia.
  destruct (rows_after y raw W) as [st| |] eqn:Hst; cbn [bind]; try reflexivity.
  pose proof (rows_after_inv _ _ _ _ HW Hst) as (Hidx & _).
  apply scanline_ignores_tail; nia.
Qed.

(** X11. Bytes of the raw stream behind the last row are not read: with
    [H * (1 + row_bytes W)] bytes present, appending anything changes
    nothing. *)
Theorem decode_rows_ignores_surplus (raw extra : list byte) (W H : Z) :
  0 <= W -> 0 <= H ->
  H * (1 + row_bytes W) <= len raw ->
  decode_rows (raw ++ extra) W H = decode_rows raw W H.
Proof.
  intros HW HH Hlen. rewrite !decode_rows_rows_after.
  rewrite rows_after_ignores_tail; [reflexivity|assumption|].
  rewrite Z2Nat.id by assumption. assumption.
Qed.

Lemma sub_from_enc (row : list Z) (left : Z) :
  Forall (fun v => 0 <= v < 256) row ->
  sub_from left (sub_enc left row) = row.
Proof.
  intros Hrow. revert left. induction Hrow as [|a row Ha _ IH]; intros left; simpl.
  - reflexivity.
  - rewrite Z.add_mod_idemp_l by lia.
    replace (a - left + left) with a by lia.
    rewrite Z.mod_small by assumption. rewrite IH. reflexivity.
Qed.

Lemma up_with_enc (prev row : list Z) :
  length prev = length row ->
  Forall (fun v => 0 <= v < 256) row ->
  up_with prev (up_enc prev row) = row.
Proof.
  intros Hlen Hrow. revert prev Hlen. unfold up_with, up_enc.
  induction Hrow as [|a row Ha _ IH]; intros prev Hlen;
    destruct prev as [|b prev]; try discriminate; simpl; [reflexivity|].
  rewrite Z.add_mod_idemp_l by lia.
  replace (a - b + b) with a by lia.
  rewrite Z.mod_small by assumption. rewrite IH by (simpl in Hlen; lia).
  reflexivity.
Qed.

Lemma sub_enc_bytes (row : list Z) (left : Z) :
  Forall (fun v => 0 <= v < 256) (sub_enc left row)
  /\ length (sub_enc left row) = length row.
Proof.
  revert left. induction row as [|a row IH]; intros left; simpl.
  - split; [constructor|reflexivity].
  - destruct (IH a) as [Hb Hl]. split; [|lia].
    constructor; [apply Z.mod_pos_bound; lia|assumption].
Qed.

Lemma up_enc_bytes (prev row : list Z) :
  length prev = length row ->
  Forall (fun v => 0 <= v < 256) (up_enc prev row)
  /\ length (up_enc prev row) = length row.
Proof.
  unfold up_enc. revert prev. induction row as [|a row IH]; intros prev Hlen;
    destruct prev as [|b prev]; try discriminate; simpl.
  - split; [constructor|reflexivity].
  - destruct (IH prev) as [Hb Hl]; [simpl in Hlen; lia|]. split; [|lia].
    constructor; [apply Z.mod_pos_bound; lia|assumption].
Qed.

(** The filter a row was written with is undone by the pass that reads
    it. *)
Lemma defilter_filter_enc (ft rb : Z) (prev row : list Z) :
  ft = 0 \/ ft = 1 \/ ft = 2 ->
  Forall (fun v => 0 <= v < 256) row ->
  length row = Z.to_nat rb -> length prev = Z.to_nat rb ->
  Forall (fun v => 0 <= v < 256) (filter_enc ft prev row)
  /\ length (filter_enc ft prev row) = Z.to_nat rb
  /\ defilter ft rb prev (filter_enc ft prev row) = Ok row.
Proof.
  intros Hft Hrow Hl Hp. destruct Hft as [-> | [-> | ->]]; unfold filter_enc; simpl.
  - auto.
  - destruct (sub_enc_bytes row 0) as [Hb Hlen].
    split; [assumption|]. split; [lia|].
    rewrite defilter_sub by (assumption || lia).
    rewrite sub_from_enc by assumption. reflexivity.
  - destruct (up_enc_bytes prev row) as [Hb Hlen]; [lia|].
    split; [assumption|]. split; [lia|].
    rewrite defilter_up by (assumption || lia).
    rewrite up_with_enc by (assumption || lia). reflexivity.
Qed.

Lemma scanline_written (pre rest : list byte) (ft : Z) (px : list Z)
    (acc : list (list Z)) (pv : list Z) (y : nat) :
  ft = 0 \/ ft = 1 \/ ft = 2 ->
  Forall nibble px ->
  length pv = Z.to_nat (row_bytes (len px)) ->
  scanline (pre ++ (byte_of_Z ft
                    :: map byte_of_Z (filter_enc ft pv (pack_row px))) ++ rest)
    (len px) (row_bytes (len px)) {| pixels := acc; prev := pv; idx := len pre |} y
  = Ok {| pixels := acc ++ [px]; prev := pack_row px;
          idx := len (pre ++ byte_of_Z ft
                      :: map byte_of_Z (filter_enc ft pv (pack_row px))) |}.
Proof.
  intros Hft Hpx Hprev.
  pose proof (pack_row_bytes px Hpx) as Hbytes.
  pose proof (pack_row_length px) as Hl. unfold len in Hl.
  destruct (defilter_filter_enc ft (row_bytes (len px)) pv (pack_row px) Hft Hbytes)
    as (Hfb & Hfl & Hde); [unfold len; lia|assumption|].
  set (enc := filter_enc ft pv (pack_row px)) in *.
  unfold scanline. cbn [idx pixels prev].
  unfold index, len at 1. rewrite Nat2Z.id.
  cbn [app]. rewrite list_lookup_middle by reflexivity. cbn [bind].
  rewrite byte_val_of_Z by lia.
  assert (Hslice : slice (pre ++ byte_of_Z ft :: map byte_of_Z enc ++ rest)
                     (len pre + 1) (len pre + 1 + row_bytes (len px))
                   = map byte_of_Z enc).
  { replace (pre ++ byte_of_Z ft :: map byte_of_Z enc ++ rest)
      with ((pre ++ [byte_of_Z ft]) ++ map byte_of_Z enc ++ rest)
      by (rewrite <- app_assoc; reflexivity).
    apply slice_mid.
    - rewrite len_app. reflexivity.
    - unfold len in *. rewrite length_map. lia. }
  rewrite Hslice, byte_val_of_Z_map by assumption.
  rewrite Hde. cbn [bind].
  unfold len at 1. rewrite Nat2Z.id, unpack_pack by assumption.
  f_equal. f_equal.
  unfold len in *. rewrite !length_app. simpl. rewrite length_map. lia.
Qed.

Lemma encode_rows_loop (rows : list (Z * list Z)) (W : Z) :
  Forall (fun r => (fst r = 0 \/ fst r = 1 \/ fst r = 2)
                   /\ len (snd r) = W /\ Forall nibble (snd r)) rows ->
  forall (pre : list byte) (acc : list (list Z)) (p : list Z) (a : nat),
  length p = Z.to_nat (row_bytes W) ->
  exists p',
    for_each (seq a (length rows))
      (scanline (pre ++ encode_rows p rows) W (row_bytes W))
      {| pixels := acc; prev := p; idx := len pre |}
    = Ok {| pixels := acc ++ map snd rows; prev := p';
            idx := len (pre ++ encode_rows p rows) |}.
Proof.
  induction 1 as [|[ft px] rows (Hft & Hlen & Hpx) _ IH]; intros pre acc p a Hp.
  - exists p. simpl. rewrite !app_nil_r. reflexivity.
  - simpl in Hft, Hlen, Hpx. subst W. cbn [length seq for_each encode_rows map snd].
    pose proof (scanline_written pre (encode_rows (pack_row px) rows) ft px acc p a
                  Hft Hpx Hp) as Hs.
    cbn [app] in Hs. rewrite Hs. cbn [bind].
    destruct (IH (pre ++ byte_of_Z ft :: map byte_of_Z (filter_enc ft p (pack_row px)))
                (acc ++ [px]) (pack_row px) (S a)) as [p' Hp'].
    { pose proof (pack_row_length px) as Hl. unfold len in *. lia. }
    exists p'.
    replace (pre ++ byte_of_Z ft
             :: map byte_of_Z (filter_enc ft p (pack_row px))
                ++ encode_rows (pack_row px) rows)
      with ((pre ++ byte_of_Z ft :: map byte_of_Z (filter_enc ft p (pack_row px)))
            ++ encode_rows (pack_row px) rows)
      by (rewrite <- app_assoc; reflexivity).
    rewrite Hp'. rewrite <- app_assoc. reflexivity.
Qed.

(** X12. Rows of 4-bit indices written with any choice of the filters None,
    Sub and Up, row by row, are read back as they were: the Sub and Up passes
    undo the two filters. *)
Theorem decode_rows_filtered_round_trip (rows : list (Z * list Z)) (W : Z) :
  Forall (fun r => (fst r = 0 \/ fst r = 1 \/ fst r = 2)
                   /\ len (snd r) = W /\ Forall nibble (snd r)) rows ->
  decode_rows (encode_rows (replicate (Z.to_nat (row_bytes W)) 0) rows) W (len rows)
  = Ok (map snd rows).
Proof.
  intros Hrows.
  unfold decode_rows, range. rewrite Z.sub_0_r. unfold len. rewrite Nat2Z.id.
  destruct (encode_rows_loop rows W Hrows [] []
              (replicate (Z.to_nat (row_bytes W)) 0) 0%nat) as [p' Hp'].
  { apply length_replicate. }
  simpl in Hp'. unfold rows_init. change (Z.to_nat 0) with 0%nat.
  change (len (@nil byte)) with 0 in Hp'. rewrite Hp'. reflexivity.
Qed.

(** ** Which byte a pixel comes from *)

Lemma defilter_bytes (ft rb : Z) (prev row row' : list Z) :
  Forall (fun v => 0 <= v < 256) row ->
  defilter ft rb prev row = Ok row' ->
  Forall (fun v => 0 <= v < 256) row'.
Proof.
  intros Hrow. unfold defilter.
  destruct (ft =? 1); [|destruct (ft =? 2)]; intros H.
  - revert H. apply (for_each_inv (Forall (fun v => 0 <= v < 256))); [|assumption].
    intros s x s' Hs Hb. unfold sub_body in Hb.
    apply bind_Ok in Hb as (a & _ & Hb). apply bind_Ok in Hb as (b & _ & Hb).
    injection Hb as <-. apply Forall_insert; [assumption|].
    apply Z.mod_pos_bound. lia.
  - revert H. apply (for_each_inv (Forall (fun v => 0 <= v < 256))); [|assumption].
    intros s x s' Hs Hb. unfold up_body in Hb.
    apply bind_Ok in Hb as (a & _ & Hb). apply bind_Ok in Hb as (b & _ & Hb).
    injection Hb as <-. apply Forall_insert; [assumption|].
    apply Z.mod_pos_bound. lia.
  - congruence.
Qed.

Lemma byte_nibbles (b : Z) :
  0 <= b < 256 ->
  Z.land (Z.shiftr b 4) 15 = b / 16 /\ Z.land b 15 = b mod 16.
Proof.
  intros Hb. change 15 with (Z.ones 4). rewrite !Z.land_ones by lia.
  rewrite Z.shiftr_div_pow2 by lia. change (2 ^ 4) with 16.
  split; [|reflexivity]. apply Z.mod_small.
  split; [apply Z.div_pos; lia|apply Z.div_lt_upper_bound; lia].
Qed.

Lemma unpack_row_lookup (row : list Z) (j : nat) (b : Z) :
  row !! j = Some b -> 0 <= b < 256 ->
  unpack_row row !! (2 * j)%nat = Some (b / 16)
  /\ unpack_row row !! S (2 * j) = Some (b mod 16).
Proof.
  intros Hj Hb. revert j Hj. induction row as [|a row IH]; intros j Hj.
  - destruct j; discriminate.
  - destruct j as [|j].
    + injection Hj as ->. destruct (byte_nibbles b Hb) as [Hhi Hlo].
      simpl. rewrite Hhi, Hlo. split; reflexivity.
    + simpl in Hj. destruct (IH j Hj) as [H0 H1].
      replace (2 * S j)%nat with (S (S (2 * j))) by lia.
      split; assumption.
Qed.

(** X13. Pixel [x] of a decoded row is a nibble of byte [x / 2] of the
    reconstructed row: the high one ([b // 16]) when [x] is even, the low
    one ([b % 16]) when [x] is odd. *)
Theorem pixel_is_nibble_of_byte (raw : list byte) (W : Z) (y x : nat)
    (st' : row_state) (r : list Z) (b : Z) :
  0 <= W ->
  rows_after (S y) raw W = Ok st' ->
  pixels st' !! y = Some r ->
  (x < Z.to_nat W)%nat ->
  prev st' !! (x / 2)%nat = Some b ->
  r !! x = Some (if Nat.even x then b / 16 else b mod 16).
Proof.
  intros HW Hst Hr Hx Hb.
  rewrite rows_after_S in Hst. apply bind_Ok in Hst as (st0 & Hst0 & Hs).
  pose proof (rows_after_inv _ _ _ _ HW Hst0) as (_ & Hpx & _).
  apply scanline_Ok in Hs as (ft & row' & _ & Hde & ->).
  simpl in Hr, Hb.
  rewrite lookup_app_r in Hr by lia. rewrite Hpx, Nat.sub_diag in Hr.
  injection Hr as <-. rewrite lookup_take_lt by assumption.
  apply defilter_bytes in Hde; [|apply raw_row_bytes].
  assert (Hbr : 0 <= b < 256).
  { rewrite Forall_forall in Hde. apply Hde.
    eapply list_elem_of_lookup_2. eassumption. }
  destruct (unpack_row_lookup row' (x / 2) b Hb Hbr) as [Heven Hodd].
  pose proof (Nat.div_mod_eq x 2) as Hdm.
  pose proof (Nat.mod_upper_bound x 2 ltac:(lia)) as Hm.
  destruct (Nat.even x) eqn:Ev.
  - apply Nat.even_spec in Ev as [k Hk].
    assert (Hx0 : (x mod 2 = 0)%nat).
    { subst x. rewrite Nat.mul_comm. apply Nat.Div0.mod_mul. }
    replace x with (2 * (x / 2))%nat at 1 by lia. assumption.
  - assert (Ho : Nat.odd x = true) by (rewrite <- Nat.negb_even, Ev; reflexivity).
    apply Nat.odd_spec in Ho as [k Hk].
    assert (Hx1 : (x mod 2 = 1)%nat).
    { subst x. rewrite Nat.add_comm, Nat.mul_comm, Nat.Div0.mod_add. reflexivity. }
    replace x with (S (2 * (x / 2))) at 1 by lia. assumption.
Qed.

(** * Properties of [analyze] *)

(** ** Loops over a range of indices *)

Lemma range_Z_S (a : Z) (n : nat) :
  range_Z a (a + Z.of_nat (S n)) = a :: range_Z (a + 1) (a + 1 + Z.of_nat n).
Proof.
  unfold range_Z.
  replace (Z.to_nat (a + Z.of_nat (S n) - a)) with (S n) by lia.
  replace (Z.to_nat (a + 1 + Z.of_nat n - (a + 1))) with n by lia.
  cbn [seq map]. f_equal; [lia|].
  rewrite <- seq_shift, map_map. apply map_ext. intros k. lia.
Qed.

Lemma range_Z_In (a b x : Z) : In x (range_Z a b) -> a <= x < b.
Proof.
  unfold range_Z. intros Hx. apply in_map_iff in Hx as (k & <- & Hk).
  apply in_seq in Hk. lia.
Qed.

Lemma range_Z_nil (a b : Z) : b <= a -> range_Z a b = [].
Proof.
  intros H. unfold range_Z. replace (Z.to_nat (b - a)) with 0%nat by lia.
  reflexivity.
Qed.

Lemma index_py_lookup {A : Type} (s : list A) (i : Z) (v : A) :
  0 <= i -> s !! Z.to_nat i = Some v -> index_py s i = Ok v.
Proof.
  intros Hi Hv. unfold index_py, index.
  destruct (Z.leb_spec 0 i); [|lia]. rewrite Hv. reflexivity.
Qed.

Lemma slice_S {A : Type} (s : list A) (a : Z) (n : nat) (v : A) :
  0 <= a -> s !! Z.to_nat a = Some v ->
  slice s a (a + Z.of_nat (S n)) = v :: slice s (a + 1) (a + 1 + Z.of_nat n).
Proof.
  intros Ha Hv. unfold slice.
  replace (Z.to_nat (a + Z.of_nat (S n) - a)) with (S n) by lia.
  replace (Z.to_nat (a + 1 + Z.of_nat n - (a + 1))) with n by lia.
  replace (Z.to_nat (a + 1)) with (S (Z.to_nat a)) by lia.
  rewrite (drop_S _ _ _ Hv). reflexivity.
Qed.

(** A loop that reads [s[x]] for [x] in a range inside [s] is a loop over
    the slice. *)
Lemma for_each_range_index {A S : Type} (s : list A) (g : S -> A -> outcome S)
    (n : nat) (a : Z) (c : S) :
  0 <= a -> a + Z.of_nat n <= len s ->
  for_each (range_Z a (a + Z.of_nat n)) (fun c x => do v <- index_py s x; g c v) c
  = for_each (slice s a (a + Z.of_nat n)) g c.
Proof.
  revert a c. induction n as [|n IH]; intros a c Ha Hlen.
  - rewrite range_Z_nil by lia. unfold slice.
    replace (Z.to_nat (a + Z.of_nat 0 - a)) with 0%nat by lia. reflexivity.
  - destruct (lookup_lt_is_Some_2 s (Z.to_nat a)) as [v Hv];
      [unfold len in Hlen; lia|].
    rewrite range_Z_S, (slice_S _ _ _ _ Ha Hv). cbn [for_each].
    rewrite (index_py_lookup _ _ _ Ha Hv). cbn [bind].
    destruct (g c v) as [c'| |]; cbn [bind]; try reflexivity.
    apply IH; lia.
Qed.

Lemma for_each_ext_in {A S : Type} (xs : list A) (b1 b2 : S -> A -> outcome S)
    (s : S) :
  (forall s x, In x xs -> b1 s x = b2 s x) ->
  for_each xs b1 s = for_each xs b2 s.
Proof.
  revert s. induction xs as [|x xs IH]; intros s Hb; simpl; [reflexivity|].
  rewrite Hb by (left; reflexivity).
  destruct (b2 s x); simpl; try reflexivity.
  apply IH. intros s0 x0 Hx0. apply Hb. right. assumption.
Qed.

Lemma for_each_Ok_fold {A S : Type} (xs : list A) (f : S -> A -> S) (s : S) :
  for_each xs (fun s x => Ok (f s x)) s = Ok (fold_left f xs s).
Proof. revert s. induction xs as [|x xs IH]; intros s; simpl; auto. Qed.

Lemma fold_left_flat_map {A B S : Type} (f : S -> B -> S) (h : A -> list B)
    (l : list A) (s : S) :
  fold_left f (flat_map h l) s = fold_left (fun s x => fold_left f (h x) s) l s.
Proof.
  revert s. induction l as [|x l IH]; intros s; simpl; [reflexivity|].
  rewrite fold_left_app. apply IH.
Qed.

(** ** The tile of a frame *)

Lemma frame_bounds (W H frame : Z) :
  0 <= frame < COLS * ROWS ->
  0 <= frame mod COLS < COLS /\ 0 <= frame / COLS < ROWS.
Proof.
  unfold COLS, ROWS. intros Hf. split.
  - apply Z.mod_pos_bound. lia.
  - split; [apply Z.div_pos; lia|apply Z.div_lt_upper_bound; lia].
Qed.

Lemma tile_fits (n d q : Z) :
  0 < d -> 0 <= n -> 0 <= q < d ->
  0 <= q * (n / d) /\ 0 <= n / d /\ q * (n / d) + n / d <= n.
Proof.
  intros Hd Hn Hq.
  assert (H0 : 0 <= n / d) by (apply Z.div_pos; lia).
  pose proof (Z.mul_div_le n d Hd) as Hle.
  split; [nia|]. split; [assumption|]. nia.
Qed.

(** Inside the sheet [analyze] is a tally of the tile's pixels. *)
Lemma analyze_in_bounds (pixels : list (list Z)) (W H frame : Z) :
  len pixels = H -> Forall (fun r => len r = W) pixels ->
  0 <= frame < COLS * ROWS ->
  analyze pixels W H frame = Ok (fold_left count_pixel (tile pixels W H frame) []).
Proof.
  intros HH HW Hf. destruct (frame_bounds W H frame Hf) as [Hc Hr].
  unfold analyze, tile.
  set (tw := W / COLS). set (th := H / ROWS).
  set (x0 := frame mod COLS * tw). set (y0 := frame / COLS * th).
  destruct (tile_fits H ROWS (frame / COLS)) as (Hy0 & Hth & Hyfit);
    [unfold ROWS; lia|subst H; apply len_nonneg|assumption|].
  fold th in Hy0, Hth, Hyfit. fold y0 in Hy0, Hyfit.
  rewrite fold_left_flat_map, <- for_each_Ok_fold.
  replace (y0 + th) with (y0 + Z.of_nat (Z.to_nat th)) by lia.
  rewrite <- (for_each_range_index pixels) by lia.
  apply for_each_ext_in. intros counts y Hy. cbv beta. apply range_Z_In in Hy.
  destruct (lookup_lt_is_Some_2 pixels (Z.to_nat y)) as [row Hrow];
    [unfold len in *; lia|].
  assert (Hlen : len row = W).
  { rewrite Forall_forall in HW. apply HW.
    eapply list_elem_of_lookup_2. eassumption. }
  destruct (tile_fits W COLS (frame mod COLS)) as (Hx0 & Htw & Hxfit);
    [unfold COLS; lia|subst W; apply len_nonneg|assumption|].
  fold tw in Hx0, Htw, Hxfit. fold x0 in Hx0, Hxfit.
  rewrite (index_py_lookup pixels y row) by (lia || assumption). cbn [bind].
  rewrite <- for_each_Ok_fold.
  replace (x0 + tw) with (x0 + Z.of_nat (Z.to_nat tw)) by lia.
  rewrite <- (for_each_range_index row) by lia.
  apply for_each_ext_in. intros c x _. reflexivity.
Qed.

(** ** The tally *)

Lemma od_get_set (d : list (Z * Z)) (k v k' : Z) :
  od_get (od_set d k v) k' = if k =? k' then Some v else od_get d k'.
Proof.
  induction d as [|[k0 v0] d IH]; simpl.
  - reflexivity.
  - destruct (Z.eqb_spec k0 k) as [->|Hne]; simpl.
    + destruct (Z.eqb_spec k k'); reflexivity.
    + rewrite IH. destruct (Z.eqb_spec k0 k'), (Z.eqb_spec k k'); try reflexivity.
      congruence.
Qed.

Lemma count_occ_Z_cons (vs : list Z) (v k : Z) :
  occurrences k (v :: vs) = (if v =? k then 1 else 0) + occurrences k vs.
Proof.
  unfold occurrences. simpl.
  destruct (Z.eq_dec v k), (Z.eqb_spec v k); try contradiction; lia.
Qed.

Lemma occurrences_nonneg (k : Z) (vs : list Z) : 0 <= occurrences k vs.
Proof. unfold occurrences. lia. Qed.

Lemma tally_get (vs : list Z) (c : list (Z * Z)) (k : Z) :
  od_get (fold_left count_pixel vs c) k
  = if (k =? BG_IDX) || (occurrences k vs =? 0) then od_get c k
    else Some (default 0 (od_get c k) + occurrences k vs).
Proof.
  revert c. induction vs as [|v vs IH]; intros c.
  - simpl. rewrite orb_true_r. reflexivity.
  - cbn [fold_left]. rewrite IH, count_occ_Z_cons.
    pose proof (occurrences_nonneg k vs) as Hn.
    unfold count_pixel.
    destruct (Z.eqb_spec k BG_IDX) as [Hk|Hk]; cbn [orb].
    + destruct (Z.eqb_spec v BG_IDX) as [Hv|Hv]; [reflexivity|].
      rewrite od_get_set. destruct (Z.eqb_spec v k); [congruence|reflexivity].
    + destruct (Z.eqb_spec v BG_IDX) as [Hv|Hv].
      * destruct (Z.eqb_spec v k); [congruence|]. rewrite Z.add_0_l. reflexivity.
      * rewrite od_get_set. destruct (Z.eqb_spec v k) as [Hvk|Hvk].
        -- subst v.
           destruct (Z.eqb_spec (1 + occurrences k vs) 0) as [H1|_]; [lia|].
           destruct (Z.eqb_spec (occurrences k vs) 0) as [H0|_].
           ++ rewrite H0. f_equal; try lia.
           ++ unfold default at 1. cbn [from_option id]. f_equal; try lia.
        -- rewrite Z.add_0_l. reflexivity.
Qed.

Lemma sum_values_from (d : list (Z * Z)) (a : Z) :
  fold_left (fun acc kv => acc + snd kv) d a = a + sum_values d.
Proof.
  unfold sum_values. revert a. induction d as [|kv d IH]; intros a; simpl; [lia|].
  rewrite IH, (IH (0 + snd kv)). lia.
Qed.

Lemma sum_values_cons (kv : Z * Z) (d : list (Z * Z)) :
  sum_values (kv :: d) = snd kv + sum_values d.
Proof. unfold sum_values at 1. simpl. rewrite sum_values_from. lia. Qed.

Lemma sum_values_set (d : list (Z * Z)) (k : Z) :
  sum_values (od_set d k (default 0 (od_get d k) + 1)) = sum_values d + 1.
Proof.
  induction d as [|[k0 v0] d IH]; simpl.
  - unfold sum_values. simpl. lia.
  - destruct (Z.eqb_spec k0 k) as [->|Hne]; simpl.
    + rewrite !sum_values_cons. simpl. lia.
    + rewrite !sum_values_cons, IH. simpl. lia.
Qed.

Lemma tally_sum (vs : list Z) (c : list (Z * Z)) :
  sum_values (fold_left count_pixel vs c)
  = sum_values c + len vs - occurrences BG_IDX vs.
Proof.
  revert c. induction vs as [|v vs IH]; intros c.
  - unfold len, occurrences. simpl. lia.
  - cbn [fold_left]. rewrite IH, count_occ_Z_cons. unfold count_pixel.
    replace (len (v :: vs)) with (1 + len vs) by (unfold len; simpl length; lia).
    destruct (Z.eqb_spec v BG_IDX); [lia|].
    rewrite sum_values_set. lia.
Qed.

Lemma od_get_In (d : list (Z * Z)) (k v : Z) :
  od_get d k = Some v -> In (k, v) d.
Proof.
  induction d as [|[k0 v0] d IH]; simpl; [discriminate|].
  destruct (Z.eqb_spec k0 k) as [->|_]; [intros [= ->]; left; reflexivity|].
  intros H. right. auto.
Qed.

Lemma od_set_keys (d : list (Z * Z)) (k v x : Z) :
  In x (map fst (od_set d k v)) -> x = k \/ In x (map fst d).
Proof.
  induction d as [|[k0 v0] d IH]; simpl.
  - intros [<-|[]]. left. reflexivity.
  - destruct (Z.eqb_spec k0 k) as [->|_]; simpl.
    + intros [<-|H]; auto.
    + intros [<-|H]; [auto|]. destruct (IH H); auto.
Qed.

Lemma od_set_NoDup (d : list (Z * Z)) (k v : Z) :
  List.NoDup (map fst d) -> List.NoDup (map fst (od_set d k v)).
Proof.
  induction d as [|[k0 v0] d IH]; simpl; intros Hd.
  - constructor; [intros []|constructor].
  - apply List.NoDup_cons_iff in Hd as [Hk0 Hd].
    destruct (Z.eqb_spec k0 k) as [->|Hne]; simpl.
    + constructor; assumption.
    + constructor; [|auto]. intros Hin.
      destruct (od_set_keys _ _ _ _ Hin); [congruence|contradiction].
Qed.

Lemma od_set_Forall (P : Z * Z -> Prop) (d : list (Z * Z)) (k v : Z) :
  Forall P d -> P (k, v) -> Forall P (od_set d k v).
Proof.
  intros Hd Hkv. induction Hd as [|[k0 v0] d H0 Hd IH]; simpl.
  - constructor; [assumption|constructor].
  - destruct (Z.eqb_spec k0 k); constructor; assumption.
Qed.

Lemma count_pixel_inv (c : list (Z * Z)) (v : Z) :
  counts_inv c -> counts_inv (count_pixel c v).
Proof.
  intros (Hbg & Hnd & Hpos). unfold count_pixel.
  destruct (Z.eqb_spec v BG_IDX) as [_|Hv]; [repeat split; assumption|].
  split; [|split].
  - rewrite od_get_set. destruct (Z.eqb_spec v BG_IDX); [contradiction|assumption].
  - apply od_set_NoDup. assumption.
  - apply od_set_Forall; [assumption|]. simpl.
    destruct (od_get c v) as [n|] eqn:E; simpl; [|lia].
    apply od_get_In in E. rewrite Forall_forall in Hpos.
    apply list_elem_of_In in E. specialize (Hpos _ E). simpl in Hpos. lia.
Qed.

Lemma analyze_tally (pixels : list (list Z)) (W H frame : Z) :
  len pixels = H -> Forall (fun r => len r = W) pixels ->
  0 <= frame < COLS * ROWS ->
  exists counts,
    analyze pixels W H frame = Ok counts
    /\ forall k,
         od_get counts k
         = if (k =? BG_IDX) || (occurrences k (tile pixels W H frame) =? 0)
           then None
           else Some (occurrences k (tile pixels W H frame)).
Proof.
  intros HH HW Hf. eexists. split; [apply analyze_in_bounds; assumption|].
  intros k. rewrite tally_get. simpl od_get. reflexivity.
Qed.

(** X14. For a sheet of [H] rows of [W] pixels and a frame of the 49 x 22
    grid, [analyze] returns without raising, and [counts] holds for every
    index other than the background index 7 the number of pixels of that
    index in the tile; an index that does not occur, and the background
    index, are not keys. *)
Theorem analyze_counts_tile (pixels : list (list Z)) (W H frame : Z) :
  len pixels = H -> Forall (fun r => len r = W) pixels ->
  0 <= frame < COLS * ROWS ->
  exists counts,
    analyze pixels W H frame = Ok counts
    /\ forall k,
         od_get counts k
         = if (k =? BG_IDX) || (occurrences k (tile pixels W H frame) =? 0)
           then None
           else Some (occurrences k (tile pixels W H frame)).
Proof. exact (analyze_tally pixels W H frame). Qed.

(** X15. Whatever the grid and the frame, a [counts] that [analyze] returns
    has no entry for the background index 7, has every key once, and has no
    count below 1. *)
Theorem analyze_counts_invariant (pixels : list (list Z)) (W H frame : Z)
    (counts : list (Z * Z)) :
  analyze pixels W H frame = Ok counts ->
  od_get counts BG_IDX = None
  /\ List.NoDup (map fst counts)
  /\ Forall (fun kv => 1 <= snd kv) counts.
Proof.
  unfold analyze.
  apply (for_each_inv counts_inv).
  - intros c y c' Hc.
    apply (for_each_inv counts_inv); [|assumption].
    intros c0 x c1 Hc0 Hb.
    apply bind_Ok in Hb as (row & _ & Hb). apply bind_Ok in Hb as (pi & _ & Hb).
    injection Hb as <-. apply count_pixel_inv. assumption.
  - repeat split; constructor.
Qed.

Lemma flat_map_len {A B : Type} (h : A -> list B) (l : list A) (n : Z) :
  Forall (fun x => len (h x) = n) l -> len (flat_map h l) = n * len l.
Proof.
  induction 1 as [|x l Hx _ IH]; [unfold len; simpl; lia|].
  cbn [flat_map]. rewrite len_app, Hx, IH. unfold len. simpl length. lia.
Qed.

Lemma slice_len {A : Type} (s : list A) (i j : Z) :
  0 <= i -> i <= j -> j <= len s -> len (slice s i j) = j - i.
Proof. intros. unfold len. rewrite slice_length by assumption. lia. Qed.

Lemma slice_In {A : Type} (s : list A) (i j : Z) (x : A) :
  In x (slice s i j) -> In x s.
Proof.
  unfold slice. intros H. apply list_elem_of_In in H.
  apply list_elem_of_In. eapply subseteq_drop, subseteq_take. eassumption.
Qed.

Lemma tile_len (pixels : list (list Z)) (W H frame : Z) :
  len pixels = H -> Forall (fun r => len r = W) pixels ->
  0 <= frame < COLS * ROWS ->
  len (tile pixels W H frame) = (W / COLS) * (H / ROWS).
Proof.
  intros HH HW Hf. destruct (frame_bounds W H frame Hf) as [Hc Hr].
  unfold tile.
  destruct (tile_fits H ROWS (frame / COLS)) as (Hy0 & Hth & Hyfit);
    [unfold ROWS; lia|subst H; apply len_nonneg|assumption|].
  rewrite (flat_map_len _ _ (W / COLS)).
  - rewrite slice_len by lia. lia.
  - apply Forall_forall. intros row Hrow.
    apply list_elem_of_In, slice_In, list_elem_of_In in Hrow.
    rewrite Forall_forall in HW. specialize (HW _ Hrow).
    destruct (tile_fits W COLS (frame mod COLS)) as (Hx0 & Htw & Hxfit);
      [unfold COLS; lia|subst W; apply len_nonneg|assumption|].
    rewrite slice_len by lia. lia.
Qed.

(** X16. For a sheet of [H] rows of [W] pixels and a frame of the grid, the
    counts add up to the area of the tile, [(W // 49) * (H // 22)], less
    its background pixels. *)
Theorem analyze_total (pixels : list (list Z)) (W H frame : Z) :
  len pixels = H -> Forall (fun r => len r = W) pixels ->
  0 <= frame < COLS * ROWS ->
  exists counts,
    analyze pixels W H frame = Ok counts
    /\ sum_values counts
       = (W / COLS) * (H / ROWS) - occurrences BG_IDX (tile pixels W H frame).
Proof.
  intros HH HW Hf. eexists. split; [apply analyze_in_bounds; assumption|].
  rewrite tally_sum, tile_len by assumption. unfold sum_values. simpl. lia.
Qed.

(** X17. On a sheet narrower than 49 pixels or lower than 22 the tiles have
    no pixel: [analyze] reads nothing and returns the empty dict for every
    frame number, whatever the grid holds. *)
Theorem analyze_small_sheet (pixels : list (list Z)) (W H frame : Z) :
  W < COLS \/ H < ROWS ->
  analyze pixels W H frame = Ok [].
Proof.
  intros Hsmall. unfold analyze.
  destruct (Z.lt_ge_cases H ROWS) as [HH|HH].
  - rewrite range_Z_nil; [reflexivity|].
    assert (H / ROWS <= 0); [|lia].
    apply Z.lt_succ_r. apply Z.div_lt_upper_bound; unfold ROWS in *; lia.
  - destruct Hsmall as [HW|]; [|lia].
    assert (Htw : W / COLS <= 0).
    { apply Z.lt_succ_r. apply Z.div_lt_upper_bound; unfold COLS in *; lia. }
    rewrite (for_each_ext_in _ _ (fun c _ => Ok ((fun c (_ : Z) => c) c 0))).
    + rewrite for_each_Ok_fold.
      generalize (range_Z (frame / COLS * (H / ROWS))
                    (frame / COLS * (H / ROWS) + H / ROWS)).
      intros l. induction l; simpl; auto.
    + intros c y _. rewrite range_Z_nil by lia. reflexivity.
Qed.


(** X18. [analyze] on the grid [load_png] returns: when the raw stream
    holds every row in full, no frame of the 49 x 22 grid makes [analyze]
    raise, and the keys of its counts are 4-bit indices other than 7. *)
Theorem analyze_after_load_png (decompress : list byte -> option (list byte))
    (data raw : list byte) (W H frame : Z) :
  read_stream decompress data = Ok (raw, W, H) ->
  H * (1 + row_bytes W) <= len raw ->
  0 <= frame < COLS * ROWS ->
  exists px counts,
    load_png decompress data = Ok (px, W, H)
    /\ analyze px W H frame = Ok counts
    /\ forall k n, od_get counts k = Some n -> 0 <= k < 16 /\ k <> BG_IDX.
Proof.
  intros Hr Hlen Hf.
  destruct (read_stream_nonneg _ _ _ _ _ Hr) as [HW HH].
  destruct (rows_after_full (Z.to_nat H) raw W HW) as [st Hst];
    [rewrite Z2Nat.id by assumption; assumption|].
  pose proof (rows_after_inv _ _ _ _ HW Hst) as (Hidx & Hpx & Hall & _ & Hfull).
  rewrite Z2Nat.id in Hidx by assumption.
  destruct (Hfull ltac:(lia)) as [_ Hrows].
  assert (Hshape : Forall (fun r => len r = W) (pixels st)).
  { eapply Forall_impl; [exact Hrows|]. intros r Hr'. simpl in Hr'.
    unfold len. lia. }
  assert (Hheight : len (pixels st) = H) by (unfold len; lia).
  destruct (analyze_tally (pixels st) W H frame Hheight Hshape Hf)
    as (counts & Hc & Hget).
  exists (pixels st), counts. split; [|split; [assumption|]].
  - unfold load_png. rewrite Hr. simpl.
    rewrite decode_rows_rows_after, Hst. reflexivity.
  - intros k n Hk. rewrite Hget in Hk.
    destruct (Z.eqb_spec k BG_IDX) as [|Hbg]; [discriminate|].
    destruct (Z.eqb_spec (occurrences k (tile (pixels st) W H frame)) 0)
      as [|Hocc]; [discriminate|].
    split; [|assumption].
    assert (Hin : In k (tile (pixels st) W H frame)).
    { apply (count_occ_In Z.eq_dec). unfold occurrences in Hocc. lia. }
    unfold tile in Hin. apply in_flat_map in Hin as (row & Hrow & Hk').
    apply slice_In in Hrow. apply slice_In in Hk'.
    rewrite Forall_forall in Hall.
    destruct (Hall row) as [_ Hnib]; [apply list_elem_of_In; assumption|].
    rewrite Forall_forall in Hnib. apply Hnib. apply list_elem_of_In. assumption.
Qed.

(** * Properties of [fmt] *)

Lemma color_name_some (k : Z) : named k -> is_Some (COLOR_NAMES !! k).
Proof.
  unfold named. intros Hk.
  assert (Hc : k = 0 \/ k = 1 \/ k = 2 \/ k = 3 \/ k = 4 \/ k = 5 \/ k = 6 \/ k = 7)
    by lia.
  repeat (destruct Hc as [->|Hc]; [vm_compute; eauto|]). subst. vm_compute. eauto.
Qed.

Lemma color_name_none (k : Z) : ~ named k -> COLOR_NAMES !! k = None.
Proof.
  unfold named. intros Hk. unfold COLOR_NAMES. cbn [list_to_map foldr fst snd].
  rewrite !lookup_insert_ne by lia. apply lookup_empty.
Qed.

Lemma palette_some (k : Z) :
  named k -> exists rgb, index_py PALETTE_RGB k = Ok rgb
                         /\ PALETTE_RGB !! Z.to_nat k = Some rgb.
Proof.
  unfold named. intros Hk.
  assert (Hc : k = 0 \/ k = 1 \/ k = 2 \/ k = 3 \/ k = 4 \/ k = 5 \/ k = 6 \/ k = 7)
    by lia.
  repeat (destruct Hc as [->|Hc]; [eexists; split; reflexivity|]).
  subst. eexists; split; reflexivity.
Qed.

Lemma insert_by_count_In (kv x : Z * Z) (l : list (Z * Z)) :
  In x (insert_by_count kv l) <-> x = kv \/ In x l.
Proof.
  induction l as [|y l IH]; simpl.
  - intuition congruence.
  - destruct (snd y <=? snd kv); simpl; rewrite ?IH; intuition congruence.
Qed.

Lemma sorted_by_count_In (x : Z * Z) (l : list (Z * Z)) :
  In x (sorted_by_count l) <-> In x l.
Proof.
  induction l as [|y l IH]; simpl; [reflexivity|].
  rewrite insert_by_count_In, IH. intuition congruence.
Qed.

(** The loop of line 82 over items whose keys all have a name. *)
Lemma parts_loop_ok (l : list (Z * Z)) (acc : list string) :
  (forall kv, In kv l -> named (fst kv)) ->
  for_each l
    (fun acc kv =>
       match COLOR_NAMES !! fst kv with
       | Some name => Ok (acc ++ [name +:+ "=" +:+ str_int (snd kv)])
       | None => Raise KeyError
       end) acc
  = Ok (acc ++ map part_of l).
Proof.
  revert acc. induction l as [|kv l IH]; intros acc Hl; cbn [for_each map].
  - rewrite app_nil_r. reflexivity.
  - destruct (color_name_some (fst kv)) as [name Hname]; [apply Hl; left; reflexivity|].
    change (part_of kv)
      with (default "" (COLOR_NAMES !! fst kv) +:+ "=" +:+ str_int (snd kv)).
    rewrite Hname. cbn [bind].
    rewrite IH by (intros kv' Hkv'; apply Hl; right; assumption).
    rewrite <- app_assoc. reflexivity.
Qed.

(** The same loop over items one of whose keys has no name. *)
Lemma parts_loop_key_error (l : list (Z * Z)) (acc : list string) :
  (exists kv, In kv l /\ ~ named (fst kv)) ->
  for_each l
    (fun acc kv =>
       match COLOR_NAMES !! fst kv with
       | Some name => Ok (acc ++ [name +:+ "=" +:+ str_int (snd kv)])
       | None => Raise KeyError
       end) acc
  = Raise KeyError.
Proof.
  revert acc. induction l as [|kv l IH]; intros acc (bad & Hin & Hbad).
  - destruct Hin.
  - simpl. destruct (COLOR_NAMES !! fst kv) as [name|] eqn:E; [|reflexivity].
    simpl. apply IH. destruct Hin as [->|Hin]; [|eauto].
    rewrite color_name_none in E by assumption. discriminate.
Qed.

Lemma max_by_In (key : Z -> Z) (ks : list Z) (k0 : Z) :
  In (max_by key k0 ks) (k0 :: ks).
Proof.
  unfold max_by. revert k0. induction ks as [|k ks IH]; intros k0; simpl.
  - left. reflexivity.
  - destruct (key k0 <? key k).
    + right. apply IH.
    + destruct (IH k0) as [H|H]; [left; exact H|right; right; exact H].
Qed.

Lemma fmt_ok_of_named (frame : Z) (counts : list (Z * Z)) :
  (forall kv, In kv counts -> named (fst kv)) ->
  exists line, fmt frame counts = Ok line.
Proof.
  intros Hc.
  destruct counts as [|[k0 v0] rest]; [eexists; reflexivity|].
  unfold fmt. cbn [map fst].
  remember ((k0, v0) :: rest) as counts eqn:Ec.
  rewrite parts_loop_ok
    by (intros kv Hkv; apply Hc, sorted_by_count_In; assumption).
  cbn [bind].
  set (dom := max_by _ _ _).
  destruct (palette_some dom) as ([[r g] b] & Hrgb & _).
  { pose proof (max_by_In (fun k => default 0 (od_get counts k)) (map fst rest) k0)
      as Hin. fold dom in Hin.
    change (k0 :: map fst rest) with (map fst ((k0, v0) :: rest)) in Hin.
    rewrite <- Ec in Hin. apply in_map_iff in Hin as (kv & Hkv1 & Hkv).
    rewrite <- Hkv1.
    apply Hc. assumption. }
  rewrite Hrgb. cbn [bind]. eexists. reflexivity.
Qed.

Lemma fmt_key_error_of_unnamed (frame : Z) (counts : list (Z * Z)) (bad : Z * Z) :
  In bad counts -> ~ named (fst bad) ->
  fmt frame counts = Raise KeyError.
Proof.
  intros Hin Hbad.
  destruct counts as [|[k0 v0] rest]; [destruct Hin|].
  unfold fmt. cbn [map fst].
  rewrite parts_loop_key_error; [reflexivity|].
  exists bad. split; [apply sorted_by_count_In|]; assumption.
Qed.

(** X19. [fmt] returns a line for every dict whose keys are among the
    eight named indices 0-7, the empty dict included. *)
Theorem fmt_named_ok (frame : Z) (counts : list (Z * Z)) :
  Forall (fun kv => named (fst kv)) counts ->
  exists line, fmt frame counts = Ok line.
Proof.
  intros Hc. apply fmt_ok_of_named. intros kv Hkv.
  rewrite Forall_forall in Hc. apply Hc, list_elem_of_In. assumption.
Qed.

(** X20. [fmt] raises KeyError for every dict with a key outside 0-7:
    [COLOR_NAMES] has no name for it. *)
Theorem fmt_unnamed_key_error (frame : Z) (counts : list (Z * Z)) :
  Exists (fun kv => ~ named (fst kv)) counts ->
  fmt frame counts = Raise KeyError.
Proof.
  intros Hbad. apply Exists_exists in Hbad as (bad & Hin & Hbad).
  apply list_elem_of_In in Hin.
  exact (fmt_key_error_of_unnamed frame counts bad Hin Hbad).
Qed.

(** ** The dominant colour and the order of the parts *)

Lemma first_max_In (l : list (Z * Z)) (x : Z * Z) : In (first_max x l) (x :: l).
Proof.
  revert x. induction l as [|y l IH]; intros x; simpl.
  - left. reflexivity.
  - destruct (snd (first_max y l) <=? snd x); [left; reflexivity|].
    right. apply IH.
Qed.

Lemma first_max_ge (l : list (Z * Z)) (x : Z * Z) :
  Forall (fun kv => snd kv <= snd (first_max x l)) (x :: l).
Proof.
  revert x. induction l as [|y l IH]; intros x.
  - constructor; [simpl; lia|constructor].
  - specialize (IH y). cbn [first_max].
    destruct (Z.leb_spec (snd (first_max y l)) (snd x)) as [Hle|Hgt].
    + constructor; [lia|].
      eapply Forall_impl; [exact IH|]. intros kv Hkv. simpl in Hkv. lia.
    + constructor; [lia|exact IH].
Qed.

Lemma sorted_by_count_head (l : list (Z * Z)) (x : Z * Z) :
  exists t, sorted_by_count (x :: l) = first_max x l :: t.
Proof.
  revert x. induction l as [|y l IH]; intros x.
  - exists []. reflexivity.
  - destruct (IH y) as [t Ht].
    change (sorted_by_count (x :: y :: l))
      with (insert_by_count x (sorted_by_count (y :: l))).
    rewrite Ht. cbn [insert_by_count first_max].
    destruct (snd (first_max y l) <=? snd x); eauto.
Qed.

Lemma max_items_first_max (l : list (Z * Z)) (x : Z * Z) :
  fold_left (fun best kv => if snd best <? snd kv then kv else best) l x
  = first_max x l.
Proof.
  revert x. induction l as [|y l IH]; intros x; [reflexivity|].
  cbn [fold_left first_max].
  pose proof (first_max_ge l y) as Hge. apply Forall_cons in Hge as [Hy _].
  destruct (Z.ltb_spec (snd x) (snd y)) as [Hlt|Hle].
  - rewrite IH. destruct (Z.leb_spec (snd (first_max y l)) (snd x)); [lia|reflexivity].
  - rewrite IH. destruct l as [|z l].
    + simpl. destruct (Z.leb_spec (snd y) (snd x)); [reflexivity|lia].
    + cbn [first_max].
      destruct (Z.leb_spec (snd (first_max z l)) (snd y)) as [H1|H1];
        destruct (Z.leb_spec (snd (first_max z l)) (snd x)) as [H2|H2];
        try reflexivity; try lia;
        destruct (Z.leb_spec (snd y) (snd x)); try reflexivity; lia.
Qed.

Lemma max_by_items (key : Z -> Z) (l : list (Z * Z)) (x : Z * Z) :
  (forall kv, In kv (x :: l) -> key (fst kv) = snd kv) ->
  max_by key (fst x) (map fst l)
  = fst (fold_left (fun best kv => if snd best <? snd kv then kv else best) l x).
Proof.
  unfold max_by. revert x. induction l as [|y l IH]; intros x Hkey; [reflexivity|].
  cbn [map fold_left].
  rewrite (Hkey x) by (left; reflexivity).
  rewrite (Hkey y) by (right; left; reflexivity).
  destruct (snd x <? snd y).
  - apply IH. intros kv Hkv. apply Hkey. right. exact Hkv.
  - apply IH. intros kv [<-|Hkv]; apply Hkey; [left|right; right]; auto.
Qed.

Lemma od_get_NoDup (d : list (Z * Z)) (k v : Z) :
  List.NoDup (map fst d) -> In (k, v) d -> od_get d k = Some v.
Proof.
  induction d as [|[k0 v0] d IH]; simpl; intros Hnd Hin; [destruct Hin|].
  apply List.NoDup_cons_iff in Hnd as [Hk0 Hnd].
  destruct Hin as [[= -> ->]|Hin].
  - rewrite Z.eqb_refl. reflexivity.
  - destruct (Z.eqb_spec k0 k) as [->|_]; [|auto].
    exfalso. apply Hk0. apply in_map_iff. exists (k, v). auto.
Qed.

(** [sorted(..., key=lambda x: -x[1])]: a permutation, by falling count,
    and stable. *)
Lemma insert_by_count_perm (kv : Z * Z) (l : list (Z * Z)) :
  insert_by_count kv l ≡ₚ kv :: l.
Proof.
  induction l as [|y l IH]; simpl; [reflexivity|].
  destruct (snd y <=? snd kv); [reflexivity|].
  rewrite IH. apply Permutation_swap.
Qed.

Lemma sorted_by_count_perm (l : list (Z * Z)) : sorted_by_count l ≡ₚ l.
Proof.
  induction l as [|x l IH]; [reflexivity|].
  change (sorted_by_count (x :: l)) with (insert_by_count x (sorted_by_count l)).
  rewrite insert_by_count_perm, IH. reflexivity.
Qed.

Lemma insert_by_count_sorted (kv : Z * Z) (l : list (Z * Z)) :
  StronglySorted (fun a b => snd b <= snd a) l ->
  StronglySorted (fun a b => snd b <= snd a) (insert_by_count kv l).
Proof.
  induction 1 as [|y l Hl IH Hy]; simpl.
  - constructor; constructor.
  - destruct (Z.leb_spec (snd y) (snd kv)) as [Hle|Hgt].
    + constructor; [constructor; assumption|].
      constructor; [exact Hle|].
      eapply Forall_impl; [exact Hy|]. intros z Hz. simpl in Hz. lia.
    + constructor; [exact IH|].
      apply Forall_forall. intros z Hz.
      apply list_elem_of_In, insert_by_count_In in Hz. destruct Hz as [->|Hz]; [lia|].
      rewrite Forall_forall in Hy. apply Hy, list_elem_of_In. exact Hz.
Qed.

Lemma sorted_by_count_sorted (l : list (Z * Z)) :
  StronglySorted (fun a b => snd b <= snd a) (sorted_by_count l).
Proof.
  induction l as [|x l IH]; [constructor|].
  change (sorted_by_count (x :: l)) with (insert_by_count x (sorted_by_count l)).
  apply insert_by_count_sorted. exact IH.
Qed.

Lemma insert_by_count_stable (n : Z) (kv : Z * Z) (l : list (Z * Z)) :
  List.filter (fun x => snd x =? n) (insert_by_count kv l)
  = List.filter (fun x => snd x =? n) (kv :: l).
Proof.
  induction l as [|y l IH]; [reflexivity|].
  cbn [insert_by_count].
  destruct (Z.leb_spec (snd y) (snd kv)) as [Hle|Hgt]; [reflexivity|].
  cbn [List.filter] in *. rewrite IH.
  destruct (Z.eqb_spec (snd y) n), (Z.eqb_spec (snd kv) n); try reflexivity. lia.
Qed.

Lemma sorted_by_count_stable (n : Z) (l : list (Z * Z)) :
  List.filter (fun x => snd x =? n) (sorted_by_count l)
  = List.filter (fun x => snd x =? n) l.
Proof.
  induction l as [|x l IH]; [reflexivity|].
  change (sorted_by_count (x :: l)) with (insert_by_count x (sorted_by_count l)).
  rewrite insert_by_count_stable. cbn [List.filter]. rewrite IH. reflexivity.
Qed.

(** X21. For a non-empty dict with keys among 0-7, the line [fmt] returns
    names every colour of the dict once, by falling count and, among equal
    counts, in the order of the dict; it gives the sum of the counts as the
    pixel total, and ends with the hex colour of the palette entry of the
    colour named first, which has the greatest count. *)
Theorem fmt_line (frame : Z) (counts : list (Z * Z)) :
  counts <> [] ->
  List.NoDup (map fst counts) ->
  Forall (fun kv => named (fst kv)) counts ->
  exists k v rest r g b,
    sorted_by_count counts = (k, v) :: rest
    /\ (k, v) :: rest ≡ₚ counts
    /\ StronglySorted (fun a b => snd b <= snd a) ((k, v) :: rest)
    /\ (forall n, List.filter (fun kv => snd kv =? n) ((k, v) :: rest)
                  = List.filter (fun kv => snd kv =? n) counts)
    /\ Forall (fun kv => snd kv <= v) counts
    /\ PALETTE_RGB !! Z.to_nat k = Some (r, g, b)
    /\ fmt frame counts
       = Ok ("Frame " +:+ fmt_d 4 frame +:+ " (r" +:+ fmt_d 2 (frame / COLS)
             +:+ "c" +:+ fmt_d 2 (frame mod COLS) +:+ "): "
             +:+ fmt_d 3 (sum_values counts) +:+ "px | "
             +:+ join ", " (map part_of ((k, v) :: rest)) +:+ "  → #"
             +:+ fmt_02X r +:+ fmt_02X g +:+ fmt_02X b).
Proof.
  intros Hne Hnd Hnamed. destruct counts as [|x l]; [congruence|]. clear Hne.
  destruct (sorted_by_count_head l x) as [t Ht].
  destruct (first_max x l) as [k v] eqn:Efm.
  pose proof (first_max_ge l x) as Hge. rewrite Efm in Hge.
  pose proof (first_max_In l x) as Hin. rewrite Efm in Hin.
  assert (Hk : named k).
  { rewrite Forall_forall in Hnamed.
    apply (Hnamed (k, v)), list_elem_of_In. exact Hin. }
  destruct (palette_some k Hk) as ([[r g] b] & Hrgb & Hlook).
  exists k, v, t, r, g, b. split; [exact Ht|].
  split; [rewrite <- Ht; apply sorted_by_count_perm|].
  split; [rewrite <- Ht; apply sorted_by_count_sorted|].
  split; [intros n; rewrite <- Ht; apply sorted_by_count_stable|].
  split; [exact Hge|].
  split; [exact Hlook|].
  assert (Hdom : max_by (fun k => default 0 (od_get (x :: l) k)) (fst x) (map fst l)
                 = k).
  { rewrite max_by_items, max_items_first_max, Efm; [reflexivity|].
    intros [k' v'] Hkv. cbn [fst snd].
    rewrite (od_get_NoDup _ _ _ Hnd Hkv). reflexivity. }
  unfold fmt. cbn [map]. rewrite Hdom.
  rewrite parts_loop_ok.
  - cbn [bind app]. rewrite Ht, Hrgb. reflexivity.
  - intros kv Hkv. rewrite Forall_forall in Hnamed.
    apply Hnamed, list_elem_of_In, sorted_by_count_In. exact Hkv.
Qed.

(** ** [analyze] followed by [fmt] *)

Lemma tally_background (vs : list Z) :
  Forall (fun v => v = BG_IDX) vs -> fold_left count_pixel vs [] = [].
Proof.
  induction 1 as [|v vs Hv _ IH]; [reflexivity|].
  cbn [fold_left]. unfold count_pixel at 2. subst v. exact IH.
Qed.

(** X22. When the tile of a frame holds an index outside 0-7 (the sheet is
    4-bit, so 8-15 can occur), [analyze] counts it and [fmt] raises KeyError
    on the result: no line is made for that frame. *)
Theorem fmt_after_analyze_key_error (pixels : list (list Z)) (W H frame v : Z) :
  len pixels = H -> Forall (fun r => len r = W) pixels ->
  0 <= frame < COLS * ROWS ->
  In v (tile pixels W H frame) -> ~ named v ->
  exists counts,
    analyze pixels W H frame = Ok counts
    /\ fmt frame counts = Raise KeyError.
Proof.
  intros HH HW Hf Hv Hbad.
  destruct (analyze_tally pixels W H frame HH HW Hf) as (counts & Hc & Hget).
  exists counts. split; [assumption|].
  apply fmt_key_error_of_unnamed
    with (bad := (v, occurrences v (tile pixels W H frame))); [|exact Hbad].
  apply od_get_In. rewrite Hget.
  destruct (Z.eqb_spec v BG_IDX) as [->|_];
    [exfalso; apply Hbad; unfold named, BG_IDX; lia|].
  apply (count_occ_In Z.eq_dec) in Hv.
  destruct (Z.eqb_spec (occurrences v (tile pixels W H frame)) 0) as [H0|_];
    [unfold occurrences in H0; lia|reflexivity].
Qed.

(** X23. For a sheet of [H] rows of [W] pixels and a frame of the grid, the
    counts are empty, and the line [fmt] makes ends in EMPTY, exactly when
    every pixel of the tile has the background index 7. *)
Theorem analyze_empty_iff_background (pixels : list (list Z)) (W H frame : Z) :
  len pixels = H -> Forall (fun r => len r = W) pixels ->
  0 <= frame < COLS * ROWS ->
  exists counts,
    analyze pixels W H frame = Ok counts
    /\ (counts = [] <-> Forall (fun v => v = BG_IDX) (tile pixels W H frame))
    /\ (counts = [] ->
        fmt frame counts
        = Ok ("Frame " +:+ fmt_d 4 frame +:+ " (r" +:+ fmt_d 2 (frame / COLS)
              +:+ "c" +:+ fmt_d 2 (frame mod COLS) +:+ "): EMPTY")).
Proof.
  intros HH HW Hf.
  destruct (analyze_tally pixels W H frame HH HW Hf) as (counts & Hc & Hget).
  exists counts. split; [assumption|]. split; [split|].
  - intros ->. apply Forall_forall. intros v Hv. apply list_elem_of_In in Hv.
    destruct (Z.eq_dec v BG_IDX) as [|Hne]; [assumption|exfalso].
    specialize (Hget v). simpl in Hget.
    destruct (Z.eqb_spec v BG_IDX); [contradiction|].
    apply (count_occ_In Z.eq_dec) in Hv.
    destruct (Z.eqb_spec (occurrences v (tile pixels W H frame)) 0) as [H0|_];
      [unfold occurrences in H0; lia|discriminate].
  - intros Hall. rewrite analyze_in_bounds in Hc by assumption.
    injection Hc as <-. apply tally_background. assumption.
  - intros ->. reflexivity.
Qed.

(** * Properties of [main] *)

(** ** The counts of all frames *)

Lemma for_each_collect {A B : Type} (xs : list A) (g : A -> outcome B)
    (h : A -> B) (acc : list B) :
  (forall x, In x xs -> g x = Ok (h x)) ->
  for_each xs (fun acc x => do c <- g x; Ok (acc ++ [c])) acc
  = Ok (acc ++ map h xs).
Proof.
  revert acc. induction xs as [|x xs IH]; intros acc Hg; cbn [for_each map].
  - rewrite app_nil_r. reflexivity.
  - rewrite Hg by (left; reflexivity). cbn [bind].
    rewrite IH by (intros y Hy; apply Hg; right; exact Hy).
    rewrite <- app_assoc. reflexivity.
Qed.

Lemma sheet_ok_shape (pixels : list (list Z)) (W H : Z) :
  sheet_ok pixels W H ->
  len pixels = H /\ Forall (fun r => len r = W) pixels.
Proof.
  intros [HH Hrows]. split; [assumption|].
  eapply Forall_impl; [exact Hrows|]. intros r [Hr _]. exact Hr.
Qed.

Lemma frame_counts_in_bounds (pixels : list (list Z)) (W H f : Z) :
  sheet_ok pixels W H -> 0 <= f < COLS * ROWS ->
  analyze pixels W H f = Ok (frame_counts pixels W H f)
  /\ frame_counts pixels W H f = fold_left count_pixel (tile pixels W H f) [].
Proof.
  intros Hok Hf. destruct (sheet_ok_shape _ _ _ Hok) as [HH HW].
  unfold frame_counts. rewrite analyze_in_bounds by assumption. auto.
Qed.

Lemma all_frames_ok (pixels : list (list Z)) (W H : Z) :
  sheet_ok pixels W H ->
  all_frames pixels W H
  = Ok (map (frame_counts pixels W H) (range_Z 0 (COLS * ROWS))).
Proof.
  intros Hok. unfold all_frames.
  rewrite (for_each_collect _ _ (frame_counts pixels W H)); [reflexivity|].
  intros f Hf. apply range_Z_In in Hf.
  apply frame_counts_in_bounds; assumption.
Qed.

Lemma range_Z_0_lookup (n : Z) (i : nat) :
  (i < Z.to_nat n)%nat -> range_Z 0 n !! i = Some (Z.of_nat i).
Proof.
  intros Hi. unfold range_Z. rewrite Z.sub_0_r.
  rewrite list_lookup_fmap, lookup_seq_lt by assumption. reflexivity.
Qed.

Lemma range_Z_0_length (n : Z) : length (range_Z 0 n) = Z.to_nat n.
Proof. unfold range_Z. rewrite length_map, length_seq. f_equal. lia. Qed.

(** [all_counts[f]] for a frame number of either sign. *)
Lemma all_counts_index {B : Type} (h : Z -> B) (f : Z) :
  - (COLS * ROWS) <= f < COLS * ROWS ->
  index_py (map h (range_Z 0 (COLS * ROWS))) f = Ok (h (f mod (COLS * ROWS))).
Proof.
  intros Hf. change (COLS * ROWS) with 1078 in *.
  assert (Hlen : len (map h (range_Z 0 1078)) = 1078).
  { unfold len. rewrite length_map, range_Z_0_length. reflexivity. }
  assert (Hget : forall i, 0 <= i < 1078 ->
                   index (map h (range_Z 0 1078)) i = Ok (h i)).
  { intros i Hi. unfold index.
    change (map h (range_Z 0 1078)) with (h <$> range_Z 0 1078).
    rewrite list_lookup_fmap, range_Z_0_lookup by lia. simpl.
    rewrite Z2Nat.id by lia. reflexivity. }
  unfold index_py. rewrite Hlen.
  destruct (Z.leb_spec 0 f).
  - rewrite Z.mod_small by lia. apply Hget. lia.
  - destruct (Z.leb_spec 0 (1078 + f)); [|lia].
    replace (f mod 1078) with (1078 + f).
    + apply Hget. lia.
    + apply (Z.mod_unique f 1078 (-1)); lia.
Qed.

Lemma all_counts_index_out {B : Type} (h : Z -> B) (f : Z) :
  f < - (COLS * ROWS) \/ COLS * ROWS <= f ->
  index_py (map h (range_Z 0 (COLS * ROWS))) f = Raise IndexError.
Proof.
  intros Hf. change (COLS * ROWS) with 1078 in *.
  assert (Hlen : len (map h (range_Z 0 1078)) = 1078).
  { unfold len. rewrite length_map, range_Z_0_length. reflexivity. }
  unfold index_py. rewrite Hlen.
  destruct (Z.leb_spec 0 f).
  - unfold index. rewrite lookup_ge_None_2; [reflexivity|].
    rewrite length_map, range_Z_0_length. lia.
  - destruct (Z.leb_spec 0 (1078 + f)); [lia|reflexivity].
Qed.

(** ** Names for all keys *)

Lemma tally_named (vs : list Z) (c : list (Z * Z)) :
  Forall named vs -> Forall (fun kv => named (fst kv)) c ->
  Forall (fun kv => named (fst kv)) (fold_left count_pixel vs c).
Proof.
  intros Hvs. revert c. induction Hvs as [|v vs Hv _ IH]; intros c Hc; [exact Hc|].
  cbn [fold_left]. apply IH. unfold count_pixel.
  destruct (v =? BG_IDX); [exact Hc|]. apply od_set_Forall; assumption.
Qed.

Lemma tile_named (pixels : list (list Z)) (W H f : Z) :
  sheet_ok pixels W H -> Forall named (tile pixels W H f).
Proof.
  intros [_ Hrows]. apply Forall_forall. intros v Hv.
  apply list_elem_of_In in Hv. unfold tile in Hv.
  apply in_flat_map in Hv as (row & Hrow & Hv).
  apply slice_In in Hrow. apply slice_In in Hv.
  rewrite Forall_forall in Hrows.
  destruct (Hrows row) as [_ Hn]; [apply list_elem_of_In; assumption|].
  rewrite Forall_forall in Hn. apply Hn, list_elem_of_In. assumption.
Qed.

Lemma frame_counts_fmt (pixels : list (list Z)) (W H f g : Z) :
  sheet_ok pixels W H -> 0 <= f < COLS * ROWS ->
  exists l, fmt g (frame_counts pixels W H f) = Ok l.
Proof.
  intros Hok Hf. apply fmt_ok_of_named.
  destruct (frame_counts_in_bounds pixels W H f Hok Hf) as [_ ->].
  assert (Hn : Forall (fun kv : Z * Z => named (fst kv))
                 (fold_left count_pixel (tile pixels W H f) []))
    by (apply tally_named; [apply tile_named; assumption|constructor]).
  intros kv Hkv. rewrite Forall_forall in Hn. apply Hn, list_elem_of_In. assumption.
Qed.

(** ** Printing loops *)

Lemma omap_cons_eq {A B : Type} (h : A -> option B) (x : A) (xs : list A) :
  omap h (x :: xs)
  = match h x with
    | Some y => y :: omap h xs
    | None => omap h xs
    end.
Proof. reflexivity. Qed.

Lemma print_each_omap {A : Type} (xs : list A) (line : A -> outcome (option string))
    (h : A -> option string) (out : list string) :
  (forall x, In x xs -> line x = Ok (h x)) ->
  print_each xs line out = (out ++ omap h xs, Ok tt).
Proof.
  revert out. induction xs as [|x xs IH]; intros out Hl.
  - cbn [print_each]. change (omap h []) with (@nil string).
    rewrite app_nil_r. reflexivity.
  - cbn [print_each]. rewrite Hl by (left; reflexivity).
    rewrite omap_cons_eq. destruct (h x) as [l|].
    + rewrite IH by (intros y Hy; apply Hl; right; exact Hy).
      rewrite <- app_assoc. reflexivity.
    + apply IH. intros y Hy. apply Hl. right. exact Hy.
Qed.

Lemma print_each_raise {A : Type} (pre post : list A) (x : A)
    (line : A -> outcome (option string)) (h : A -> option string)
    (out : list string) (e : exn) :
  (forall p, In p pre -> line p = Ok (h p)) ->
  line x = Raise e ->
  print_each (pre ++ x :: post) line out = (out ++ omap h pre, Raise e).
Proof.
  revert out. induction pre as [|p pre IH]; intros out Hl Hx; cbn [app print_each].
  - rewrite Hx. change (omap h []) with (@nil string).
    rewrite app_nil_r. reflexivity.
  - rewrite Hl by (left; reflexivity).
    rewrite omap_cons_eq. destruct (h p) as [l|].
    + rewrite IH by (try assumption; intros y Hy; apply Hl; right; exact Hy).
      rewrite <- app_assoc. reflexivity.
    + apply IH; [|assumption]. intros y Hy. apply Hl. right. exact Hy.
Qed.

(** The line of [--frame f]: the frame number as given, the counts of the
    tile [all_counts[f]] stands for. *)
Lemma frame_mode_line (pixels : list (list Z)) (W H f : Z) :
  sheet_ok pixels W H ->
  - (COLS * ROWS) <= f < COLS * ROWS ->
  exists l,
    fmt f (frame_counts pixels W H (f mod (COLS * ROWS))) = Ok l
    /\ (do cc <- index_py (map (frame_counts pixels W H) (range_Z 0 (COLS * ROWS))) f;
        do l <- fmt f cc; Ok (Some l)) = Ok (Some l).
Proof.
  intros Hok Hf.
  assert (Hm : 0 <= f mod (COLS * ROWS) < COLS * ROWS)
    by (apply Z.mod_pos_bound; reflexivity).
  destruct (frame_counts_fmt pixels W H (f mod (COLS * ROWS)) f Hok Hm) as [l Hl].
  exists l. split; [exact Hl|].
  rewrite all_counts_index by assumption. cbn [bind]. rewrite Hl. reflexivity.
Qed.

Lemma frame_mode_lines (pixels : list (list Z)) (W H : Z) (frames : list Z) :
  sheet_ok pixels W H ->
  Forall (fun f => - (COLS * ROWS) <= f < COLS * ROWS) frames ->
  exists lines,
    (forall out,
       print_each frames
         (fun f =>
            do cc <- index_py (map (frame_counts pixels W H)
                                 (range_Z 0 (COLS * ROWS))) f;
            do l <- fmt f cc; Ok (Some l)) out
       = (out ++ lines, Ok tt))
    /\ (forall post out,
          print_each (frames ++ post)
            (fun f =>
               do cc <- index_py (map (frame_counts pixels W H)
                                    (range_Z 0 (COLS * ROWS))) f;
               do l <- fmt f cc; Ok (Some l)) out
          = print_each post
              (fun f =>
                 do cc <- index_py (map (frame_counts pixels W H)
                                      (range_Z 0 (COLS * ROWS))) f;
                 do l <- fmt f cc; Ok (Some l)) (out ++ lines))
    /\ Forall2 (fun f l =>
                 exists counts,
                   analyze pixels W H (f mod (COLS * ROWS)) = Ok counts
                   /\ fmt f counts = Ok l) frames lines.
Proof.
  intros Hok. induction 1 as [|f frames Hf _ (lines & Hrun & Happ & Hall)].
  - exists []. split; [|split].
    + intros out. rewrite app_nil_r. reflexivity.
    + intros post out. rewrite app_nil_r. reflexivity.
    + constructor.
  - destruct (frame_mode_line pixels W H f Hok Hf) as (l & Hl & Hline).
    exists (l :: lines). split; [|split].
    + intros out. cbn [print_each]. rewrite Hline, Hrun, <- app_assoc. reflexivity.
    + intros post out. cbn [app print_each]. rewrite Hline, (Happ post).
      rewrite <- app_assoc. reflexivity.
    + constructor; [|exact Hall].
      exists (frame_counts pixels W H (f mod (COLS * ROWS))). split; [|exact Hl].
      apply frame_counts_in_bounds; [assumption|].
      apply Z.mod_pos_bound. reflexivity.
Qed.

(** X24. With [--frame], on a sheet of named colours, [main] prints one
    line per number given, in the order given, and ends normally, for
    numbers from -1078 to 1077: the line shows the number as given and the
    counts of the tile [all_counts[f]] is, which for a negative number is
    tile [f + 1078]. *)
Theorem main_frame_mode (decompress : list byte -> option (list byte))
    (data : list byte) (args : cli_args) (px : list (list Z)) (W H f0 : Z)
    (fs : list Z) :
  load_png decompress data = Ok (px, W, H) ->
  sheet_ok px W H ->
  a_frame args = Some (f0 :: fs) ->
  Forall (fun f => - (COLS * ROWS) <= f < COLS * ROWS) (f0 :: fs) ->
  exists lines,
    main decompress data args = (lines, Ok tt)
    /\ Forall2 (fun f l =>
                 exists counts,
                   analyze px W H (f mod (COLS * ROWS)) = Ok counts
                   /\ fmt f counts = Ok l) (f0 :: fs) lines.
Proof.
  intros Hload Hok Hframe Hin.
  destruct (frame_mode_lines px W H (f0 :: fs) Hok Hin) as (lines & Hrun & _ & Hall).
  exists lines. split; [|exact Hall].
  unfold main. rewrite Hload. cbn [bind]. rewrite all_frames_ok by assumption.
  rewrite Hframe. apply (Hrun []).
Qed.

(** X25. With [--frame], a number below -1078 or above 1077 makes [main]
    end in IndexError; the lines of the numbers before it have been
    printed by then. *)
Theorem main_frame_out_of_range (decompress : list byte -> option (list byte))
    (data : list byte) (args : cli_args) (px : list (list Z)) (W H f : Z)
    (pre post : list Z) :
  load_png decompress data = Ok (px, W, H) ->
  sheet_ok px W H ->
  a_frame args = Some (pre ++ f :: post) ->
  Forall (fun f => - (COLS * ROWS) <= f < COLS * ROWS) pre ->
  f < - (COLS * ROWS) \/ COLS * ROWS <= f ->
  exists lines,
    main decompress data args = (lines, Raise IndexError)
    /\ Forall2 (fun f l =>
                 exists counts,
                   analyze px W H (f mod (COLS * ROWS)) = Ok counts
                   /\ fmt f counts = Ok l) pre lines.
Proof.
  intros Hload Hok Hframe Hin Hout.
  destruct (frame_mode_lines px W H pre Hok Hin) as (lines & _ & Happ & Hall).
  exists lines. split; [|exact Hall].
  unfold main. rewrite Hload. cbn [bind]. rewrite all_frames_ok by assumption.
  rewrite Hframe.
  destruct (pre ++ f :: post) as [|g gs] eqn:E;
    [destruct pre; discriminate|].
  rewrite <- E, (Happ (f :: post) []). cbn [print_each app].
  rewrite all_counts_index_out by assumption. reflexivity.
Qed.

Lemma enumerate_range {B : Type} (h : Z -> B) (n : Z) :
  enumerate (map h (range_Z 0 n)) = map (fun f => (f, h f)) (range_Z 0 n).
Proof.
  unfold enumerate. apply list_eq. intros i.
  rewrite list_lookup_imap.
  change (map h (range_Z 0 n)) with (h <$> range_Z 0 n).
  change (map (fun f => (f, h f)) (range_Z 0 n))
    with ((fun f => (f, h f)) <$> range_Z 0 n).
  rewrite !list_lookup_fmap.
  destruct (Nat.lt_ge_cases i (Z.to_nat n)) as [Hi|Hi].
  - rewrite range_Z_0_lookup by assumption. reflexivity.
  - rewrite lookup_ge_None_2 by (rewrite range_Z_0_length; assumption).
    reflexivity.
Qed.

Lemma print_each_map {A B : Type} (g : A -> B) (xs : list A)
    (line : B -> outcome (option string)) (out : list string) :
  print_each (map g xs) line out = print_each xs (fun x => line (g x)) out.
Proof.
  revert out. induction xs as [|x xs IH]; intros out; cbn [map print_each];
    [reflexivity|].
  destruct (line (g x)) as [[l|]| |]; auto.
Qed.

(** X26. Without [--frame] and without a colour flag, on a sheet of named
    colours, [main] prints the heading and then, by rising frame number,
    one indented line for each of the 1078 frames whose tile is not all
    background, and ends normally. *)
Theorem main_all_frames (decompress : list byte -> option (list byte))
    (data : list byte) (args : cli_args) (px : list (list Z)) (W H : Z) :
  load_png decompress data = Ok (px, W, H) ->
  sheet_ok px W H ->
  a_frame args = None ->
  chosen_color args = None ->
  main decompress data args
  = (["All non-empty frames in colored_packed.png (49×22, 1078 total):"%string]
     ++ omap (report_line px W H) (range_Z 0 (COLS * ROWS)), Ok tt).
Proof.
  intros Hload Hok Hframe Hcolor.
  unfold main. rewrite Hload. cbn [bind]. rewrite all_frames_ok by assumption.
  rewrite Hframe, Hcolor, enumerate_range, print_each_map.
  apply print_each_omap. intros f Hf. apply range_Z_In in Hf. cbn [fst snd].
  unfold report_line.
  destruct (frame_counts px W H f) as [|c cs] eqn:E; [reflexivity|].
  destruct (frame_counts_fmt px W H f f Hok Hf) as [l Hl].
  rewrite E in Hl. rewrite Hl. reflexivity.
Qed.

(** ** The ranking *)

Lemma pair_le_spec (x y : Z * Z) :
  pair_le x y = true <-> fst x < fst y \/ (fst x = fst y /\ snd x <= snd y).
Proof.
  unfold pair_le.
  destruct (Z.ltb_spec (fst x) (fst y)), (Z.eqb_spec (fst x) (fst y)),
    (Z.leb_spec (snd x) (snd y)); simpl; split; intros; try lia; auto;
    discriminate.
Qed.

Lemma insert_desc_perm (x : Z * Z) (l : list (Z * Z)) : insert_desc x l ≡ₚ x :: l.
Proof.
  induction l as [|y l IH]; simpl; [reflexivity|].
  destruct (pair_le y x); [reflexivity|].
  rewrite IH. apply Permutation_swap.
Qed.

Lemma sorted_desc_perm (l : list (Z * Z)) : sorted_desc l ≡ₚ l.
Proof.
  induction l as [|x l IH]; simpl; [reflexivity|].
  rewrite insert_desc_perm, IH. reflexivity.
Qed.

Lemma insert_desc_sorted (x : Z * Z) (l : list (Z * Z)) :
  StronglySorted (fun a b => fst b < fst a \/ (fst b = fst a /\ snd b <= snd a)) l ->
  StronglySorted (fun a b => fst b < fst a \/ (fst b = fst a /\ snd b <= snd a))
    (insert_desc x l).
Proof.
  induction 1 as [|y l Hl IH Hy]; simpl.
  - constructor; constructor.
  - destruct (pair_le y x) eqn:E.
    + apply pair_le_spec in E. constructor; [constructor; assumption|].
      constructor; [exact E|].
      eapply Forall_impl; [exact Hy|]. intros z Hz. simpl in Hz. lia.
    + assert (Hxy : fst x < fst y \/ (fst x = fst y /\ snd x <= snd y)).
      { destruct (pair_le x y) eqn:E2; [apply pair_le_spec; exact E2|].
        exfalso. unfold pair_le in E, E2.
        destruct (Z.ltb_spec (fst y) (fst x)), (Z.eqb_spec (fst y) (fst x)),
          (Z.leb_spec (snd y) (snd x)), (Z.ltb_spec (fst x) (fst y)),
          (Z.eqb_spec (fst x) (fst y)), (Z.leb_spec (snd x) (snd y));
          simpl in *; try discriminate; lia. }
      constructor; [exact IH|].
      rewrite insert_desc_perm. constructor; assumption.
Qed.

Lemma sorted_desc_sorted (l : list (Z * Z)) :
  StronglySorted (fun a b => fst b < fst a \/ (fst b = fst a /\ snd b <= snd a))
    (sorted_desc l).
Proof.
  induction l as [|x l IH]; simpl; [constructor|].
  apply insert_desc_sorted. exact IH.
Qed.

Lemma slice_to_In {A : Type} (s : list A) (n : Z) (x : A) :
  In x (slice_to s n) -> In x s.
Proof.
  unfold slice_to. intros H. apply list_elem_of_In in H. apply list_elem_of_In.
  destruct (0 <=? n); eapply subseteq_take; eassumption.
Qed.

(** X27. With a colour flag and without [--frame], on a sheet of named
    colours, [main] ranks the 1078 frames by their count of that colour,
    greatest first and the higher frame number first among equal counts,
    cuts the ranking with [[:top]], and prints the heading and then an
    indented line for each frame left whose count is above 0; it ends
    normally. *)
Theorem main_ranked (decompress : list byte -> option (list byte))
    (data : list byte) (args : cli_args) (px : list (list Z)) (W H color : Z)
    (label : string) :
  load_png decompress data = Ok (px, W, H) ->
  sheet_ok px W H ->
  a_frame args = None ->
  chosen_color args = Some (color, label) ->
  exists ranked,
    ranked ≡ₚ map (fun f => (default 0 (od_get (frame_counts px W H f) color), f))
                (range_Z 0 (COLS * ROWS))
    /\ StronglySorted
         (fun a b => fst b < fst a \/ (fst b = fst a /\ snd b <= snd a)) ranked
    /\ main decompress data args
       = (["Top " +:+ str_int (a_top args) +:+ " frames by " +:+ label
           +:+ " pixel count:"]
          ++ omap (fun nf => if 0 <? fst nf then report_line px W H (snd nf)
                             else None)
               (slice_to ranked (a_top args)), Ok tt).
Proof.
  intros Hload Hok Hframe Hcolor.
  set (pairs := map (fun f => (default 0 (od_get (frame_counts px W H f) color), f))
                  (range_Z 0 (COLS * ROWS))).
  exists (sorted_desc pairs).
  split; [apply sorted_desc_perm|]. split; [apply sorted_desc_sorted|].
  unfold main. rewrite Hload. cbn [bind]. rewrite all_frames_ok by assumption.
  rewrite Hframe, Hcolor, enumerate_range, map_map. cbn [fst snd]. fold pairs.
  apply print_each_omap. intros [n f] Hnf. cbn [fst snd].
  apply slice_to_In in Hnf. apply list_elem_of_In in Hnf.
  rewrite sorted_desc_perm in Hnf. apply list_elem_of_In in Hnf.
  unfold pairs in Hnf. apply in_map_iff in Hnf as (g & [= <- <-] & Hg).
  apply range_Z_In in Hg.
  destruct (Z.ltb_spec 0 (default 0 (od_get (frame_counts px W H g) color)))
    as [Hpos|_]; [|reflexivity].
  rewrite all_counts_index by (change (COLS * ROWS) with 1078 in *; lia).
  rewrite Z.mod_small by assumption. cbn [bind].
  unfold report_line.
  destruct (frame_counts px W H g) as [|c cs] eqn:E; [simpl in Hpos; lia|].
  destruct (frame_counts_fmt px W H g g Hok Hg) as [l Hl].
  rewrite E in Hl. rewrite Hl. reflexivity.
Qed.

(** * Runs on the examples *)

Ltac chunks_ok :=
  repeat (constructor;
          [split; [reflexivity
                  |split; [repeat constructor
                          |split; [reflexivity|vm_compute; reflexivity]]]|]);
  constructor.

Lemma Forall_forallb {A : Type} (P : A -> Prop) (t : A -> bool) (l : list A) :
  (forall x, t x = true -> P x) -> forallb t l = true -> Forall P l.
Proof.
  intros Ht. induction l as [|x l IH]; simpl; intros H; constructor.
  - apply Ht. apply andb_true_iff in H. tauto.
  - apply IH. apply andb_true_iff in H. tauto.
Qed.

Lemma sheet_ok_check (pixels : list (list Z)) (W H : Z) :
  (len pixels =? H)
  && forallb (fun r => (len r =? W) && forallb (fun v => (0 <=? v) && (v <=? 7)) r)
       pixels = true ->
  sheet_ok pixels W H.
Proof.
  intros Hc. apply andb_true_iff in Hc as [H1 H2]. split; [lia|].
  revert H2. apply Forall_forallb. intros r Hr.
  apply andb_true_iff in Hr as [Hr1 Hr2]. split; [lia|].
  revert Hr2. apply Forall_forallb. intros v Hv. unfold named. lia.
Qed.

Lemma shape_check (pixels : list (list Z)) (W : Z) :
  forallb (fun r => len r =? W) pixels = true ->
  Forall (fun r => len r = W) pixels.
Proof. apply Forall_forallb. intros r Hr. lia. Qed.

Lemma parse_chunks_groups_payloads_witness :
  let cs := [ihdr_2x1; idat_2x1_a; text_chunk; idat_2x1_b; iend] in
  length png_sig = 8%nat /\ Forall chunk_ok cs
  /\ exists m,
       parse_chunks (png_sig ++ flat_map encode_chunk cs) = Ok m
       /\ forall ty, m !! ty = match payloads_of ty cs with
                               | [] => None
                               | ps => Some ps
                               end.
Proof.
  intros cs.
  assert (H0 : length png_sig = 8%nat) by reflexivity.
  assert (H1 : Forall chunk_ok cs) by chunks_ok.
  exact (conj H0 (conj H1 (parse_chunks_groups_payloads png_sig cs H0 H1))).
Defined.

Lemma read_stream_first_ihdr_all_idat_witness :
  let cs := [ihdr_2x1; idat_2x1_a; text_chunk; idat_2x1_b; ihdr_short; iend] in
  let h := bytes [0; 0; 0; 2; 0; 0; 0; 1; 4; 3; 0; 0; 0] in
  length png_sig = 8%nat /\ Forall chunk_ok cs
  /\ payloads_of "IHDR" cs = [h; bytes [0; 0; 0]]
  /\ (8 <= length h)%nat
  /\ payloads_of "IDAT" cs <> []
  /\ ZlibStored.inflate (concat (payloads_of "IDAT" cs)) = Some (bytes [0; 171])
  /\ read_stream ZlibStored.inflate (png_sig ++ flat_map encode_chunk cs)
     = Ok (bytes [0; 171], be_uint (take 4 h), be_uint (take 4 (drop 4 h))).
Proof.
  intros cs h.
  assert (H0 : length png_sig = 8%nat) by reflexivity.
  assert (H1 : Forall chunk_ok cs) by chunks_ok.
  assert (H2 : payloads_of "IHDR" cs = [h; bytes [0; 0; 0]]) by reflexivity.
  assert (H3 : (8 <= length h)%nat) by (simpl; lia).
  assert (H4 : payloads_of "IDAT" cs <> []) by (vm_compute; discriminate).
  assert (H5 : ZlibStored.inflate (concat (payloads_of "IDAT" cs))
               = Some (bytes [0; 171])) by (vm_compute; reflexivity).
  exact (conj H0 (conj H1 (conj H2 (conj H3 (conj H4 (conj H5
           (read_stream_first_ihdr_all_idat ZlibStored.inflate png_sig cs h _ _
              H0 H1 H2 H3 H4 H5))))))).
Defined.

Lemma load_png_missing_ihdr_witness :
  let cs := [idat_2x1; iend] in
  length png_sig = 8%nat /\ Forall chunk_ok cs
  /\ payloads_of "IHDR" cs = []
  /\ load_png ZlibStored.inflate (png_sig ++ flat_map encode_chunk cs) = Raise KeyError.
Proof.
  intros cs.
  assert (H0 : length png_sig = 8%nat) by reflexivity.
  assert (H1 : Forall chunk_ok cs) by chunks_ok.
  assert (H2 : payloads_of "IHDR" cs = []) by reflexivity.
  exact (conj H0 (conj H1 (conj H2
           (load_png_missing_ihdr ZlibStored.inflate png_sig cs H0 H1 H2)))).
Defined.

Lemma load_png_missing_idat_witness :
  let cs := [ihdr_2x1; iend] in
  let h := bytes [0; 0; 0; 2; 0; 0; 0; 1; 4; 3; 0; 0; 0] in
  length png_sig = 8%nat /\ Forall chunk_ok cs
  /\ payloads_of "IHDR" cs = [h] /\ (8 <= length h)%nat
  /\ payloads_of "IDAT" cs = []
  /\ load_png ZlibStored.inflate (png_sig ++ flat_map encode_chunk cs) = Raise KeyError.
Proof.
  intros cs h.
  assert (H0 : length png_sig = 8%nat) by reflexivity.
  assert (H1 : Forall chunk_ok cs) by chunks_ok.
  assert (H2 : payloads_of "IHDR" cs = [h]) by reflexivity.
  assert (H3 : (8 <= length h)%nat) by (simpl; lia).
  assert (H4 : payloads_of "IDAT" cs = []) by reflexivity.
  exact (conj H0 (conj H1 (conj H2 (conj H3 (conj H4
           (load_png_missing_idat ZlibStored.inflate png_sig cs h [] H0 H1 H2 H3 H4)))))).
Defined.

Lemma load_png_short_ihdr_witness :
  let cs := [ihdr_short; idat_2x1; iend] in
  length png_sig = 8%nat /\ Forall chunk_ok cs
  /\ payloads_of "IHDR" cs = [bytes [0; 0; 0]]
  /\ (length (bytes [0; 0; 0]%Z) < 8)%nat
  /\ load_png ZlibStored.inflate (png_sig ++ flat_map encode_chunk cs)
     = Raise StructError.
Proof.
  intros cs.
  assert (H0 : length png_sig = 8%nat) by reflexivity.
  assert (H1 : Forall chunk_ok cs) by chunks_ok.
  assert (H2 : payloads_of "IHDR" cs = [bytes [0; 0; 0]]) by reflexivity.
  assert (H3 : (length (bytes [0; 0; 0]%Z) < 8)%nat) by (simpl; lia).
  exact (conj H0 (conj H1 (conj H2 (conj H3
           (load_png_short_ihdr ZlibStored.inflate png_sig cs _ [] H0 H1 H2 H3))))).
Defined.

Lemma load_png_zlib_error_witness :
  let cs := [ihdr_2x1; idat_garbage; iend] in
  let h := bytes [0; 0; 0; 2; 0; 0; 0; 1; 4; 3; 0; 0; 0] in
  length png_sig = 8%nat /\ Forall chunk_ok cs
  /\ payloads_of "IHDR" cs = [h] /\ (8 <= length h)%nat
  /\ payloads_of "IDAT" cs <> []
  /\ ZlibStored.inflate (concat (payloads_of "IDAT" cs)) = None
  /\ load_png ZlibStored.inflate (png_sig ++ flat_map encode_chunk cs)
     = Raise ZlibError.
Proof.
  intros cs h.
  assert (H0 : length png_sig = 8%nat) by reflexivity.
  assert (H1 : Forall chunk_ok cs) by chunks_ok.
  assert (H2 : payloads_of "IHDR" cs = [h]) by reflexivity.
  assert (H3 : (8 <= length h)%nat) by (simpl; lia).
  assert (H4 : payloads_of "IDAT" cs <> []) by (vm_compute; discriminate).
  assert (H5 : ZlibStored.inflate (concat (payloads_of "IDAT" cs)) = None)
    by (vm_compute; reflexivity).
  exact (conj H0 (conj H1 (conj H2 (conj H3 (conj H4 (conj H5
           (load_png_zlib_error ZlibStored.inflate png_sig cs h [] H0 H1 H2 H3 H4 H5))))))).
Defined.

Lemma load_png_no_chunks_witness :
  len (@nil byte) <= 8 /\ load_png ZlibStored.inflate [] = Raise KeyError.
Proof.
  assert (H0 : len (@nil byte) <= 8) by (vm_compute; discriminate).
  exact (conj H0 (load_png_no_chunks ZlibStored.inflate [] H0)).
Defined.

Lemma load_png_stray_bytes_witness :
  let cs := [ihdr_2x1; idat_2x1; iend] in
  length png_sig = 8%nat /\ Forall chunk_ok cs
  /\ (0 < length (bytes [0; 0]%Z) < 4)%nat
  /\ load_png ZlibStored.inflate (png_sig ++ flat_map encode_chunk cs ++ bytes [0; 0])
     = Raise StructError.
Proof.
  intros cs.
  assert (H0 : length png_sig = 8%nat) by reflexivity.
  assert (H1 : Forall chunk_ok cs) by chunks_ok.
  assert (H2 : (0 < length (bytes [0; 0]%Z) < 4)%nat) by (simpl; lia).
  exact (conj H0 (conj H1 (conj H2
           (load_png_stray_bytes ZlibStored.inflate png_sig cs _ H0 H1 H2)))).
Defined.

Lemma load_png_non_ascii_type_witness :
  let cs := [ihdr_2x1] in
  let lenb := bytes [0; 0; 0; 0] in
  let ty := bytes [73; 200; 65; 84] in
  length png_sig = 8%nat /\ Forall chunk_ok cs
  /\ length lenb = 4%nat /\ length ty = 4%nat
  /\ Exists (fun b => 128 <= byte_val b) ty
  /\ load_png ZlibStored.inflate
       (png_sig ++ flat_map encode_chunk cs ++ lenb ++ ty ++ bytes [0; 0; 0; 0])
     = Raise UnicodeDecodeError.
Proof.
  intros cs lenb ty.
  assert (H0 : length png_sig = 8%nat) by reflexivity.
  assert (H1 : Forall chunk_ok cs) by chunks_ok.
  assert (H2 : length lenb = 4%nat) by reflexivity.
  assert (H3 : length ty = 4%nat) by reflexivity.
  assert (H4 : Exists (fun b => 128 <= byte_val b) ty).
  { apply Exists_cons_tl, Exists_cons_hd. vm_compute. discriminate. }
  exact (conj H0 (conj H1 (conj H2 (conj H3 (conj H4
           (load_png_non_ascii_type ZlibStored.inflate png_sig cs lenb ty _
              H0 H1 H2 H3 H4)))))).
Defined.

Lemma decode_rows_missing_row_witness :
  0 <= 2 /\ 0 < 2 /\ len (bytes [0; 171]) <= (2 - 1) * (1 + row_bytes 2)
  /\ decode_rows (bytes [0; 171]) 2 2 = Raise IndexError.
Proof.
  assert (H0 : 0 <= 2) by lia.
  assert (H1 : 0 < 2) by lia.
  assert (H2 : len (bytes [0; 171]) <= (2 - 1) * (1 + row_bytes 2))
    by (vm_compute; discriminate).
  exact (conj H0 (conj H1 (conj H2 (decode_rows_missing_row _ 2 2 H0 H1 H2)))).
Defined.

Lemma decode_rows_ignores_surplus_witness :
  0 <= 2 /\ 0 <= 1 /\ 1 * (1 + row_bytes 2) <= len (bytes [0; 171])
  /\ decode_rows (bytes [0; 171] ++ bytes [9; 9]) 2 1
     = decode_rows (bytes [0; 171]) 2 1.
Proof.
  assert (H0 : 0 <= 2) by lia.
  assert (H1 : 0 <= 1) by lia.
  assert (H2 : 1 * (1 + row_bytes 2) <= len (bytes [0; 171]))
    by (vm_compute; discriminate).
  exact (conj H0 (conj H1 (conj H2
           (decode_rows_ignores_surplus _ (bytes [9; 9]) 2 1 H0 H1 H2)))).
Defined.

Lemma decode_rows_filtered_round_trip_witness :
  let rows := [(1, [10; 1; 11]); (2, [0; 15; 7]); (0, [3; 3; 3])] in
  Forall (fun r => (fst r = 0 \/ fst r = 1 \/ fst r = 2)
                   /\ len (snd r) = 3 /\ Forall nibble (snd r)) rows
  /\ encode_rows (replicate (Z.to_nat (row_bytes 3)) 0) rows
     = bytes [1; 161; 15; 2; 110; 192; 0; 51; 48]
  /\ decode_rows (encode_rows (replicate (Z.to_nat (row_bytes 3)) 0) rows) 3
       (len rows) = Ok (map snd rows).
Proof.
  intros rows.
  assert (H0 : Forall (fun r => (fst r = 0 \/ fst r = 1 \/ fst r = 2)
                                /\ len (snd r) = 3 /\ Forall nibble (snd r)) rows).
  { repeat constructor; simpl; unfold nibble; lia. }
  exact (conj H0 (conj eq_refl (decode_rows_filtered_round_trip rows 3 H0))).
Defined.

Lemma pixel_is_nibble_of_byte_witness :
  let st' := {| pixels := [[10; 1; 11; 2]]; prev := [161; 178]; idx := 3 |} in
  0 <= 4
  /\ rows_after 1 (bytes [0; 161; 178]) 4 = Ok st'
  /\ pixels st' !! 0%nat = Some [10; 1; 11; 2]
  /\ (2 < Z.to_nat 4)%nat
  /\ prev st' !! (2 / 2)%nat = Some 178
  /\ [10; 1; 11; 2] !! 2%nat = Some (if Nat.even 2 then 178 / 16 else 178 mod 16).
Proof.
  intros st'.
  assert (H0 : 0 <= 4) by lia.
  assert (H1 : rows_after 1 (bytes [0; 161; 178]) 4 = Ok st') by reflexivity.
  assert (H2 : pixels st' !! 0%nat = Some [10; 1; 11; 2]) by reflexivity.
  assert (H3 : (2 < Z.to_nat 4)%nat) by (simpl; lia).
  assert (H4 : prev st' !! (2 / 2)%nat = Some 178) by reflexivity.
  exact (conj H0 (conj H1 (conj H2 (conj H3 (conj H4
           (pixel_is_nibble_of_byte _ 4 0%nat 2%nat st' _ 178 H0 H1 H2 H3 H4)))))).
Defined.

Lemma sheet_98x44_shape :
  len sheet_98x44 = 44 /\ Forall (fun r => len r = 98) sheet_98x44.
Proof. split; [reflexivity|]. apply shape_check. vm_compute. reflexivity. Defined.

Lemma sheet_98x44_ok : sheet_ok sheet_98x44 98 44.
Proof. apply sheet_ok_check. vm_compute. reflexivity. Defined.

Lemma png_sheet_loads :
  load_png ZlibStored.inflate png_sheet = Ok (sheet_98x44, 98, 44).
Proof. vm_compute. reflexivity. Defined.

Lemma analyze_counts_tile_witness :
  len sheet_98x44 = 44 /\ Forall (fun r => len r = 98) sheet_98x44
  /\ 0 <= 54 < COLS * ROWS
  /\ tile sheet_98x44 98 44 54 = [6; 2; 6; 2]
  /\ exists counts,
       analyze sheet_98x44 98 44 54 = Ok counts
       /\ forall k,
            od_get counts k
            = if (k =? BG_IDX) || (occurrences k (tile sheet_98x44 98 44 54) =? 0)
              then None
              else Some (occurrences k (tile sheet_98x44 98 44 54)).
Proof.
  assert (H0 : len sheet_98x44 = 44) by reflexivity.
  assert (H1 : Forall (fun r => len r = 98) sheet_98x44)
    by exact (proj2 sheet_98x44_shape).
  assert (H2 : 0 <= 54 < COLS * ROWS) by (unfold COLS, ROWS; lia).
  assert (H3 : tile sheet_98x44 98 44 54 = [6; 2; 6; 2])
    by (vm_compute; reflexivity).
  exact (conj H0 (conj H1 (conj H2 (conj H3
           (analyze_counts_tile sheet_98x44 98 44 54 H0 H1 H2))))).
Defined.

Lemma analyze_counts_invariant_witness :
  analyze sheet_98x44 98 44 54 = Ok [(6, 2); (2, 2)]
  /\ od_get [(6, 2); (2, 2)] BG_IDX = None
  /\ List.NoDup (map fst [(6, 2); (2, 2)])
  /\ Forall (fun kv : Z * Z => 1 <= snd kv) [(6, 2); (2, 2)].
Proof.
  assert (H0 : analyze sheet_98x44 98 44 54 = Ok [(6, 2); (2, 2)])
    by (vm_compute; reflexivity).
  exact (conj H0 (analyze_counts_invariant sheet_98x44 98 44 54 _ H0)).
Defined.

Lemma analyze_total_witness :
  len sheet_98x44 = 44 /\ Forall (fun r => len r = 98) sheet_98x44
  /\ 0 <= 1 < COLS * ROWS
  /\ exists counts,
       analyze sheet_98x44 98 44 1 = Ok counts
       /\ sum_values counts
          = (98 / COLS) * (44 / ROWS) - occurrences BG_IDX (tile sheet_98x44 98 44 1).
Proof.
  assert (H0 : len sheet_98x44 = 44) by reflexivity.
  assert (H1 : Forall (fun r => len r = 98) sheet_98x44)
    by exact (proj2 sheet_98x44_shape).
  assert (H2 : 0 <= 1 < COLS * ROWS) by (unfold COLS, ROWS; lia).
  exact (conj H0 (conj H1 (conj H2 (analyze_total sheet_98x44 98 44 1 H0 H1 H2)))).
Defined.

Lemma analyze_small_sheet_witness :
  (2 < COLS \/ 2 < ROWS) /\ analyze [[1; 2]; [3; 4]] 2 2 0 = Ok [].
Proof.
  assert (H0 : 2 < COLS \/ 2 < ROWS) by (left; unfold COLS; lia).
  exact (conj H0 (analyze_small_sheet [[1; 2]; [3; 4]] 2 2 0 H0)).
Defined.

Lemma analyze_after_load_png_witness :
  read_stream ZlibStored.inflate png_sheet = Ok (encode_none sheet_98x44, 98, 44)
  /\ 44 * (1 + row_bytes 98) <= len (encode_none sheet_98x44)
  /\ 0 <= 54 < COLS * ROWS
  /\ exists px counts,
       load_png ZlibStored.inflate png_sheet = Ok (px, 98, 44)
       /\ analyze px 98 44 54 = Ok counts
       /\ forall k n, od_get counts k = Some n -> 0 <= k < 16 /\ k <> BG_IDX.
Proof.
  assert (H0 : read_stream ZlibStored.inflate png_sheet
               = Ok (encode_none sheet_98x44, 98, 44)) by (vm_compute; reflexivity).
  assert (H1 : 44 * (1 + row_bytes 98) <= len (encode_none sheet_98x44))
    by (vm_compute; discriminate).
  assert (H2 : 0 <= 54 < COLS * ROWS) by (unfold COLS, ROWS; lia).
  exact (conj H0 (conj H1 (conj H2
           (analyze_after_load_png ZlibStored.inflate png_sheet _ 98 44 54 H0 H1 H2)))).
Defined.

Lemma fmt_named_ok_witness :
  Forall (fun kv : Z * Z => named (fst kv)) [(1, 5); (6, 12); (2, 12)]
  /\ exists line, fmt 54 [(1, 5); (6, 12); (2, 12)] = Ok line.
Proof.
  assert (H0 : Forall (fun kv : Z * Z => named (fst kv)) [(1, 5); (6, 12); (2, 12)])
    by (repeat constructor; unfold named; simpl; lia).
  exact (conj H0 (fmt_named_ok 54 _ H0)).
Defined.

Lemma fmt_unnamed_key_error_witness :
  Exists (fun kv : Z * Z => ~ named (fst kv)) [(1, 5); (8, 1)]
  /\ fmt 3 [(1, 5); (8, 1)] = Raise KeyError.
Proof.
  assert (H0 : Exists (fun kv : Z * Z => ~ named (fst kv)) [(1, 5); (8, 1)])
    by (apply Exists_cons_tl, Exists_cons_hd; unfold named; simpl; lia).
  exact (conj H0 (fmt_unnamed_key_error 3 _ H0)).
Defined.

Lemma fmt_line_witness :
  let counts := [(1, 5); (6, 12); (2, 12)] in
  counts <> []
  /\ List.NoDup (map fst counts)
  /\ Forall (fun kv : Z * Z => named (fst kv)) counts
  /\ sorted_by_count counts = [(6, 12); (2, 12); (1, 5)]
  /\ exists k v rest r g b,
       sorted_by_count counts = (k, v) :: rest
       /\ (k, v) :: rest ≡ₚ counts
       /\ StronglySorted (fun a b => snd b <= snd a) ((k, v) :: rest)
       /\ (forall n, List.filter (fun kv => snd kv =? n) ((k, v) :: rest)
                     = List.filter (fun kv => snd kv =? n) counts)
       /\ Forall (fun kv => snd kv <= v) counts
       /\ PALETTE_RGB !! Z.to_nat k = Some (r, g, b)
       /\ fmt 54 counts
          = Ok ("Frame " +:+ fmt_d 4 54 +:+ " (r" +:+ fmt_d 2 (54 / COLS)
                +:+ "c" +:+ fmt_d 2 (54 mod COLS) +:+ "): "
                +:+ fmt_d 3 (sum_values counts) +:+ "px | "
                +:+ join ", " (map part_of ((k, v) :: rest)) +:+ "  → #"
                +:+ fmt_02X r +:+ fmt_02X g +:+ fmt_02X b).
Proof.
  intros counts.
  assert (H0 : counts <> []) by discriminate.
  assert (H1 : List.NoDup (map fst counts)).
  { repeat constructor; simpl; intros Hin;
      repeat (destruct Hin as [Hin|Hin]; [discriminate|]); exact Hin. }
  assert (H2 : Forall (fun kv : Z * Z => named (fst kv)) counts)
    by (repeat constructor; unfold named; simpl; lia).
  exact (conj H0 (conj H1 (conj H2 (conj eq_refl (fmt_line 54 counts H0 H1 H2))))).
Defined.

Lemma fmt_after_analyze_key_error_witness :
  len sheet_unnamed = 22 /\ Forall (fun r => len r = 49) sheet_unnamed
  /\ 0 <= 0 < COLS * ROWS
  /\ In 9 (tile sheet_unnamed 49 22 0) /\ ~ named 9
  /\ exists counts,
       analyze sheet_unnamed 49 22 0 = Ok counts
       /\ fmt 0 counts = Raise KeyError.
Proof.
  assert (H0 : len sheet_unnamed = 22) by reflexivity.
  assert (H1 : Forall (fun r => len r = 49) sheet_unnamed)
    by (apply shape_check; vm_compute; reflexivity).
  assert (H2 : 0 <= 0 < COLS * ROWS) by (unfold COLS, ROWS; lia).
  assert (H3 : In 9 (tile sheet_unnamed 49 22 0)) by (left; reflexivity).
  assert (H4 : ~ named 9) by (unfold named; lia).
  exact (conj H0 (conj H1 (conj H2 (conj H3 (conj H4
           (fmt_after_analyze_key_error sheet_unnamed 49 22 0 9 H0 H1 H2 H3 H4)))))).
Defined.

Lemma analyze_empty_iff_background_witness :
  len sheet_98x44 = 44 /\ Forall (fun r => len r = 98) sheet_98x44
  /\ 0 <= 1 < COLS * ROWS
  /\ tile sheet_98x44 98 44 1 = [7; 7; 7; 7]
  /\ exists counts,
       analyze sheet_98x44 98 44 1 = Ok counts
       /\ (counts = [] <-> Forall (fun v => v = BG_IDX) (tile sheet_98x44 98 44 1))
       /\ (counts = [] ->
           fmt 1 counts
           = Ok ("Frame " +:+ fmt_d 4 1 +:+ " (r" +:+ fmt_d 2 (1 / COLS)
                 +:+ "c" +:+ fmt_d 2 (1 mod COLS) +:+ "): EMPTY")).
Proof.
  assert (H0 : len sheet_98x44 = 44) by reflexivity.
  assert (H1 : Forall (fun r => len r = 98) sheet_98x44)
    by exact (proj2 sheet_98x44_shape).
  assert (H2 : 0 <= 1 < COLS * ROWS) by (unfold COLS, ROWS; lia).
  assert (H3 : tile sheet_98x44 98 44 1 = [7; 7; 7; 7]) by (vm_compute; reflexivity).
  exact (conj H0 (conj H1 (conj H2 (conj H3
           (analyze_empty_iff_background sheet_98x44 98 44 1 H0 H1 H2))))).
Defined.

Lemma main_frame_mode_witness :
  let args := CliArgs false false false false false (Some [54; -1; 0]) 20 in
  load_png ZlibStored.inflate png_sheet = Ok (sheet_98x44, 98, 44)
  /\ sheet_ok sheet_98x44 98 44
  /\ a_frame args = Some [54; -1; 0]
  /\ Forall (fun f => - (COLS * ROWS) <= f < COLS * ROWS) [54; -1; 0]
  /\ exists lines,
       main ZlibStored.inflate png_sheet args = (lines, Ok tt)
       /\ Forall2 (fun f l =>
                    exists counts,
                      analyze sheet_98x44 98 44 (f mod (COLS * ROWS)) = Ok counts
                      /\ fmt f counts = Ok l) [54; -1; 0] lines.
Proof.
  intros args.
  assert (H2 : a_frame args = Some [54; -1; 0]) by reflexivity.
  assert (H3 : Forall (fun f => - (COLS * ROWS) <= f < COLS * ROWS) [54; -1; 0])
    by (repeat constructor; unfold COLS, ROWS; lia).
  exact (conj png_sheet_loads (conj sheet_98x44_ok (conj H2 (conj H3
           (main_frame_mode ZlibStored.inflate png_sheet args sheet_98x44 98 44
              54 [-1; 0] png_sheet_loads sheet_98x44_ok H2 H3))))).
Defined.

Lemma main_frame_out_of_range_witness :
  let args := CliArgs false false false false false (Some [0; 5000; 3]) 20 in
  load_png ZlibStored.inflate png_sheet = Ok (sheet_98x44, 98, 44)
  /\ sheet_ok sheet_98x44 98 44
  /\ a_frame args = Some ([0] ++ 5000 :: [3])
  /\ Forall (fun f => - (COLS * ROWS) <= f < COLS * ROWS) [0]
  /\ (5000 < - (COLS * ROWS) \/ COLS * ROWS <= 5000)
  /\ exists lines,
       main ZlibStored.inflate png_sheet args = (lines, Raise IndexError)
       /\ Forall2 (fun f l =>
                    exists counts,
                      analyze sheet_98x44 98 44 (f mod (COLS * ROWS)) = Ok counts
                      /\ fmt f counts = Ok l) [0] lines.
Proof.
  intros args.
  assert (H2 : a_frame args = Some ([0] ++ 5000 :: [3])) by reflexivity.
  assert (H3 : Forall (fun f => - (COLS * ROWS) <= f < COLS * ROWS) [0])
    by (repeat constructor; unfold COLS, ROWS; lia).
  assert (H4 : 5000 < - (COLS * ROWS) \/ COLS * ROWS <= 5000)
    by (right; unfold COLS, ROWS; lia).
  exact (conj png_sheet_loads (conj sheet_98x44_ok (conj H2 (conj H3 (conj H4
           (main_frame_out_of_range ZlibStored.inflate png_sheet args sheet_98x44
              98 44 5000 [0] [3] png_sheet_loads sheet_98x44_ok H2 H3 H4)))))).
Defined.

Lemma main_all_frames_witness :
  let args := CliArgs false false false false false None 20 in
  load_png ZlibStored.inflate png_sheet = Ok (sheet_98x44, 98, 44)
  /\ sheet_ok sheet_98x44 98 44
  /\ a_frame args = None
  /\ chosen_color args = None
  /\ main ZlibStored.inflate png_sheet args
     = (["All non-empty frames in colored_packed.png (49×22, 1078 total):"%string]
        ++ omap (report_line sheet_98x44 98 44) (range_Z 0 (COLS * ROWS)), Ok tt).
Proof.
  intros args.
  assert (H2 : a_frame args = None) by reflexivity.
  assert (H3 : chosen_color args = None) by reflexivity.
  exact (conj png_sheet_loads (conj sheet_98x44_ok (conj H2 (conj H3
           (main_all_frames ZlibStored.inflate png_sheet args sheet_98x44 98 44
              png_sheet_loads sheet_98x44_ok H2 H3))))).
Defined.

Lemma main_ranked_witness :
  let args := CliArgs false true false false false None 3 in
  load_png ZlibStored.inflate png_sheet = Ok (sheet_98x44, 98, 44)
  /\ sheet_ok sheet_98x44 98 44
  /\ a_frame args = None
  /\ chosen_color args = Some (6, "GRAY"%string)
  /\ exists ranked,
       ranked ≡ₚ map (fun f => (default 0 (od_get (frame_counts sheet_98x44 98 44 f) 6),
                                f))
                   (range_Z 0 (COLS * ROWS))
       /\ StronglySorted
            (fun a b => fst b < fst a \/ (fst b = fst a /\ snd b <= snd a)) ranked
       /\ main ZlibStored.inflate png_sheet args
          = (["Top " +:+ str_int (a_top args) +:+ " frames by " +:+ "GRAY"
              +:+ " pixel count:"]
             ++ omap (fun nf => if 0 <? fst nf
                                then report_line sheet_98x44 98 44 (snd nf)
                                else None)
                  (slice_to ranked (a_top args)), Ok tt).
Proof.
  intros args.
  assert (H2 : a_frame args = None) by reflexivity.
  assert (H3 : chosen_color args = Some (6, "GRAY"%string)) by reflexivity.
  exact (conj png_sheet_loads (conj sheet_98x44_ok (conj H2 (conj H3
           (main_ranked ZlibStored.inflate png_sheet args sheet_98x44 98 44 6
              "GRAY" png_sheet_loads sheet_98x44_ok H2 H3))))).
Defined.
